(** * GenerateTDK: fault-code matching for board fault reports

    A shallow embedding of [active_erpt_generate_TDK.py] and the properties
    of its specification that can be settled on it.

    Conventions of the embedding.

    - A Python [str] is a Rocq [string] holding the UTF-8 bytes of the text.
      Literals of the source are written as they are.  Concatenation,
      equality, [in] and splitting on an ASCII separator commute with the
      UTF-8 encoding, so column names and messages behave as in the source.
      The character classes behind [str.strip], [\w], [\s], [str.lower] and
      [str.upper] are CPython's on the ASCII range; a byte above 127 (part
      of a non-ASCII character) is kept as a caseless word character, which
      is what CPython does for the ideographs of the native-language
      columns.  The embedding is exact on ASCII text; the theorems whose
      truth depends on the character classes are stated for ASCII text.
    - A cell of a sheet, and a scalar of the JSON configuration, is a
      [value]: an integer, a binary64 float ([nan] is the missing cell) or a
      text.  Booleans and dates are outside the model.
    - A [DataFrame] is column oriented, with a positional index
      (pandas' [RangeIndex], which [read_excel] and [ignore_index=True]
      produce).  The semantics are those of pandas 1.x/2.x with 64-bit
      integers: [astype(str)] turns a missing cell into the text [nan].
      The cells of a column are the values pandas stores: a [float64]
      column holds floats, a column of integers is [int64] or [uint64].
    - Effects are explicit: a function that prints, logs, writes or raises
      returns the list of events it produced together with its outcome.
      Reading a sheet is a query to the file system, a parameter [world]. *)

From Stdlib Require Import ZArith NArith String Ascii List Lia.
From Stdlib Require Import Floats.SpecFloat.
From stdpp Require Import base option list strings pretty gmap.

Local Open Scope Z_scope.

(* ================================================================== *)
(** * Python text *)

Definition code (c : ascii) : N := N_of_ascii c.

Definition between (lo hi n : N) : bool := ((lo <=? n) && (n <=? hi))%N.

(** [str.isspace] on one character, which is also [\s] and what
    [str.strip] removes: TAB LF VT FF CR, FS GS RS US, and the space. *)
Definition isspace (c : ascii) : bool :=
  between 9 13 (code c) || between 28 32 (code c).

(** [str.isalnum] on one character. *)
Definition isalnum (c : ascii) : bool :=
  between 48 57 (code c) || between 65 90 (code c)
  || between 97 122 (code c) || (128 <=? code c)%N.

(** [\w]: alphanumeric or the underscore. *)
Definition isword (c : ascii) : bool := isalnum c || (code c =? 95)%N.

Definition lower_char (c : ascii) : ascii :=
  if between 65 90 (code c) then ascii_of_N (code c + 32) else c.

Definition upper_char (c : ascii) : ascii :=
  if between 97 122 (code c) then ascii_of_N (code c - 32) else c.

Fixpoint str_map (f : ascii → ascii) (s : string) : string :=
  match s with
  | EmptyString => EmptyString
  | String c s' => String (f c) (str_map f s')
  end.

Fixpoint str_filter (p : ascii → bool) (s : string) : string :=
  match s with
  | EmptyString => EmptyString
  | String c s' => if p c then String c (str_filter p s') else str_filter p s'
  end.

(** [s.lower()] and [s.upper()]. *)
Definition lower (s : string) : string := str_map lower_char s.
Definition upper (s : string) : string := str_map upper_char s.

Definition is_empty (s : string) : bool :=
  match s with EmptyString => true | String _ _ => false end.

Fixpoint lstrip (s : string) : string :=
  match s with
  | EmptyString => EmptyString
  | String c s' => if isspace c then lstrip s' else s
  end.

Fixpoint rstrip (s : string) : string :=
  match s with
  | EmptyString => EmptyString
  | String c s' =>
      let r := rstrip s' in
      if isspace c && is_empty r then EmptyString else String c r
  end.

(** [s.strip()]. *)
Definition strip (s : string) : string := rstrip (lstrip s).

(** [re.sub(r'[^\w\s]', '', s)]: every character that is neither a word
    character nor whitespace is deleted. *)
Definition re_sub_nonword (s : string) : string :=
  str_filter (λ c, isword c || isspace c) s.

Definition is_crlf (c : ascii) : bool := (code c =? 13)%N || (code c =? 10)%N.

Fixpoint re_sub_crlf_from (in_run : bool) (s : string) : string :=
  match s with
  | EmptyString => EmptyString
  | String c s' =>
      if is_crlf c then
        if in_run then re_sub_crlf_from true s'
        else String " " (re_sub_crlf_from true s')
      else String c (re_sub_crlf_from false s')
  end.

(** [re.sub(r'[\r\n]+', ' ', s)], the regex of [Series.str.replace]: each
    maximal run of CR and LF becomes one space. *)
Definition re_sub_crlf (s : string) : string := re_sub_crlf_from false s.

(** [a in b] on strings: [a] occurs in [b] as a contiguous piece. *)
Fixpoint contains (a b : string) : bool :=
  String.prefix a b
  || match b with
     | EmptyString => false
     | String _ b' => contains a b'
     end.

(** [s.split(sep)] for a one-character separator. *)
Fixpoint split (sep : ascii) (s : string) : list string :=
  match s with
  | EmptyString => [EmptyString]
  | String c s' =>
      if Ascii.eqb c sep then EmptyString :: split sep s'
      else match split sep s' with
           | h :: t => String c h :: t
           | [] => [String c EmptyString]
           end
  end.

(** [s.replace('*', '')]. *)
Definition remove_stars (s : string) : string :=
  str_filter (λ c, negb (code c =? 42)%N) s.

(** [c * n] for a one-character string [c]. *)
Definition str_repeat (c : ascii) (n : nat) : string :=
  string_of_list_ascii (replicate n c).

(** [os.path.join(a, p)] with two components, POSIX flavour. *)
Definition path_join (a p : string) : string :=
  if String.prefix "/" p then p
  else if is_empty a then p
  else match String.get (String.length a - 1)%nat a with
       | Some "/"%char => a +:+ p
       | _ => a +:+ "/" +:+ p
       end.

(* ================================================================== *)
(** * Python numbers *)

(** [str(n)] for an [int]. *)
Definition str_int (z : Z) : string := pretty z.

Definition int64_min : Z := - 2 ^ 63.
Definition int64_max : Z := 2 ^ 63 - 1.
Definition in_int64 (z : Z) : bool := (int64_min <=? z) && (z <=? int64_max).

Definition is_digit (c : ascii) : bool := between 48 57 (code c).

(** The digits of an [int] literal: single underscores may separate
    digits.  [acc] is the value read so far, [prev] tells whether the
    previous character was a digit. *)
Fixpoint read_digits (acc : Z) (prev : bool) (s : string) : option Z :=
  match s with
  | EmptyString => if prev then Some acc else None
  | String c s' =>
      if is_digit c then read_digits (10 * acc + Z.of_N (code c - 48)) true s'
      else if (code c =? 95)%N && prev then read_digits acc false s'
      else None
  end.

(** The whitespace [int] skips at the ends of an ASCII text: TAB LF VT FF
    CR and the space.  Unlike [str.strip] it leaves FS GS RS US, which
    then are no digits. *)
Definition is_int_space (c : ascii) : bool :=
  between 9 13 (code c) || (code c =? 32)%N.

Fixpoint lstrip_int (s : string) : string :=
  match s with
  | EmptyString => EmptyString
  | String c s' => if is_int_space c then lstrip_int s' else s
  end.

Fixpoint rstrip_int (s : string) : string :=
  match s with
  | EmptyString => EmptyString
  | String c s' =>
      let r := rstrip_int s' in
      if is_int_space c && is_empty r then EmptyString else String c r
  end.

(** [int(s)] for an ASCII [str]: surrounding whitespace, an optional sign,
    decimal digits.  [None] stands for [ValueError]. *)
Definition int_of_str (s : string) : option Z :=
  match rstrip_int (lstrip_int s) with
  | String "-" s' => Z.opp <$> read_digits 0 false s'
  | String "+" s' => read_digits 0 false s'
  | s' => read_digits 0 false s'
  end.

(** ** binary64 floats

    A float is a [spec_float] of the Standard Library: sign, mantissa and
    binary exponent, or a zero, an infinity or the [nan]. *)

(** The float truncated towards zero, [None] when it is not finite. *)
Definition float_trunc (f : spec_float) : option Z :=
  match f with
  | S754_zero _ => Some 0
  | S754_finite s m e =>
      let a := Z.shiftl (Zpos m) e in Some (if s then - a else a)
  | S754_infinity _ | S754_nan => None
  end.

(** [repr] of a float is the shortest decimal that reads back as the same
    float.  With [m4 = 4m] and [e2 = e - 2] the float is [m4 * 2^e2] and
    the decimals that round to it lie between [lo * 2^e2] and [hi * 2^e2];
    [x / 10^k] is [m4 * scale_num e2 k / scale_den e2 k]. *)
Definition scale_num (e2 k : Z) : Z := 2 ^ Z.max e2 0 * 10 ^ Z.max (- k) 0.
Definition scale_den (e2 k : Z) : Z := 2 ^ Z.max (- e2) 0 * 10 ^ Z.max k 0.

Fixpoint floor_log10 (fuel : nat) (m4 e2 L : Z) : Z :=
  match fuel with
  | O => L
  | S fuel' =>
      if m4 * scale_num e2 (L + 1) <? scale_den e2 (L + 1) then L
      else floor_log10 fuel' m4 e2 (L + 1)
  end.

Fixpoint shortest_from (fuel : nat) (m4 lo hi e2 k : Z) (incl : bool) : Z * Z :=
  let U := scale_num e2 k in
  let Q := scale_den e2 k in
  let d_lo := (m4 * U) / Q in
  let d_hi := d_lo + 1 in
  let inside d :=
    if incl then (lo * U <=? d * Q) && (d * Q <=? hi * U)
    else (lo * U <? d * Q) && (d * Q <? hi * U) in
  let dist d := Z.abs (d * Q - m4 * U) in
  match fuel with
  | O => (d_lo, k)
  | S fuel' =>
      match inside d_lo, inside d_hi with
      | true, true =>
          if dist d_lo <? dist d_hi then (d_lo, k)
          else if dist d_hi <? dist d_lo then (d_hi, k)
          else if Z.even d_lo then (d_lo, k) else (d_hi, k)
      | true, false => (d_lo, k)
      | false, true => (d_hi, k)
      | false, false => shortest_from fuel' m4 lo hi e2 (k - 1) incl
      end
  end.

(** The shortest decimal [d * 10^k] of the canonical float [m * 2^e]:
    one digit is tried first, seventeen always suffice. *)
Definition shortest_decimal (m : positive) (e : Z) : Z * Z :=
  let m4 := 4 * Zpos m in
  let closer := (Zpos m =? 2 ^ 52) && (-1074 <? e) in
  let lo := if closer then m4 - 1 else m4 - 2 in
  let hi := m4 + 2 in
  let b := Z.log2 (Zpos m) + e in
  let L := floor_log10 8 m4 (e - 2) (b * 30103 / 100000 - 2) in
  shortest_from 17 m4 lo hi (e - 2) L (Z.even (Zpos m)).

Fixpoint strip_zeros (fuel : nat) (d k : Z) : Z * Z :=
  match fuel with
  | O => (d, k)
  | S fuel' =>
      if (d mod 10 =? 0) && negb (d =? 0) then strip_zeros fuel' (d / 10) (k + 1)
      else (d, k)
  end.

Definition zeros (n : Z) : string := str_repeat "0" (Z.to_nat n).
Definition str_take (n : Z) (s : string) : string :=
  String.substring 0 (Z.to_nat n) s.
Definition str_drop (n : Z) (s : string) : string :=
  String.substring (Z.to_nat n) (String.length s - Z.to_nat n)%nat s.

(** The digits [ds] with the decimal point after the first [decpt] of
    them, laid out as [repr] does: exponent notation below [1e-4] and from
    [1e16] on. *)
Definition format_repr (ds : string) (decpt : Z) : string :=
  let nd := Z.of_nat (String.length ds) in
  if (decpt <=? -4) || (16 <? decpt) then
    let ex := decpt - 1 in
    let mant :=
      if 1 <? nd then str_take 1 ds +:+ "." +:+ str_drop 1 ds else ds in
    let exs := str_int (Z.abs ex) in
    mant +:+ "e" +:+ (if ex <? 0 then "-" else "+") +:+
      (if Z.abs ex <? 10 then "0" +:+ exs else exs)
  else if decpt <=? 0 then "0." +:+ zeros (- decpt) +:+ ds
  else if nd <=? decpt then ds +:+ zeros (decpt - nd) +:+ ".0"
  else str_take decpt ds +:+ "." +:+ str_drop decpt ds.

Definition special_repr (f : spec_float) : string :=
  match f with
  | S754_nan => "nan"
  | S754_infinity s => if s then "-inf" else "inf"
  | S754_zero s => if s then "-0.0" else "0.0"
  | S754_finite _ _ _ => ""
  end.

(** [str(x)] for a [float]. *)
Definition float_repr (f : spec_float) : string :=
  match f with
  | S754_finite s m e =>
      match binary_round 53 1024 s m e with
      | S754_finite s' m' e' =>
          let '(d, k) := shortest_decimal m' e' in
          let '(d', k') := strip_zeros 20 d k in
          let ds := str_int d' in
          (if s' then "-" else "")
            +:+ format_repr ds (k' + Z.of_nat (String.length ds))
      | f' => special_repr f'
      end
  | _ => special_repr f
  end.

(* ================================================================== *)
(** * Values *)

Inductive value :=
  | VInt (z : Z)
  | VFloat (f : spec_float)
  | VStr (s : string).

Definition nan : value := VFloat S754_nan.

(** [pd.isna(v)] on a scalar. *)
Definition isna (v : value) : bool :=
  match v with
  | VFloat S754_nan => true
  | _ => false
  end.

(** [str(v)], which is also what an f-string field [{v}] prints. *)
Definition py_str (v : value) : string :=
  match v with
  | VInt z => str_int z
  | VFloat f => float_repr f
  | VStr s => s
  end.

#[global] Instance value_eq_dec : EqDecision value.
Proof. unfold EqDecision, Decision. repeat decide equality. Defined.

(* ================================================================== *)
(** * Effects *)

Inductive level := INFO | WARNING | ERROR.

#[global] Instance level_eq_dec : EqDecision level.
Proof. solve_decision. Defined.

(** What a run does to the outside: a line on standard output, a record
    in the log file, the table handed to [DataFrame.to_csv]. *)
Inductive event :=
  | Print (msg : string)
  | Log (lv : level) (msg : string)
  | ToCsv (path : string) (header : list string) (rows : list (list value)).

(** A Python exception, by class and text: [str(e)] is the text, for a
    [KeyError] the [repr] of its key. *)
Inductive exn := Exception (cls msg : string).

Definition str_exn (e : exn) : string :=
  match e with Exception _ msg => msg end.

(** [sys.exit(code)]: not an [Exception], so no [except Exception]
    catches it. *)
Inductive sys_exit := SystemExit (code : Z).

Inductive outcome (E A : Type) :=
  | Return (a : A)
  | Raise (e : E).
Arguments Return {E A} a.
Arguments Raise {E A} e.

(** A computation that emits events and then returns or raises [E]. *)
Definition M (E A : Type) : Type := list event * outcome E A.

Definition events {E A} (m : M E A) : list event := m.1.
Definition result {E A} (m : M E A) : outcome E A := m.2.

Definition m_bind {E A B} (f : A → M E B) (m : M E A) : M E B :=
  match m with
  | (out, Return a) => let '(out', r) := f a in (out ++ out', r)
  | (out, Raise e) => (out, Raise e)
  end.

#[global] Instance M_ret {E} : MRet (M E) := λ A a, ([], Return a).
#[global] Instance M_bind {E} : MBind (M E) := λ A B f m, m_bind f m.

Definition raise {E A} (e : E) : M E A := ([], Raise e).
Definition emit {E} (ev : event) : M E unit := ([ev], Return tt).

Definition print {E} (msg : string) : M E unit := emit (Print msg).
Definition logger_info {E} (msg : string) : M E unit := emit (Log INFO msg).
Definition logger_warning {E} (msg : string) : M E unit := emit (Log WARNING msg).
Definition logger_error {E} (msg : string) : M E unit := emit (Log ERROR msg).

(** [try: body / except Exception as e: handler e]. *)
Definition try_except {E A} (body : M exn A) (handler : exn → M E A) : M E A :=
  match body with
  | (out, Return a) => (out, Return a)
  | (out, Raise e) => let '(out', r) := handler e in (out ++ out', r)
  end.

(** The value a computation returns, if it returns. *)
Definition result_value {E A} (m : M E A) : option A :=
  match result m with
  | Return a => Some a
  | Raise _ => None
  end.

(** A [for] loop that threads the variables it assigns. *)
Fixpoint for_each {E A S} (body : S → A → M E S) (l : list A) (s : S) : M E S :=
  match l with
  | [] => mret s
  | x :: l' => s' ← body s x; for_each body l' s'
  end.

Fixpoint traverse {E A B} (f : A → M E B) (l : list A) : M E (list B) :=
  match l with
  | [] => mret []
  | x :: l' => y ← f x; ys ← traverse f l'; mret (y :: ys)
  end.

(* ================================================================== *)
(** * pandas *)

(** A column: one cell per row. *)
Abbreviation Series := (list value).

(** A table: [nrows] is the length of the index, every column holds one
    cell per row. *)
Record DataFrame := { nrows : nat; cols : list (string * Series) }.

(** [df.columns]. *)
Definition columns (df : DataFrame) : list string := (cols df).*1.

Fixpoint lookup_col (c : string) (l : list (string * Series)) : option Series :=
  match l with
  | [] => None
  | (k, s) :: l' => if String.eqb k c then Some s else lookup_col c l'
  end.

Fixpoint assign_col (c : string) (s : Series) (l : list (string * Series))
  : list (string * Series) :=
  match l with
  | [] => [(c, s)]
  | (k, s0) :: l' =>
      if String.eqb k c then (k, s) :: l' else (k, s0) :: assign_col c s l'
  end.

Fixpoint alter_col (f : Series → Series) (c : string)
  (l : list (string * Series)) : list (string * Series) :=
  match l with
  | [] => []
  | (k, s0) :: l' =>
      if String.eqb k c then (k, f s0) :: l' else (k, s0) :: alter_col f c l'
  end.

(** [repr(s)] for a text that holds no quote, backslash or control
    character, as the labels of the program do; [repr(l)] for a list of
    such texts. *)
Definition repr_str (s : string) : string := "'" +:+ s +:+ "'".

Fixpoint str_join (sep : string) (l : list string) : string :=
  match l with
  | [] => EmptyString
  | [s] => s
  | s :: l' => s +:+ sep +:+ str_join sep l'
  end.

Definition repr_list (l : list string) : string :=
  "[" +:+ str_join ", " (repr_str <$> l) +:+ "]".

(** [KeyError(key)]: its text is [repr(key)]. *)
Definition KeyError (key : string) : exn := Exception "KeyError" (repr_str key).

(** The [KeyError] pandas raises with a message: the message holds single
    quotes, so its [repr] is written between double quotes. *)
Definition KeyError_message (msg : string) : exn :=
  let dq := String (ascii_of_N 34) EmptyString in
  Exception "KeyError" (dq +:+ msg +:+ dq).
Definition ValueError (msg : string) : exn := Exception "ValueError" msg.
Definition OverflowError (msg : string) : exn := Exception "OverflowError" msg.
Definition IndexError (msg : string) : exn := Exception "IndexError" msg.

(** [df[c]]. *)
Definition getitem (df : DataFrame) (c : string) : M exn Series :=
  match lookup_col c (cols df) with
  | Some s => mret s
  | None => raise (KeyError c)
  end.

(** What an indexing by the list of distinct labels [cs] raises when
    labels are missing (pandas 1.1 to 2.x). *)
Definition not_in_index (df : DataFrame) (cs : list string) : option exn :=
  match filter (λ c, c ∉ columns df) cs with
  | [] => None
  | missing =>
      Some (KeyError_message
        (if bool_decide (length missing = length cs)
         then "None of [Index(" +:+ repr_list cs
              +:+ ", dtype='object')] are in the [columns]"
         else repr_list missing +:+ " not in index"))
  end.

(** [df[[c1, ..., cn]].copy()]. *)
Definition getitems (df : DataFrame) (cs : list string) : M exn DataFrame :=
  match not_in_index df cs with
  | Some e => raise e
  | None =>
      ss ← traverse (λ c, s ← getitem df c; mret (c, s)) cs;
      mret {| nrows := nrows df; cols := ss |}
  end.

(** [df[c] = s] for a series on the index of [df]: an existing column is
    replaced where it stands, a new one is added last. *)
Definition setitem (df : DataFrame) (c : string) (s : Series) : DataFrame :=
  {| nrows := nrows df; cols := assign_col c s (cols df) |}.

(** [df[c] = v] for a scalar. *)
Definition setitem_scalar (df : DataFrame) (c : string) (v : value) : DataFrame :=
  setitem df c (replicate (nrows df) v).

(** [df.at[idx, c] = v] for a label [idx] of the index and a column [c] of
    the frame, the only way the program uses it. *)
Definition at_set (df : DataFrame) (idx : nat) (c : string) (v : value) : DataFrame :=
  {| nrows := nrows df; cols := alter_col (λ s, <[idx := v]> s) c (cols df) |}.

Fixpoint enumerate_from {A} (i : nat) (l : list A) : list (nat * A) :=
  match l with
  | [] => []
  | x :: l' => (i, x) :: enumerate_from (S i) l'
  end.

(** [enumerate(l)]. *)
Definition enumerate {A} (l : list A) : list (nat * A) := enumerate_from 0 l.

(** [s.items()]: the cells with their labels. *)
Definition items (s : Series) : list (nat * value) := enumerate s.

Definition is_str (v : value) : bool :=
  match v with VStr _ => true | _ => false end.
Definition is_float (v : value) : bool :=
  match v with VFloat _ => true | _ => false end.

(** The integer [z] as the nearest float. *)
Definition float_of_int (z : Z) : spec_float := binary_normalize 53 1024 z 0 false.

Definition to_float (v : value) : value :=
  match v with
  | VInt z => VFloat (float_of_int z)
  | _ => v
  end.

Inductive dtype := int64 | uint64 | float64 | object.

Definition in_uint64 (z : Z) : bool := (0 <=? z) && (z <? 2 ^ 64).

(** The dtype pandas gives a column of cells: [object] as soon as one cell
    is a text, [float64] as soon as one number is a float or is missing;
    a column of integers is [int64] when all fit, [uint64] when none is
    negative and all are below 2^64, and [object] otherwise. *)
Definition dtype_of (s : Series) : dtype :=
  if existsb is_str s then object
  else if existsb is_float s then float64
  else if forallb (λ v, match v with VInt z => in_int64 z | _ => true end) s
       then int64
  else if forallb (λ v, match v with VInt z => in_uint64 z | _ => true end) s
       then uint64
  else object.

(** A [float64] column stores every number as a float. *)
Definition as_stored (s : Series) : Series :=
  match dtype_of s with
  | float64 => to_float <$> s
  | _ => s
  end.

(** [s.astype(str)]: a missing cell becomes the text [nan]. *)
Definition astype_str (s : Series) : list string := py_str <$> s.

Definition of_strs (l : list string) : Series := VStr <$> l.

(** [s.fillna(v)]. *)
Definition fillna (v : value) (s : Series) : Series :=
  let v' := match dtype_of s with float64 => to_float v | _ => v end in
  (λ x, if isna x then v' else x) <$> s.

(** One cell of [s.astype(int)].  In an [object] column this is Python's
    [int(x)] followed by the store into an int64 array; in a [float64]
    column it is the C conversion, which raises nothing and yields the
    least int64 for a float out of range (x86-64); in a [uint64] column
    it is the C conversion too, which wraps around. *)
Definition int_of_value (dt : dtype) (v : value) : M exn Z :=
  match v with
  | VInt z =>
      if in_int64 z then mret z
      else match dt with
           | uint64 => mret (z - 2 ^ 64)
           | _ => raise (OverflowError "Python int too large to convert to C long")
           end
  | VFloat f =>
      match float_trunc f with
      | None =>
          match dt, f with
          | float64, _ =>
              raise (ValueError "Cannot convert non-finite values (NA or inf) to integer")
          | _, S754_nan => raise (ValueError "cannot convert float NaN to integer")
          | _, _ => raise (OverflowError "cannot convert float infinity to integer")
          end
      | Some z =>
          if in_int64 z then mret z
          else match dt with
               | float64 => mret int64_min
               | _ => raise (OverflowError "Python int too large to convert to C long")
               end
      end
  | VStr s =>
      match int_of_str s with
      | None => raise (ValueError ("invalid literal for int() with base 10: '" +:+ s +:+ "'"))
      | Some z =>
          if in_int64 z then mret z
          else raise (OverflowError "Python int too large to convert to C long")
      end
  end.

(** [s.astype(int)]. *)
Definition astype_int (s : Series) : M exn (list Z) :=
  traverse (int_of_value (dtype_of s)) s.

(** [seen] then [l], each name once, in order of first appearance. *)
Fixpoint dedup_from (seen l : list string) : list string :=
  match l with
  | [] => []
  | x :: l' =>
      if bool_decide (x ∈ seen) then dedup_from seen l'
      else x :: dedup_from (x :: seen) l'
  end.

(** [list(dict.fromkeys(l))]. *)
Definition dedup (l : list string) : list string := dedup_from [] l.

(** The column [c] of [df] under the columns of a concatenation: cells of
    a column the frame lacks are missing. *)
Definition reindex_col (c : string) (df : DataFrame) : Series :=
  default (replicate (nrows df) nan) (lookup_col c (cols df)).

(** [pd.concat(dfs, ignore_index=True)] on a non-empty list: the columns
    are the union in order of first appearance, the rows follow each other
    in the order of the frames.  The unification of the dtypes of a column
    across frames is left out: it can only touch the raw columns [器件] and
    [器件编号], which are never written. *)
Definition pd_concat (dfs : list DataFrame) : DataFrame :=
  {| nrows := sum_list (nrows <$> dfs);
     cols := (λ c, (c, mjoin (reindex_col c <$> dfs)))
               <$> dedup (mjoin (columns <$> dfs)) |}.

(** The rows of [df] under the columns [cs]. *)
Definition rows_of (df : DataFrame) (cs : list string) : list (list value) :=
  (λ i, (λ c, default nan (reindex_col c df !! i)) <$> cs) <$> seq 0 (nrows df).

(** A query to [pd.read_excel]. *)
Record excel_query := {
  io : string;
  sheet_name : string;
  header : nat;
  skiprows : list nat;
  usecols : option string
}.

(** The file system: the cells found for a query, or the exception that
    reading raises (no such file, no such sheet, ...). *)
Definition world : Type := excel_query → exn + DataFrame.

Definition read_excel (w : world) (q : excel_query) : M exn DataFrame :=
  match w q with
  | inl e => raise e
  | inr df =>
      mret {| nrows := nrows df; cols := prod_map id as_stored <$> cols df |}
  end.

(** [df.columns = names]. *)
Definition set_columns (df : DataFrame) (names : list string) : M exn DataFrame :=
  if bool_decide (length (cols df) = length names) then
    mret {| nrows := nrows df; cols := zip names (cols df).*2 |}
  else
    raise (ValueError ("Length mismatch: Expected axis has "
      +:+ str_int (Z.of_nat (length (cols df))) +:+ " elements, new values have "
      +:+ str_int (Z.of_nat (length names)) +:+ " elements")).

(* ================================================================== *)
(** * The program *)

(** The configuration file, once loaded.  [load_config] leaves the run at
    once when the file cannot be read; a loaded configuration is taken to
    carry every key the program reads. *)
Record board_config := {
  board_fold_name : string;
  boardId : value;
  fold_path : string;
  errEntries_file_name : string;
  errEntries_file_sheet : string
}.

Record config := {
  pgName : string;
  paraInfoList : list board_config;
  helf_input_file : string;
  subsys_sheet : string;
  output_dir : string;
  output_filename : string
}.

Definition simulator_vp_prefix_dict : gmap string string :=
  list_to_map [
    ("RS", "rsspm_erpt.RSSPM_ERPT_Varpool.");
    ("RH", "rhrede.RhredeVarpool.");
    ("WH", "whvpa.WhvpaVarpool.");
    ("FLS", "fls.FlsVarPool.");
    ("WA", "wa.WaVarPool.");
    ("IS", "is.IS_Varpool.");
    ("RA", "ra.RA_Varpool.");
    ("WS", "wsetc.WsetcVarpool.");
    ("DC", "dc.DcVarpool.");
    ("SD", "avis.AVISVarpool.");
    ("WSPM", "wsetc.WsetcVarpool.");
    ("RSPM", "rsspm_erpt.RSSPM_ERPT_Varpool.");
    ("RM", "rm_erpt.RM_ERPT_Varpool.")
  ].

Definition len (df : DataFrame) : string := str_int (Z.of_nat (nrows df)).

Definition get_board_config (board_cfg : board_config) (pg_name : string)
  : M exn (value * string) :=
  let parts := split "_" (board_fold_name board_cfg) in
  let board_id := boardId board_cfg in
  match parts !! 1%nat with
  | Some part => let module_code := upper part in mret (board_id, module_code)
  | None => raise (IndexError "list index out of range")
  end.

Definition default_vp_prefix : string := "wsetc.WsetcVarpool.".

Definition get_vp_prefix {E} (pg_name : string) : M E string :=
  let vp_prefix := simulator_vp_prefix_dict !! pg_name in
  match vp_prefix with
  | Some vp_prefix' =>
      if negb (is_empty vp_prefix') then mret vp_prefix'
      else
        print ("警告: 未找到PG '" +:+ pg_name +:+ "' 对应的VP前缀，使用默认值");;
        mret default_vp_prefix
  | None =>
      print ("警告: 未找到PG '" +:+ pg_name +:+ "' 对应的VP前缀，使用默认值");;
      mret default_vp_prefix
  end.

Definition read_input_files_for_board (w : world) (config : config)
  (board_cfg : board_config) : M exn (DataFrame * DataFrame) :=
  let erpt_file := path_join (fold_path board_cfg) (errEntries_file_name board_cfg) in
  print ("读取故障处理表单: " +:+ erpt_file);;
  print ("Sheet页: " +:+ errEntries_file_sheet board_cfg);;
  logger_info ("读取故障处理表单: " +:+ erpt_file);;
  logger_info ("Sheet页: " +:+ errEntries_file_sheet board_cfg);;
  df_err_rpt ← read_excel w
    {| io := erpt_file; sheet_name := errEntries_file_sheet board_cfg;
       header := 2; skiprows := [3%nat]; usecols := None |};
  df_helf_input ← read_excel w
    {| io := helf_input_file config; sheet_name := subsys_sheet config;
       header := 2; skiprows := []; usecols := Some "L, AG" |};
  df_helf_input ← set_columns df_helf_input ["故障描述"; "故障码"];
  print ("读取完成: 故障表" +:+ len df_err_rpt +:+ "行");;
  logger_info ("读取完成: 故障表" +:+ len df_err_rpt +:+ "行, 对照表"
               +:+ len df_helf_input +:+ "行");;
  mret (df_err_rpt, df_helf_input).

(** The name of the column of generated identifiers. *)
Definition ident_column (pg_name module_code : string) : string :=
  pg_name +:+ "_ERPT_ACTIVE." +:+ module_code +:+ "_成员名称_器件_器件编号".

(** The name of the column of generated address expressions. *)
Definition addr_column (vp_prefix : string) : string :=
  vp_prefix +:+ "errRptInject[x][x][x]".

Definition zip_with3 {A B C D} (f : A → B → C → D)
  (l1 : list A) (l2 : list B) (l3 : list C) : list D :=
  zip_with (λ a bc, f a bc.1 bc.2) l1 (zip l2 l3).

Definition prepare_output_for_board (df_err_rpt : DataFrame) (config : config)
  (board_cfg : board_config) : M exn DataFrame :=
  let pg_name := pgName config in
  '(board_id, module_code) ← get_board_config board_cfg pg_name;
  vp_prefix ← get_vp_prefix pg_name;
  print ("板卡配置: " +:+ board_fold_name board_cfg +:+ ", boardId="
         +:+ py_str board_id +:+ ", 模块代码=" +:+ module_code);;
  print ("VP前缀: " +:+ vp_prefix);;
  logger_info ("板卡配置: board_fold_name='" +:+ board_fold_name board_cfg
               +:+ "', boardId=" +:+ py_str board_id +:+ ", 模块代码='"
               +:+ module_code +:+ "'");;
  logger_info ("VP前缀: " +:+ vp_prefix);;
  df_selected ← getitems df_err_rpt ["成员名称"; "器件"; "器件编号"];
  member ← getitem df_selected "成员名称";
  let df_selected :=
    setitem df_selected "成员名称" (of_strs (upper <$> astype_str member)) in
  member ← getitem df_selected "成员名称";
  component ← getitem df_selected "器件";
  component_index ← getitem df_selected "器件编号";
  let df_selected :=
    setitem df_selected (ident_column pg_name module_code)
      (of_strs (zip_with3
         (λ m c i, upper pg_name +:+ "_ERPT_ACTIVE." +:+ module_code +:+ "_"
                   +:+ m +:+ "_" +:+ c +:+ "_" +:+ i)
         (astype_str member) (astype_str component)
         (astype_str component_index))) in
  byte_col ← getitem df_err_rpt "Byte地址";
  byte_addr ← astype_int (fillna (VInt 0) byte_col);
  bit_col ← getitem df_err_rpt "bit位";
  bit_addr ← astype_int (fillna (VInt 0) bit_col);
  let df_selected :=
    setitem df_selected (addr_column vp_prefix)
      (of_strs (zip_with
         (λ byte bit, vp_prefix +:+ "errRptInject[" +:+ py_str board_id +:+ "]["
                      +:+ byte +:+ "][" +:+ bit +:+ "]")
         (str_int <$> byte_addr) (str_int <$> bit_addr))) in
  native ← getitem df_err_rpt "故障说明";
  let df_selected :=
    setitem df_selected "故障说明" (of_strs (re_sub_crlf <$> astype_str native)) in
  english ← getitem df_err_rpt "故障说明（英文）";
  let df_selected :=
    setitem df_selected "故障说明（英文）" (of_strs (astype_str english)) in
  let df_selected := setitem_scalar df_selected "故障码" (VStr "") in
  let df_selected :=
    setitem_scalar df_selected "板卡标识" (VStr (board_fold_name board_cfg)) in
  print ("板卡结构准备完成: " +:+ len df_selected +:+ "条记录");;
  logger_info ("板卡结构准备完成: " +:+ len df_selected +:+ "条记录");;
  mret df_selected.

(** The cleaning applied to a description before it is compared, written
    twice in the source (for the descriptions of the reference sheet and
    for those of the fault report):
    [re.sub(r'[^\w\s]', '', str(x).strip()).lower()]. *)
Definition normalize (s : string) : string :=
  lower (re_sub_nonword (strip s)).

(** The list [fault_mappings] built from the reference sheet. *)
Definition build_fault_mappings (descs codes : Series) : list (string * string) :=
  zip_with (λ eng_desc event_code, (normalize eng_desc, event_code))
    (astype_str descs) (astype_str codes).

(** The inner loop: the code of the first entry whose cleaned description
    equals the cleaned fault description or contains it, where the loop
    stores the code and breaks; [None] when the loop runs to its end. *)
Fixpoint scan_mappings (clean_fault_desc : string)
  (fault_mappings : list (string * string)) : option string :=
  match fault_mappings with
  | [] => None
  | (clean_helf_desc, event_code) :: rest =>
      if (clean_fault_desc =? clean_helf_desc)%string
         || contains clean_fault_desc clean_helf_desc
      then Some event_code
      else scan_mappings clean_fault_desc rest
  end.

(** The variables the outer loop assigns. *)
Record match_state := {
  cur_output : DataFrame;
  matched_count : Z;
  not_matched_count : Z
}.

(** One turn of the outer loop. *)
Definition match_row (fault_mappings : list (string * string))
  (board_cfg : board_config) (st : match_state) (item : nat * value)
  : M exn match_state :=
  let '(idx, fault_desc) := item in
  if isna fault_desc then mret st
  else
    let clean_fault_desc := normalize (py_str fault_desc) in
    match scan_mappings clean_fault_desc fault_mappings with
    | Some event_code =>
        logger_info ("匹配成功 - 板卡:" +:+ board_fold_name board_cfg
                     +:+ " - 故障描述:'" +:+ py_str fault_desc
                     +:+ "' -> 故障码:'" +:+ event_code +:+ "'");;
        mret {| cur_output := at_set (cur_output st) idx "故障码" (VStr event_code);
                matched_count := matched_count st + 1;
                not_matched_count := not_matched_count st |}
    | None =>
        logger_warning ("匹配失败 - 板卡:" +:+ board_fold_name board_cfg
                        +:+ " - 故障描述:'" +:+ py_str fault_desc +:+ "'");;
        mret {| cur_output := cur_output st;
                matched_count := matched_count st;
                not_matched_count := not_matched_count st + 1 |}
    end.

(** The loops of [add_fault_codes_for_board], with the counters. *)
Definition match_all (df_output df_err_rpt df_helf_input : DataFrame)
  (board_cfg : board_config) : M exn match_state :=
  print "开始故障码匹配...";;
  logger_info "开始故障码匹配...";;
  descs ← getitem df_helf_input "故障描述";
  codes ← getitem df_helf_input "故障码";
  let fault_mappings := build_fault_mappings descs codes in
  print ("故障码对照表条目数: " +:+ str_int (Z.of_nat (length fault_mappings)));;
  logger_info ("故障码对照表条目数: " +:+ str_int (Z.of_nat (length fault_mappings)));;
  english ← getitem df_err_rpt "故障说明（英文）";
  for_each (match_row fault_mappings board_cfg) (items english)
    {| cur_output := df_output; matched_count := 0; not_matched_count := 0 |}.

Definition add_fault_codes_for_board
  (df_output df_err_rpt df_helf_input : DataFrame) (board_cfg : board_config)
  : M exn DataFrame :=
  st ← match_all df_output df_err_rpt df_helf_input board_cfg;
  print ("故障码匹配完成: 成功 " +:+ str_int (matched_count st) +:+ ", 失败 "
         +:+ str_int (not_matched_count st));;
  logger_info ("故障码匹配完成: 成功 " +:+ str_int (matched_count st) +:+ ", 失败 "
               +:+ str_int (not_matched_count st));;
  mret (cur_output st).

(** The body of the [try] of [process_all_boards] up to the finished
    table of the board. *)
Definition process_board (w : world) (config : config)
  (board_cfg : board_config) : M exn DataFrame :=
  '(df_err_rpt, df_helf_input) ← read_input_files_for_board w config board_cfg;
  df_output ← prepare_output_for_board df_err_rpt config board_cfg;
  df_final ← add_fault_codes_for_board df_output df_err_rpt df_helf_input board_cfg;
  mret df_final.

(** One turn of the loop over the boards; the loop assigns [all_results]
    and [total_processed]. *)
Definition board_step (w : world) (config : config)
  (st : list DataFrame * Z) (item : nat * board_config)
  : M sys_exit (list DataFrame * Z) :=
  let '(all_results, total_processed) := st in
  let '(i, board_cfg) := item in
  print (str_repeat "-" 50);;
  print ("处理第" +:+ str_int (Z.of_nat i + 1) +:+ "个板卡: "
         +:+ board_fold_name board_cfg);;
  print (str_repeat "-" 50);;
  logger_info ("处理第" +:+ str_int (Z.of_nat i + 1) +:+ "个板卡: "
               +:+ board_fold_name board_cfg);;
  try_except
    (df_final ← process_board w config board_cfg;
     print ("板卡处理完成: " +:+ len df_final +:+ "条记录");;
     logger_info ("板卡处理完成: " +:+ len df_final +:+ "条记录");;
     mret (all_results ++ [df_final], total_processed + Z.of_nat (nrows df_final)))
    (λ e,
     let error_msg := "✗ 处理板卡 " +:+ board_fold_name board_cfg
                      +:+ " 时出错: " +:+ str_exn e in
     print error_msg;;
     logger_error error_msg;;
     mret (all_results, total_processed)).

Definition process_all_boards (w : world) (config : config)
  : M sys_exit DataFrame :=
  let pg_name := pgName config in
  let n := str_int (Z.of_nat (length (paraInfoList config))) in
  print (str_repeat "=" 60);;
  print ("处理PG: " +:+ pg_name);;
  print ("共" +:+ n +:+ "个板卡配置");;
  print (str_repeat "=" 60);;
  logger_info ("开始处理PG: " +:+ pg_name);;
  logger_info ("共" +:+ n +:+ "个板卡配置");;
  '(all_results, total_processed) ←
    for_each (board_step w config) (enumerate (paraInfoList config)) ([], 0);
  if bool_decide (all_results ≠ []) then
    let final_df := pd_concat all_results in
    print (str_repeat "=" 60);;
    print ("所有板卡处理完成，共合并" +:+ len final_df +:+ "条记录");;
    print (str_repeat "=" 60);;
    logger_info ("所有板卡处理完成，共合并" +:+ len final_df +:+ "条记录");;
    mret final_df
  else
    let error_msg := "没有成功处理任何板卡" in
    print (str_repeat "=" 60);;
    print error_msg;;
    print (str_repeat "=" 60);;
    logger_error error_msg;;
    raise (SystemExit 1).

(** The patterns [output_cols] of [save_results]. *)
Definition output_cols (pg_name vp_prefix : string) : list string :=
  [ pg_name +:+ "_ERPT_ACTIVE.*_成员名称_器件_器件编号";
    vp_prefix +:+ "errRptInject[x][x][x]";
    "故障说明";
    "故障码";
    "故障说明（英文）" ].

(** The columns [actual_cols] handed to [to_csv]. *)
Definition actual_cols (df_columns : list string) (pg_name vp_prefix : string)
  : list string :=
  let selected :=
    filter (λ col, existsb (λ pattern, contains (remove_stars pattern) col)
                     (output_cols pg_name vp_prefix) = true) df_columns in
  dedup (selected ++ ["故障说明"; "故障码"; "故障说明（英文）"]).

(** [df.to_csv(path, index=False, columns=cs, encoding='utf-8-sig')]. *)
Definition to_csv (df : DataFrame) (path : string) (cs : list string) : M exn unit :=
  match not_in_index df cs with
  | Some e => raise e
  | None => emit (ToCsv path cs (rows_of df cs))
  end.

(** [save_results], up to the statistics of the whole table.  The lines
    after them only add the number of records per board to the log. *)
Definition save_results (df : DataFrame) (config : config) : M exn unit :=
  let output_path := path_join (output_dir config) (output_filename config) in
  let pg_name := pgName config in
  vp_prefix ← get_vp_prefix pg_name;
  let actual_cols := actual_cols (columns df) pg_name vp_prefix in
  to_csv df output_path actual_cols;;
  let total := Z.of_nat (nrows df) in
  codes ← getitem df "故障码";
  let with_fault_code :=
    Z.of_nat (length (filter (λ v, v ≠ VStr "") codes)) in
  print ("结果已保存: " +:+ output_path);;
  print ("生成统计: 总记录" +:+ str_int total +:+ "条, 含故障码"
         +:+ str_int with_fault_code +:+ "条, 缺失"
         +:+ str_int (total - with_fault_code) +:+ "条");;
  logger_info ("结果已保存: " +:+ output_path);;
  logger_info ("生成统计: 总记录" +:+ str_int total +:+ "条, 含故障码"
               +:+ str_int with_fault_code +:+ "条, 缺失"
               +:+ str_int (total - with_fault_code) +:+ "条").

(** How a run ends. *)
Inductive termination :=
  | Completed
  | Exited (code : Z)
  | Uncaught (e : exn).

(** [main] once the configuration is loaded and the logger is set up:
    all boards, then the output file. *)
Definition main (w : world) (config_path log_path : string) (config : config)
  : list event * termination :=
  let start := [Log INFO ("开始处理，配置文件: " +:+ config_path)] in
  match process_all_boards w config with
  | (out, Raise (SystemExit code)) => (start ++ out, Exited code)
  | (out, Return final_df) =>
      match save_results final_df config with
      | (out', Raise e) => (start ++ out ++ out', Uncaught e)
      | (out', Return _) =>
          (start ++ out ++ out'
             ++ [Log INFO "所有板卡处理完成";
                 Print (String "010" ("处理完成！日志文件: " +:+ log_path))],
           Completed)
      end
  end.

(** The tables written by a run. *)
Definition written (evs : list event) : list (list string * list (list value)) :=
  omap (λ ev, match ev with ToCsv _ h r => Some (h, r) | _ => None end) evs.

(* ================================================================== *)
(** * The specification's vocabulary *)

(** The normalizer in the words of the specification: remove every
    character that is neither alphanumeric nor whitespace, lowercase the
    result, trim leading and trailing whitespace. *)
Definition normalize_spec (s : string) : string :=
  strip (lower (str_filter (λ c, isalnum c || isspace c) s)).

Fixpoint str_forall (p : ascii → bool) (s : string) : bool :=
  match s with
  | EmptyString => true
  | String c s' => p c && str_forall p s'
  end.

Definition no_underscore (s : string) : bool :=
  str_forall (λ c, negb (code c =? 95)%N) s.

(** A string with no whitespace at either end. *)
Definition trimmed (s : string) : Prop := strip s = s.

(** The lookup entries built from the reference table of a board. *)
Definition fault_mappings_of (df_helf_input : DataFrame) : list (string * string) :=
  match lookup_col "故障描述" (cols df_helf_input),
        lookup_col "故障码" (cols df_helf_input) with
  | Some descs, Some codes => build_fault_mappings descs codes
  | _, _ => []
  end.

(** The prefix [get_vp_prefix] returns. *)
Definition vp_prefix_of (pg_name : string) : string :=
  match simulator_vp_prefix_dict !! pg_name with
  | Some vp_prefix => if is_empty vp_prefix then default_vp_prefix else vp_prefix
  | None => default_vp_prefix
  end.

(** The code the matcher finds for a cell of the English column, if any. *)
Definition matched_code (fault_mappings : list (string * string)) (v : value)
  : option string :=
  if isna v then None else scan_mappings (normalize (py_str v)) fault_mappings.

(** The fault-code column [col] after the outer loop has gone through the
    cells [l], the first of which has label [i]. *)
Fixpoint assign_codes (fault_mappings : list (string * string)) (i : nat)
  (l : list value) (col : Series) : Series :=
  match l with
  | [] => col
  | v :: l' =>
      assign_codes fault_mappings (S i) l'
        (match matched_code fault_mappings v with
         | Some event_code => <[i := VStr event_code]> col
         | None => col
         end)
  end.

Fixpoint last_char (s : string) : option ascii :=
  match s with
  | EmptyString => None
  | String c EmptyString => Some c
  | String _ s' => last_char s'
  end.

(** The address expression of a record. *)
Definition address (vp_prefix : string) (board_id : value) (byte bit : Z) : string :=
  vp_prefix +:+ "errRptInject[" +:+ py_str board_id +:+ "]["
    +:+ str_int byte +:+ "][" +:+ str_int bit +:+ "]".

(** [t] is the integer part of the float of sign [s], mantissa [m] and
    exponent [e], whose value is [m * 2^e], negated when [s] holds: [t]
    has the sign of the float, and its magnitude is the largest integer
    that does not exceed [m * 2^e].  Both sides of the comparison are
    scaled so that no power of two is negative. *)
Definition integer_part (s : bool) (m : positive) (e t : Z) : Prop :=
  (if s then t ≤ 0 else 0 ≤ t)
  ∧ Z.abs t * 2 ^ Z.max 0 (- e) ≤ Zpos m * 2 ^ Z.max 0 e
  ∧ Zpos m * 2 ^ Z.max 0 e < (Z.abs t + 1) * 2 ^ Z.max 0 (- e).

(** What the integer [z] rendered for an offset cell [v] has to be: zero
    for a missing cell and for a zero; the integer itself for an integer
    that a float holds exactly; the integer part of a finite float when
    that fits 64 bits; the integer a text spells in decimal.  An infinite
    offset is never rendered. *)
Definition rendered_offset (v : value) (z : Z) : Prop :=
  match v with
  | VInt n => Z.abs n ≤ 2 ^ 53 → z = n
  | VFloat S754_nan => z = 0
  | VFloat (S754_zero _) => z = 0
  | VFloat (S754_finite s m e) =>
      ∀ t, integer_part s m e t → in_int64 t = true → z = t
  | VFloat (S754_infinity _) => False
  | VStr s => ∀ n, s = str_int n → in_int64 n = true → z = n
  end.

(** The cell of row [i] in column [c]. *)
Definition cell (df : DataFrame) (c : string) (i : nat) : option value :=
  s ← lookup_col c (cols df); s !! i.

(** The finished tables of the boards whose processing raises nothing, in
    the order of the configuration. *)
Definition succeeded (w : world) (config : config) : list DataFrame :=
  omap (λ board_cfg, result_value (process_board w config board_cfg))
    (paraInfoList config).

(** The reading of the reference sheet in [read_input_files_for_board],
    the same for every board. *)
Definition read_helf (w : world) (config : config) : M exn DataFrame :=
  df_helf_input ← read_excel w
    {| io := helf_input_file config; sheet_name := subsys_sheet config;
       header := 2; skiprows := []; usecols := Some "L, AG" |};
  set_columns df_helf_input ["故障描述"; "故障码"].

(** The lookup table built for the boards of a run. *)
Definition lookup_table (w : world) (config : config) : list (string * string) :=
  match result_value (read_helf w config) with
  | Some df_helf_input => fault_mappings_of df_helf_input
  | None => []
  end.

(** What the loop of [process_all_boards] prints and logs for one board. *)
Definition board_log (w : world) (config : config) (item : nat * board_config)
  : list event :=
  events (board_step w config ([], 0) item).

(** How the processing of a board ends in the output and in the log. *)
Definition board_outcome_log (w : world) (config : config)
  (board_cfg : board_config) : list event :=
  match result (process_board w config board_cfg) with
  | Return df_final =>
      [ Print ("板卡处理完成: " +:+ len df_final +:+ "条记录");
        Log INFO ("板卡处理完成: " +:+ len df_final +:+ "条记录") ]
  | Raise e =>
      let error_msg := "✗ 处理板卡 " +:+ board_fold_name board_cfg
                       +:+ " 时出错: " +:+ str_exn e in
      [ Print error_msg; Log ERROR error_msg ]
  end.

(** The messages of the log at one level. *)
Definition logged (lv : level) (evs : list event) : list string :=
  omap (λ ev, match ev with
              | Log lv' msg => if bool_decide (lv' = lv) then Some msg else None
              | _ => None
              end) evs.

(** All messages of the log. *)
Definition log_messages (evs : list event) : list string :=
  omap (λ ev, match ev with Log _ msg => Some msg | _ => None end) evs.

(** A plain decimal integer: an optional minus sign, then either the
    single digit zero or digits that do not start with a zero. *)
Definition plain_digits (s : string) : bool :=
  match s with
  | EmptyString => false
  | String "0" EmptyString => true
  | String c s' => is_digit c && negb (code c =? 48)%N && str_forall is_digit s'
  end.

Definition plain_integer (s : string) : bool :=
  match s with
  | String "-" s' => plain_digits s' && negb (s' =? "0")%string
  | _ => plain_digits s
  end.

(** The columns of the output artifact as the specification lists them,
    for the identifier and address columns of a frame. *)
Definition spec_columns (ident addr : string) : list string :=
  [ident; addr; "故障说明"; "故障码"; "故障说明（英文）"].

(* ================================================================== *)
(** * A small installation

    One platform, one reference sheet of two faults, a board whose sheet has
    four records and a board whose file is missing.  The first byte offset
    is the float 5.0, that is 5629499534213120 * 2^-50. *)

Definition ex_erpt : DataFrame :=
  {| nrows := 4;
     cols :=
       [ ("成员名称", [VStr "abc"; VStr "Def"; VStr "ghi"; VStr "jkl"]);
         ("器件", [VStr "U1"; VStr "U2"; VStr "U3"; VStr "U4"]);
         ("器件编号", [VInt 1; VInt 2; VInt 3; VInt 4]);
         ("Byte地址", [VFloat (S754_finite false 5629499534213120 (-50)); nan;
                       VInt 1; VInt 2]);
         ("bit位", [VInt 3; VInt 7; VInt 0; VInt 1]);
         ("故障说明", [VStr "过压"; VStr "未知"; VStr "无"; VStr "空"]);
         ("故障说明（英文）",
            [VStr "Over Voltage!"; VStr "Unknown Event"; VStr "?!"; nan]) ] |}.

Definition ex_helf : DataFrame :=
  {| nrows := 2;
     cols := [ ("描述（英文）", [VStr "Over voltage."; VStr "Fan stalled"]);
               ("事件码", [VStr "E100"; VStr "E200"]) ] |}.

Definition ex_world : world :=
  λ q,
    if (io q =? "in/erpt.xlsx")%string then inr ex_erpt
    else if (io q =? "helf.xlsx")%string then inr ex_helf
    else inl (Exception "FileNotFoundError"
                ("[Errno 2] No such file or directory: " +:+ repr_str (io q))).

Definition ex_board : board_config :=
  {| board_fold_name := "board_pwr_1"; boardId := VInt 2; fold_path := "in";
     errEntries_file_name := "erpt.xlsx"; errEntries_file_sheet := "Sheet1" |}.

Definition ex_missing_board : board_config :=
  {| board_fold_name := "board_fan_2"; boardId := VInt 3; fold_path := "in";
     errEntries_file_name := "missing.xlsx"; errEntries_file_sheet := "Sheet1" |}.

Definition ex_config : config :=
  {| pgName := "RS"; paraInfoList := [ex_missing_board; ex_board];
     helf_input_file := "helf.xlsx"; subsys_sheet := "RS";
     output_dir := "out"; output_filename := "tdk.csv" |}.

(** The same installation under a platform name the table does not know. *)
Definition ex_unknown_config : config :=
  {| pgName := "XX"; paraInfoList := [ex_board];
     helf_input_file := "helf.xlsx"; subsys_sheet := "XX";
     output_dir := "out"; output_filename := "tdk.csv" |}.

(** The tables of the board as [read_input_files_for_board] returns them. *)
Definition ex_tables : DataFrame * DataFrame :=
  match result (read_input_files_for_board ex_world ex_config ex_board) with
  | Return tables => tables
  | Raise _ => ({| nrows := 0; cols := [] |}, {| nrows := 0; cols := [] |})
  end.

(** A reference table in which an entry that contains the description
    comes before the entry that equals it. *)
Definition ex_helf_overlap : DataFrame :=
  {| nrows := 2;
     cols := [ ("故障描述", [VStr "Over voltage on bus"; VStr "Over voltage"]);
               ("故障码", [VStr "E1"; VStr "E2"]) ] |}.

Definition ex_erpt_one : DataFrame :=
  {| nrows := 1;
     cols := [ ("故障说明（英文）", [VStr "over voltage"]) ] |}.

Definition ex_output_one : DataFrame :=
  {| nrows := 1;
     cols := [ ("故障说明（英文）", [VStr "over voltage"]); ("故障码", [VStr ""]) ] |}.

(* ================================================================== *)
(** * Further vocabulary: tables, matcher, header *)

(** The seven columns of a board's sheet that the program reads. *)
Definition required_columns : list string :=
  ["成员名称"; "器件"; "器件编号"; "Byte地址"; "bit位"; "故障说明"; "故障说明（英文）"].

(** The columns of the table of a board, in order. *)
Definition board_columns (pg_name module_code : string) : list string :=
  [ "成员名称"; "器件"; "器件编号"; ident_column pg_name module_code;
    addr_column (vp_prefix_of pg_name); "故障说明"; "故障说明（英文）"; "故障码";
    "板卡标识" ].

(** The generated identifier of a record. *)
Definition identifier (pg_name module_code : string) (member component index : value)
  : string :=
  upper pg_name +:+ "_ERPT_ACTIVE." +:+ module_code +:+ "_"
    +:+ upper (py_str member) +:+ "_" +:+ py_str component +:+ "_" +:+ py_str index.

#[global] Instance dtype_eq_dec : EqDecision dtype.
Proof. solve_decision. Defined.

Definition has_underscore (s : string) : bool :=
  negb (str_forall (λ c, negb (code c =? 95)%N) s).

(** The names of the table of a board that do not depend on the
    platform or on the module. *)
Definition fixed_columns : list string :=
  ["成员名称"; "器件"; "器件编号"; "故障说明"; "故障说明（英文）"; "故障码"; "板卡标识"].

(** The table [prepare_output_for_board] builds from the columns it reads
    and the integers of the two offset columns. *)
Definition prepared_frame (pg_name : string) (board_cfg : board_config)
  (module_code : string) (n : nat) (member component component_index : Series)
  (byte_addr bit_addr : list Z) (native english : Series) : DataFrame :=
  let vp_prefix := vp_prefix_of pg_name in
  let member_upper := of_strs (upper <$> astype_str member) in
  {| nrows := n;
     cols :=
       [ ("成员名称", member_upper);
         ("器件", component);
         ("器件编号", component_index);
         (ident_column pg_name module_code,
          of_strs (zip_with3
            (λ m c i, upper pg_name +:+ "_ERPT_ACTIVE." +:+ module_code +:+ "_"
                      +:+ m +:+ "_" +:+ c +:+ "_" +:+ i)
            (astype_str member_upper) (astype_str component)
            (astype_str component_index)));
         (addr_column vp_prefix,
          of_strs (zip_with (address vp_prefix (boardId board_cfg)) byte_addr bit_addr));
         ("故障说明", of_strs (re_sub_crlf <$> astype_str native));
         ("故障说明（英文）", of_strs (astype_str english));
         ("故障码", replicate n (VStr ""));
         ("板卡标识", replicate n (VStr (board_fold_name board_cfg))) ] |}.

(** What a successful [prepare_output_for_board] has read and built. *)
Definition prepared (df_err_rpt : DataFrame) (config : config) (b : board_config)
  (df_output : DataFrame) : Prop :=
  ∃ part member component component_index byte_col bit_col native english
    byte_addr bit_addr,
    split "_" (board_fold_name b) !! 1%nat = Some part
    ∧ lookup_col "成员名称" (cols df_err_rpt) = Some member
    ∧ lookup_col "器件" (cols df_err_rpt) = Some component
    ∧ lookup_col "器件编号" (cols df_err_rpt) = Some component_index
    ∧ lookup_col "Byte地址" (cols df_err_rpt) = Some byte_col
    ∧ result (astype_int (fillna (VInt 0) byte_col)) = Return byte_addr
    ∧ lookup_col "bit位" (cols df_err_rpt) = Some bit_col
    ∧ result (astype_int (fillna (VInt 0) bit_col)) = Return bit_addr
    ∧ lookup_col "故障说明" (cols df_err_rpt) = Some native
    ∧ lookup_col "故障说明（英文）" (cols df_err_rpt) = Some english
    ∧ df_output = prepared_frame (pgName config) b (upper part) (nrows df_err_rpt)
                    member component component_index byte_addr bit_addr native english.


(** An offset cell that [astype(int)] converts in a column of dtype [dt]. *)
Definition offset_converts (dt : dtype) (v : value) : bool :=
  match v with
  | VInt z => in_int64 z || bool_decide (dt = uint64)
  | VFloat f =>
      match float_trunc f with
      | Some z => in_int64 z || bool_decide (dt = float64)
      | None => false
      end
  | VStr s =>
      match int_of_str s with
      | Some z => in_int64 z
      | None => false
      end
  end.

(** An offset column all of whose cells convert, the missing ones as 0. *)
Definition offsets_convert (col : Series) : bool :=
  let filled := fillna (VInt 0) col in
  forallb (offset_converts (dtype_of filled)) filled.

Definition is_return {E A} (m : M E A) : Prop := ∃ a, result m = Return a.

(** The records the matcher counts as successes and as failures. *)
Definition is_success (fault_mappings : list (string * string)) (v : value) : bool :=
  match matched_code fault_mappings v with Some _ => true | None => false end.

Definition is_failure (fault_mappings : list (string * string)) (v : value) : bool :=
  negb (isna v) && negb (is_success fault_mappings v).

Definition successes (fault_mappings : list (string * string)) (english : Series) : Z :=
  Z.of_nat (length (List.filter (is_success fault_mappings) english)).

Definition failures (fault_mappings : list (string * string)) (english : Series) : Z :=
  Z.of_nat (length (List.filter (is_failure fault_mappings) english)).

Definition present (english : Series) : Z :=
  Z.of_nat (length (List.filter (λ v, negb (isna v)) english)).

(** What the outer loop of the matcher logs for one description. *)
Definition row_log (fault_mappings : list (string * string))
  (board_cfg : board_config) (fault_desc : value) : list event :=
  if isna fault_desc then []
  else match scan_mappings (normalize (py_str fault_desc)) fault_mappings with
       | Some event_code =>
           [Log INFO ("匹配成功 - 板卡:" +:+ board_fold_name board_cfg
                      +:+ " - 故障描述:'" +:+ py_str fault_desc
                      +:+ "' -> 故障码:'" +:+ event_code +:+ "'")]
       | None =>
           [Log WARNING ("匹配失败 - 板卡:" +:+ board_fold_name board_cfg
                         +:+ " - 故障描述:'" +:+ py_str fault_desc +:+ "'")]
       end.

(** A text of ASCII characters only. *)
Definition is_ascii (s : string) : bool :=
  str_forall (λ c, (code c <? 128)%N) s.

(** An offset column of ordinary cells: integers of 64 bits, floats,
    missing cells and ASCII texts of at most 4300 characters, the number
    of digits [int] reads without a word. *)
Definition offsets_ordinary (col : Series) : bool :=
  forallb (λ v, match v with
                | VInt z => in_int64 z
                | VFloat _ => true
                | VStr s => is_ascii s && (String.length s <=? 4300)%nat
                end) col.

(** The two queries of [read_input_files_for_board]. *)
Definition erpt_query (board_cfg : board_config) : excel_query :=
  {| io := path_join (fold_path board_cfg) (errEntries_file_name board_cfg);
     sheet_name := errEntries_file_sheet board_cfg;
     header := 2; skiprows := [3%nat]; usecols := None |}.

Definition helf_query (config : config) : excel_query :=
  {| io := helf_input_file config; sheet_name := subsys_sheet config;
     header := 2; skiprows := []; usecols := Some "L, AG" |}.

(** A sheet as pandas holds it once read. *)
Definition stored (df : DataFrame) : DataFrame :=
  {| nrows := nrows df; cols := prod_map id as_stored <$> cols df |}.

(** Whether [save_results] selects a column of the table: one of the
    patterns, its stars removed, occurs in the name. *)
Definition selected (pg_name vp_prefix col : string) : bool :=
  existsb (λ pattern, contains (remove_stars pattern) col)
    (output_cols pg_name vp_prefix).

(** An ASCII letter or digit. *)
Definition plain_char (c : ascii) : bool :=
  is_digit c || between 65 90 (code c) || between 97 122 (code c).

(** A text of ASCII letters and digits only. *)
Definition plain (s : string) : bool := str_forall plain_char s.

(** The module codes of the boards of a configuration. *)
Definition module_codes (config : config) : list string :=
  omap (λ b, upper <$> split "_" (board_fold_name b) !! 1%nat) (paraInfoList config).

(** No full stop of [s] is followed by an underscore; [prev] tells
    whether a full stop comes just before [s]. *)
Fixpoint no_dot_underscore (prev : bool) (s : string) : bool :=
  match s with
  | EmptyString => true
  | String c s' =>
      negb (prev && (code c =? 95)%N) && no_dot_underscore (code c =? 46)%N s'
  end.

(** Whether a full stop comes just before the end of [s]. *)
Fixpoint dot_state (prev : bool) (s : string) : bool :=
  match s with
  | EmptyString => prev
  | String c s' => dot_state (code c =? 46)%N s'
  end.

(** The fault codes of a column that are, and are not, the empty text. *)
Definition with_code (codes : Series) : Z :=
  Z.of_nat (length (filter (λ v, v ≠ VStr "") codes)).

Definition without_code (codes : Series) : Z :=
  Z.of_nat (length (filter (λ v, v = VStr "") codes)).

(** The tags of the records of the boards that succeed, board after board
    in the order of the configuration. *)
Definition board_tags (w : world) (config : config) : Series :=
  mjoin (omap (λ b, (λ df, replicate (nrows df) (VStr (board_fold_name b)))
                      <$> result_value (process_board w config b))
           (paraInfoList config)).

(* ================================================================== *)
(** * Facts about Python text *)

Section Characters.

(** A fact about all 256 characters, by enumeration. *)
Ltac by_cases c := destruct c as [[] [] [] [] [] [] [] []]; reflexivity.

Lemma lower_char_idem c : lower_char (lower_char c) = lower_char c.
Proof. by_cases c. Qed.

Lemma isspace_lower_char c : isspace (lower_char c) = isspace c.
Proof. by_cases c. Qed.

Lemma isword_lower_char c : isword (lower_char c) = isword c.
Proof. by_cases c. Qed.

Lemma isalnum_isword c :
  negb (code c =? 95)%N = true → isword c = isalnum c.
Proof. destruct c as [[] [] [] [] [] [] [] []]; (reflexivity || discriminate). Qed.

End Characters.

Section Strings.

Implicit Types (s t : string) (p : ascii → bool) (f : ascii → ascii).

Lemma str_map_map f s : (∀ c, f (f c) = f c) → str_map f (str_map f s) = str_map f s.
Proof. intros Hf. induction s as [|c s IH]; simpl; [done|]. by rewrite Hf, IH. Qed.

Lemma str_filter_map p f s :
  (∀ c, p (f c) = p c) → str_filter p (str_map f s) = str_map f (str_filter p s).
Proof.
  intros Hf. induction s as [|c s IH]; simpl; [done|].
  rewrite Hf. destruct (p c); simpl; by rewrite IH.
Qed.

Lemma is_empty_map f s : is_empty (str_map f s) = is_empty s.
Proof. by destruct s. Qed.

Lemma lstrip_map f s :
  (∀ c, isspace (f c) = isspace c) → lstrip (str_map f s) = str_map f (lstrip s).
Proof.
  intros Hf. induction s as [|c s IH]; simpl; [done|].
  rewrite Hf. by destruct (isspace c).
Qed.

Lemma rstrip_map f s :
  (∀ c, isspace (f c) = isspace c) → rstrip (str_map f s) = str_map f (rstrip s).
Proof.
  intros Hf. induction s as [|c s IH]; simpl; [done|].
  rewrite Hf, IH, is_empty_map. by destruct (isspace c && is_empty (rstrip s)).
Qed.

Lemma strip_map f s :
  (∀ c, isspace (f c) = isspace c) → strip (str_map f s) = str_map f (strip s).
Proof. intros Hf. unfold strip. by rewrite lstrip_map, rstrip_map. Qed.

Lemma lstrip_head s c t : lstrip s = String c t → isspace c = false.
Proof.
  induction s as [|c' s IH]; simpl; [done|].
  destruct (isspace c') eqn:Hc; [done|]. by intros [= <- _].
Qed.

Lemma lstrip_rstrip s : lstrip (rstrip s) = rstrip (lstrip s).
Proof.
  induction s as [|c s IH]; simpl; [done|].
  destruct (isspace c) eqn:Hc; simpl.
  - rewrite <- IH. destruct (rstrip s) eqn:Hr; simpl; [done|]. by rewrite Hc.
  - by rewrite Hc.
Qed.

Lemma rstrip_idem s : rstrip (rstrip s) = rstrip s.
Proof.
  induction s as [|c s IH]; simpl; [done|].
  destruct (isspace c && is_empty (rstrip s)) eqn:Hc; simpl; [done|].
  by rewrite IH, Hc.
Qed.

Lemma lstrip_idem s : lstrip (lstrip s) = lstrip s.
Proof.
  induction s as [|c s IH]; simpl; [done|].
  destruct (isspace c) eqn:Hc; simpl; [done|]. by rewrite Hc.
Qed.

Lemma strip_idem s : strip (strip s) = strip s.
Proof.
  unfold strip. by rewrite lstrip_rstrip, lstrip_idem, rstrip_idem.
Qed.

(** Filtering with a class that holds all whitespace does not disturb
    what a later trim removes. *)
Lemma lstrip_filter_lstrip p s :
  (∀ c, isspace c = true → p c = true) →
  lstrip (str_filter p (lstrip s)) = lstrip (str_filter p s).
Proof.
  intros Hp. induction s as [|c s IH]; simpl; [done|].
  destruct (isspace c) eqn:Hc; [|done].
  rewrite (Hp c Hc). simpl. by rewrite Hc.
Qed.

Lemma rstrip_filter_rstrip p s :
  (∀ c, isspace c = true → p c = true) →
  rstrip (str_filter p (rstrip s)) = rstrip (str_filter p s).
Proof.
  intros Hp. induction s as [|c s IH]; simpl; [done|].
  destruct (isspace c) eqn:Hc; simpl.
  - rewrite (Hp c Hc). simpl. rewrite Hc. simpl.
    destruct (is_empty (rstrip s)) eqn:He; simpl.
    + rewrite <- IH. by destruct (rstrip s).
    + rewrite (Hp c Hc). simpl. by rewrite Hc, IH.
  - destruct (p c); simpl; by rewrite ?Hc, IH.
Qed.

Lemma strip_filter_strip p s :
  (∀ c, isspace c = true → p c = true) →
  strip (str_filter p (strip s)) = strip (str_filter p s).
Proof.
  intros Hp. unfold strip.
  rewrite <- (lstrip_rstrip (str_filter p (rstrip (lstrip s)))).
  rewrite rstrip_filter_rstrip by done.
  by rewrite lstrip_rstrip, lstrip_filter_lstrip.
Qed.

Lemma str_forall_filter p s : str_forall p (str_filter p s) = true.
Proof.
  induction s as [|c s IH]; simpl; [done|].
  destruct (p c) eqn:Hc; simpl; by rewrite ?Hc.
Qed.

Lemma str_filter_id p s : str_forall p s = true → str_filter p s = s.
Proof.
  induction s as [|c s IH]; simpl; [done|].
  intros [Hc Hs]%andb_prop. by rewrite Hc, IH.
Qed.

Lemma str_forall_lstrip p s : str_forall p s = true → str_forall p (lstrip s) = true.
Proof.
  induction s as [|c s IH]; simpl; [done|].
  intros H. destruct (andb_prop _ _ H) as [Hc Hs].
  destruct (isspace c); [by apply IH | done].
Qed.

Lemma str_forall_rstrip p s : str_forall p s = true → str_forall p (rstrip s) = true.
Proof.
  induction s as [|c s IH]; simpl; [done|].
  intros [Hc Hs]%andb_prop.
  destruct (isspace c && is_empty (rstrip s)); simpl; [done|].
  by rewrite Hc, IH.
Qed.

Lemma str_forall_strip p s : str_forall p s = true → str_forall p (strip s) = true.
Proof. intros H. by apply str_forall_rstrip, str_forall_lstrip. Qed.

Lemma str_filter_ext p q s :
  str_forall (λ c, bool_decide (p c = q c)) s = true → str_filter p s = str_filter q s.
Proof.
  induction s as [|c s IH]; simpl; [done|].
  intros [Hc Hs]%andb_prop. apply bool_decide_eq_true in Hc.
  by rewrite Hc, IH.
Qed.

Lemma str_forall_impl p q s :
  (∀ c, p c = true → q c = true) → str_forall p s = true → str_forall q s = true.
Proof.
  intros Hpq. induction s as [|c s IH]; simpl; [done|].
  intros [Hc Hs]%andb_prop. by rewrite (Hpq c Hc), IH.
Qed.

Lemma str_forall_map p f s :
  str_forall p (str_map f s) = str_forall (λ c, p (f c)) s.
Proof. induction s as [|c s IH]; simpl; [done|]. by rewrite IH. Qed.

Lemma str_filter_empty p s :
  str_filter p s = "" ↔ str_forall (λ c, negb (p c)) s = true.
Proof.
  induction s as [|c s IH]; cbn [str_filter str_forall]; [done|].
  destruct (p c); cbn [negb andb]; [done|]. exact IH.
Qed.

Lemma str_filter_filter p q s :
  str_filter p (str_filter q s) = str_filter (λ c, q c && p c) s.
Proof.
  induction s as [|c s IH]; cbn [str_filter]; [done|].
  destruct (q c); cbn [str_filter andb]; by rewrite IH.
Qed.

Lemma str_filter_pointwise p q s :
  (∀ c, p c = q c) → str_filter p s = str_filter q s.
Proof.
  intros Hpq. induction s as [|c s IH]; cbn [str_filter]; [done|].
  by rewrite Hpq, IH.
Qed.

(** A filter that keeps no whitespace does not see the trimming. *)
Lemma str_filter_lstrip p s :
  (∀ c, isspace c = true → p c = false) → str_filter p (lstrip s) = str_filter p s.
Proof.
  intros Hp. induction s as [|c s IH]; cbn [lstrip str_filter]; [done|].
  destruct (isspace c) eqn:Hc; [|done]. by rewrite (Hp c Hc).
Qed.

Lemma str_filter_rstrip p s :
  (∀ c, isspace c = true → p c = false) → str_filter p (rstrip s) = str_filter p s.
Proof.
  intros Hp. induction s as [|c s IH]; cbn [rstrip str_filter]; [done|].
  destruct (isspace c) eqn:Hc; cbn [andb].
  - rewrite (Hp c Hc). destruct (rstrip s) eqn:Hr; cbn [is_empty]; [done|].
    cbn [str_filter]. by rewrite (Hp c Hc).
  - cbn [str_filter]. by rewrite IH.
Qed.

Lemma str_filter_strip p s :
  (∀ c, isspace c = true → p c = false) → str_filter p (strip s) = str_filter p s.
Proof.
  intros Hp. unfold strip. by rewrite str_filter_rstrip, str_filter_lstrip.
Qed.

(** A filter whose characters a map leaves alone does not see the map. *)
Lemma str_filter_fixed p f s :
  (∀ c, p (f c) = p c) → (∀ c, p c = true → f c = c) →
  str_filter p (str_map f s) = str_filter p s.
Proof.
  intros Hp Hf. induction s as [|c s IH]; cbn [str_map str_filter]; [done|].
  rewrite Hp, IH. destruct (p c) eqn:Hc; [|done]. by rewrite (Hf c Hc).
Qed.

End Strings.

Section Normalizer.

Let keep (c : ascii) : bool := isword c || isspace c.

Lemma keep_lower_char c : keep (lower_char c) = keep c.
Proof. unfold keep. by rewrite isword_lower_char, isspace_lower_char. Qed.

Lemma keep_isspace c : isspace c = true → keep c = true.
Proof. unfold keep. intros ->. by destruct (isword c). Qed.

(** The normalizer, with the trim moved last. *)
Lemma normalize_strip s : normalize s = lower (re_sub_nonword (strip s)).
Proof. reflexivity. Qed.

Lemma strip_normalize s : strip (normalize s) = strip (lower (re_sub_nonword s)).
Proof.
  unfold normalize, lower, re_sub_nonword.
  rewrite !strip_map by apply isspace_lower_char.
  by rewrite strip_filter_strip by apply keep_isspace.
Qed.

Lemma normalize_kept s : str_forall keep (normalize s) = true.
Proof.
  unfold normalize, lower, re_sub_nonword. fold keep.
  rewrite <- str_filter_map by apply keep_lower_char.
  apply str_forall_filter.
Qed.

Lemma normalize_twice s : normalize (normalize s) = strip (normalize s).
Proof.
  unfold normalize at 1. unfold re_sub_nonword. fold keep.
  rewrite str_filter_id by apply str_forall_strip, normalize_kept.
  unfold normalize, lower.
  rewrite strip_map by apply isspace_lower_char.
  apply str_map_map, lower_char_idem.
Qed.

End Normalizer.

Section NormalizerClaims.

Implicit Types (s : string).

Let underscore (c : ascii) : bool := (code c =? 95)%N.

Lemma underscore_cases c :
  underscore (lower_char c) = underscore c
  ∧ (underscore c = true → lower_char c = c)
  ∧ (underscore c = true → isword c || isspace c = true)
  ∧ (isspace c = true → underscore c = false)
  ∧ negb (underscore c) && (isword c || isspace c) = isalnum c || isspace c.
Proof. destruct c as [[] [] [] [] [] [] [] []]; by vm_compute. Qed.

(** The normalizer keeps every underscore, where it stands among the
    underscores. *)
Lemma normalize_underscores s :
  str_filter underscore (normalize s) = str_filter underscore s.
Proof.
  unfold normalize, lower, re_sub_nonword.
  rewrite str_filter_fixed by (intros c; by apply underscore_cases).
  rewrite str_filter_filter.
  rewrite (str_filter_pointwise _ underscore).
  - apply str_filter_strip. intros c. apply underscore_cases.
  - intros c. destruct (underscore c) eqn:Hc; [|by rewrite andb_false_r].
    by rewrite (proj1 (proj2 (proj2 (underscore_cases c))) Hc).
Qed.

(** Remove, lowercase, trim is the normalizer on the text without its
    underscores, trimmed once more. *)
Lemma normalize_spec_normalize s :
  normalize_spec s = strip (normalize (str_filter (λ c, negb (underscore c)) s)).
Proof.
  rewrite strip_normalize. unfold normalize_spec, re_sub_nonword.
  rewrite str_filter_filter. do 2 f_equal. symmetry.
  apply str_filter_pointwise. intros c. apply underscore_cases.
Qed.

Lemma normalize_spec_strip s :
  no_underscore s = true → strip (normalize s) = normalize_spec s.
Proof.
  intros Hs. rewrite normalize_spec_normalize. by rewrite str_filter_id.
Qed.

Lemma normalize_spec_no_underscore s :
  str_filter underscore (normalize_spec s) = "".
Proof.
  rewrite normalize_spec_normalize.
  rewrite str_filter_strip by (intros c; apply underscore_cases).
  rewrite normalize_underscores, str_filter_filter.
  apply str_filter_empty. clear. induction s as [|c s IH]; [done|].
  cbn [str_forall]. rewrite IH. by destruct (underscore c).
Qed.

(** The normalizer and remove, lowercase, trim agree exactly on the texts
    without underscore whose normal form has no whitespace at either
    end. *)
Lemma normalize_agrees_iff s :
  normalize s = normalize_spec s ↔ no_underscore s = true ∧ trimmed (normalize s).
Proof.
  split.
  - intros Heq.
    assert (no_underscore s = true) as Hs.
    { apply (f_equal (str_filter underscore)) in Heq.
      rewrite normalize_underscores, normalize_spec_no_underscore in Heq.
      apply str_filter_empty in Heq. exact Heq. }
    split; [done|]. unfold trimmed.
    rewrite (normalize_spec_strip s Hs). by symmetry.
  - intros [Hs Ht]. unfold trimmed in Ht. rewrite <- Ht at 1.
    by apply normalize_spec_strip.
Qed.

(** C4, as stated: the normalizer is remove, lowercase, trim.  It is not:
    the source trims first, so whitespace that the removal exposes at an
    end stays, and [\w] keeps the underscore. *)
Lemma normalize_spec_counterexample :
  normalize "! a" = " a" ∧ normalize_spec "! a" = "a"
  ∧ normalize "a_b" = "a_b" ∧ normalize_spec "a_b" = "ab".
Proof. repeat split; reflexivity. Qed.

(** C4, amended: on every text, the normalizer trims, then removes every
    character that is neither alphanumeric, nor the underscore, nor a
    whitespace, then lowercases.  Every underscore of the text is kept.
    Remove, lowercase, trim gives the trimmed normal form of the text
    without its underscores, so the two agree exactly when the text has
    no underscore and its normal form has no whitespace at either end.
    The reference descriptions and the fault descriptions are cleaned by
    this one function. *)
Theorem normalize_amended s :
  normalize s
  = str_map lower_char
      (str_filter (λ c, isalnum c || (code c =? 95)%N || isspace c) (strip s))
  ∧ str_filter (λ c, (code c =? 95)%N) (normalize s)
    = str_filter (λ c, (code c =? 95)%N) s
  ∧ normalize_spec s
    = strip (normalize (str_filter (λ c, negb (code c =? 95)%N) s))
  ∧ (normalize s = normalize_spec s ↔ no_underscore s = true ∧ trimmed (normalize s))
  ∧ (∀ descs codes e, e ∈ build_fault_mappings descs codes →
       ∃ d, d ∈ descs ∧ e.1 = normalize (py_str d))
  ∧ (∀ fault_mappings b st idx D, isna D = false →
       ∃ st',
         result (match_row fault_mappings b st (idx, D)) = Return st'
         ∧ (matched_count st' = matched_count st + 1
            ↔ is_Some (scan_mappings (normalize (py_str D)) fault_mappings))).
Proof.
  split; [reflexivity|]. split; [apply normalize_underscores|].
  split; [apply normalize_spec_normalize|]. split; [apply normalize_agrees_iff|].
  split.
  - intros descs codes e. unfold build_fault_mappings, astype_str.
    intros (d & c & -> & Hd & Hc)%elem_of_zip_with.
    apply list_elem_of_fmap in Hd as (v & -> & Hv). by exists v.
  - intros fm b st idx D Hna. unfold match_row. rewrite Hna.
    destruct (scan_mappings _ fm) as [code|]; eexists; (split; [reflexivity|]);
      cbn [matched_count].
    + split; [by eexists|done].
    + split; [lia|by intros [? ?]].
Qed.

Lemma normalize_amended_witness :
  normalize "  Over_Voltage (A)!  " = "over_voltage a"
  ∧ normalize_spec "  Over_Voltage (A)!  " = "overvoltage a"
  ∧ normalize "  Over_Voltage (A)!  " ≠ normalize_spec "  Over_Voltage (A)!  ".
Proof.
  split; [reflexivity|]. split; [reflexivity|].
  intros Heq.
  apply (proj1 (proj1 (proj2 (proj2 (proj2
           (normalize_amended "  Over_Voltage (A)!  ")))))) in Heq as [Hs _].
  discriminate Hs.
Defined.

Lemma lower_char_ascii c : (code c <? 128)%N = true → (code (lower_char c) <? 128)%N = true.
Proof. destruct c as [[] [] [] [] [] [] [] []]; by vm_compute. Qed.

(** The normal form of an ASCII text is an ASCII text. *)
Lemma normalize_ascii s : is_ascii s = true → is_ascii (normalize s) = true.
Proof.
  unfold is_ascii, normalize, lower, re_sub_nonword. intros Hs.
  rewrite str_forall_map.
  apply (str_forall_impl (λ c, (code c <? 128)%N)); [apply lower_char_ascii|].
  assert (∀ p t, str_forall p t = true → str_forall p (str_filter (λ c, isword c || isspace c) t) = true)
    as Hfilter.
  { intros p t. induction t as [|c t IH]; cbn [str_filter str_forall]; [done|].
    intros [Hc Ht]%andb_prop. destruct (isword c || isspace c); [|by apply IH].
    cbn [str_forall]. by rewrite Hc, IH. }
  by apply Hfilter, str_forall_strip.
Qed.

(** C5, as stated: the normalizer is idempotent.  It is not. *)
Lemma normalize_idempotent_counterexample :
  normalize (normalize "! a") ≠ normalize "! a".
Proof. discriminate. Qed.

(** C5, amended: on an ASCII text, normalizing a normalized string only
    trims it.  The normal form is again an ASCII text; it comes back
    unchanged exactly when it has no whitespace at either end, and a third
    pass changes nothing. *)
Theorem normalize_twice_trims s :
  is_ascii s = true →
  is_ascii (normalize s) = true
  ∧ normalize (normalize s) = strip (normalize s)
  ∧ (normalize (normalize s) = normalize s ↔ trimmed (normalize s))
  ∧ normalize (normalize (normalize s)) = normalize (normalize s).
Proof.
  intros Hs. split; [by apply normalize_ascii|].
  split; [apply normalize_twice|]. split.
  - unfold trimmed. by rewrite normalize_twice.
  - by rewrite !normalize_twice, strip_idem.
Qed.

Lemma normalize_twice_witness :
  normalize (normalize "! a") = "a" ∧ strip (normalize "! a") = "a"
  ∧ normalize (normalize "Over-Voltage (A)") = normalize "Over-Voltage (A)".
Proof.
  split; [reflexivity|]. split; [reflexivity|].
  apply (proj1 (proj2 (proj2 (normalize_twice_trims "Over-Voltage (A)" eq_refl)))).
  reflexivity.
Defined.

End NormalizerClaims.

(* ================================================================== *)
(** * Facts about effects *)

Section Effects.

Context {E : Type}.

Lemma result_bind {A B} (m : M E A) (f : A → M E B) :
  result (m ≫= f) =
    match result m with
    | Return a => result (f a)
    | Raise e => Raise e
    end.
Proof.
  destruct m as [out [a|e]]; simpl; [|done].
  unfold mbind, M_bind, m_bind. by destruct (f a).
Qed.

Lemma events_bind {A B} (m : M E A) (f : A → M E B) :
  events (m ≫= f) =
    match result m with
    | Return a => events m ++ events (f a)
    | Raise e => events m
    end.
Proof.
  destruct m as [out [a|e]]; simpl; [|done].
  unfold mbind, M_bind, m_bind. by destruct (f a).
Qed.

Lemma result_ret {A} (a : A) : result (mret a : M E A) = Return a.
Proof. done. Qed.

Lemma M_eta {A} (m : M E A) : m = (events m, result m).
Proof. by destruct m. Qed.

Lemma result_try_except {A} (body : M exn A) (handler : exn → M E A) :
  result (try_except body handler) =
    match result body with
    | Return a => Return a
    | Raise e => result (handler e)
    end.
Proof.
  destruct body as [out [a|e]]; simpl; [done|]. by destruct (handler e).
Qed.

Lemma events_try_except {A} (body : M exn A) (handler : exn → M E A) :
  events (try_except body handler) =
    match result body with
    | Return a => events body
    | Raise e => events body ++ events (handler e)
    end.
Proof.
  destruct body as [out [a|e]]; simpl; [done|]. by destruct (handler e).
Qed.

End Effects.

(* ================================================================== *)
(** * Facts about tables *)

Section Tables.

Implicit Types (c k : string) (s : Series) (l : list (string * Series)).

Lemma lookup_assign_eq c s l : lookup_col c (assign_col c s l) = Some s.
Proof.
  induction l as [|[k s0] l IH]; simpl.
  - by rewrite String.eqb_refl.
  - destruct (String.eqb k c) eqn:Hk; simpl; by rewrite Hk.
Qed.

Lemma lookup_assign_ne c k s l :
  k ≠ c → lookup_col c (assign_col k s l) = lookup_col c l.
Proof.
  intros Hne. induction l as [|[k' s0] l IH]; simpl.
  - by apply String.eqb_neq in Hne as ->.
  - destruct (String.eqb k' k) eqn:Hk; simpl.
    + apply String.eqb_eq in Hk as ->. by apply String.eqb_neq in Hne as ->.
    + by rewrite IH.
Qed.

Lemma lookup_alter_eq f c l :
  lookup_col c (alter_col f c l) = f <$> lookup_col c l.
Proof.
  induction l as [|[k s0] l IH]; simpl; [done|].
  destruct (String.eqb k c) eqn:Hk; simpl; by rewrite Hk.
Qed.

Lemma lookup_alter_ne f c k l :
  k ≠ c → lookup_col c (alter_col f k l) = lookup_col c l.
Proof.
  intros Hne. induction l as [|[k' s0] l IH]; simpl; [done|].
  destruct (String.eqb k' k) eqn:Hk; simpl.
  - apply String.eqb_eq in Hk as ->. by apply String.eqb_neq in Hne as ->.
  - by rewrite IH.
Qed.

Lemma alter_col_fst f c l : (alter_col f c l).*1 = l.*1.
Proof.
  induction l as [|[k s0] l IH]; simpl; [done|].
  destruct (String.eqb k c); csimpl; by rewrite ?IH.
Qed.

Lemma cell_at_set_eq df idx c v (s : Series) :
  lookup_col c (cols df) = Some s → (idx < length s)%nat →
  cell (at_set df idx c v) c idx = Some v.
Proof.
  intros Hs Hi. unfold cell, at_set. simpl.
  rewrite lookup_alter_eq, Hs. simpl. by apply list_lookup_insert_eq.
Qed.

Lemma lookup_col_columns c l : is_Some (lookup_col c l) ↔ c ∈ l.*1.
Proof.
  induction l as [|[k s] l IH]; csimpl.
  - split; [by intros [? ?]|by intros ?%elem_of_nil].
  - destruct (String.eqb_spec k c) as [->|Hne].
    + split; [intros _; by left|by eexists].
    + rewrite IH. split; [by right|]. by intros [->|?]%elem_of_cons.
Qed.

(** An indexing by a list of labels raises exactly when a label is
    missing. *)
Lemma not_in_index_None df cs :
  not_in_index df cs = None ↔ ∀ c, c ∈ cs → c ∈ columns df.
Proof.
  unfold not_in_index.
  destruct (filter (λ c, c ∉ columns df) cs) as [|x missing] eqn:Hf.
  - split; [|done]. intros _ c Hc.
    destruct (decide (c ∈ columns df)) as [|Hn]; [done|].
    assert (c ∈ filter (λ c, c ∉ columns df) cs) as Hin
      by (by apply list_elem_of_filter).
    rewrite Hf in Hin. by apply elem_of_nil in Hin.
  - split; [done|]. intros Hall.
    assert (x ∈ filter (λ c, c ∉ columns df) cs) as [Hx Hin]%list_elem_of_filter
      by (rewrite Hf; by left).
    by apply Hall in Hin.
Qed.

End Tables.

(* ================================================================== *)
(** * Facts about the matcher *)

Section Matcher.

Implicit Types (fm : list (string * string)) (d : string).

Lemma prefix_refl d : String.prefix d d = true.
Proof. induction d as [|c d IH]; simpl; [done|]. by destruct (ascii_dec c c). Qed.

Lemma contains_refl d : contains d d = true.
Proof. destruct d; simpl; [done|]. rewrite prefix_refl. by destruct (ascii_dec a a). Qed.

Lemma contains_empty d : contains "" d = true.
Proof. by destruct d. Qed.

(** The test of the inner loop is the containment test alone. *)
Lemma match_test d1 d2 : (d1 =? d2)%string || contains d1 d2 = contains d1 d2.
Proof.
  destruct (String.eqb_spec d1 d2) as [->|]; simpl; [|done].
  by rewrite contains_refl.
Qed.

(** First match wins. *)
Lemma scan_mappings_Some d fm code :
  scan_mappings d fm = Some code ↔
  ∃ i e, fm !! i = Some e ∧ e.2 = code ∧ contains d e.1 = true
         ∧ ∀ j e', (j < i)%nat → fm !! j = Some e' → contains d e'.1 = false.
Proof.
  induction fm as [|[h c] fm IH]; simpl.
  - split; [done|]. by intros (i & e & ? & _).
  - rewrite match_test. destruct (contains d h) eqn:Hh.
    + split.
      * intros [= <-]. exists 0%nat, (h, c). repeat split; [done|]. lia.
      * intros (i & e & Hi & <- & He & Hfirst). destruct i as [|i].
        { by injection Hi as <-. }
        specialize (Hfirst 0%nat (h, c) ltac:(lia) eq_refl). simpl in Hfirst.
        congruence.
    + rewrite IH. split.
      * intros (i & e & Hi & <- & He & Hfirst). exists (S i), e.
        repeat split; [done..|]. intros [|j] e' Hj He'; simpl in He'.
        { by injection He' as <-. }
        apply (Hfirst j); [lia|done].
      * intros (i & e & Hi & <- & He & Hfirst). destruct i as [|i].
        { injection Hi as <-. simpl in He. congruence. }
        exists i, e. repeat split; [done..|]. intros j e' Hj He'.
        apply (Hfirst (S j)); [lia|done].
Qed.

Lemma scan_mappings_None d fm :
  scan_mappings d fm = None ↔ ∀ e, e ∈ fm → contains d e.1 = false.
Proof.
  induction fm as [|[h c] fm IH]; simpl.
  - split; [|done]. by intros _ e ?%elem_of_nil.
  - rewrite match_test. destruct (contains d h) eqn:Hh.
    + split; [done|]. intros H. specialize (H (h, c) ltac:(left)). simpl in H. congruence.
    + rewrite IH. split.
      * intros H e [->|He]%elem_of_cons; [done|by apply H].
      * intros H e He. apply H. by right.
Qed.

Lemma scan_mappings_elem d fm code :
  scan_mappings d fm = Some code → code ∈ fm.*2.
Proof.
  intros (i & e & Hi & <- & _)%scan_mappings_Some.
  apply list_elem_of_fmap. exists e. split; [done|]. by eapply list_elem_of_lookup_2.
Qed.

End Matcher.

Section MatcherLoop.

Implicit Types (fm : list (string * string)) (col : Series) (st : match_state).

Lemma assign_codes_length fm i l col : length (assign_codes fm i l col) = length col.
Proof.
  revert i col. induction l as [|v l IH]; intros i col; simpl; [done|].
  rewrite IH. destruct (matched_code fm v); [apply length_insert|done].
Qed.

(** The cell with label [j] after the loop: the code found for the [j]-th
    description when there is one, the cell as it was otherwise. *)
Lemma assign_codes_lookup fm i l col j :
  assign_codes fm i l col !! j =
    match (if decide (i ≤ j)%nat then l !! (j - i)%nat else None) ≫= matched_code fm with
    | Some code => if decide (j < length col)%nat then Some (VStr code) else None
    | None => col !! j
    end.
Proof.
  revert i col. induction l as [|v l IH]; intros i col; simpl.
  - by destruct (decide (i ≤ j)%nat).
  - rewrite IH. clear IH.
    destruct (matched_code fm v) as [cv|] eqn:Hv; rewrite ?length_insert.
    + destruct (decide (S i ≤ j)%nat) as [Hij|Hij].
      * rewrite decide_True by lia.
        replace (j - i)%nat with (S (j - S i)) by lia. simpl.
        destruct (l !! (j - S i)%nat ≫= matched_code fm); [done|].
        by rewrite list_lookup_insert_ne by lia.
      * simpl. destruct (decide (i ≤ j)%nat) as [Hij'|Hij'].
        { assert (j = i) as -> by lia. rewrite Nat.sub_diag. simpl. rewrite Hv.
          destruct (decide (i < length col)%nat).
          - by apply list_lookup_insert_eq.
          - rewrite list_insert_ge by lia. apply lookup_ge_None. lia. }
        simpl. by rewrite list_lookup_insert_ne by lia.
    + destruct (decide (S i ≤ j)%nat) as [Hij|Hij].
      * rewrite decide_True by lia.
        by replace (j - i)%nat with (S (j - S i)) by lia.
      * simpl. destruct (decide (i ≤ j)%nat) as [Hij'|Hij']; [|done].
        assert (j = i) as -> by lia. rewrite Nat.sub_diag. simpl. by rewrite Hv.
Qed.

Lemma assign_codes_Forall (P : value → Prop) fm i l col :
  Forall P col → (∀ code, code ∈ fm.*2 → P (VStr code)) →
  Forall P (assign_codes fm i l col).
Proof.
  intros Hcol HP. revert i col Hcol.
  induction l as [|v l IH]; intros i col Hcol; simpl; [done|].
  apply IH. destruct (matched_code fm v) as [code|] eqn:Hv; [|done].
  apply Forall_insert; [done|]. apply HP.
  unfold matched_code in Hv. destruct (isna v); [done|].
  by eapply scan_mappings_elem.
Qed.

(** The outer loop never raises; it only rewrites the fault-code column. *)
Lemma match_rows fm b i l st :
  ∃ st', result (for_each (match_row fm b) (enumerate_from i l) st) = Return st'
    ∧ nrows (cur_output st') = nrows (cur_output st)
    ∧ columns (cur_output st') = columns (cur_output st)
    ∧ lookup_col "故障码" (cols (cur_output st'))
      = assign_codes fm i l <$> lookup_col "故障码" (cols (cur_output st))
    ∧ ∀ c, c ≠ "故障码" →
        lookup_col c (cols (cur_output st')) = lookup_col c (cols (cur_output st)).
Proof.
  revert i st. induction l as [|v l IH]; intros i st; simpl.
  - exists st. repeat split; try done. by destruct (lookup_col _ _).
  - rewrite result_bind. unfold match_row at 1.
    destruct (isna v) eqn:Hna.
    { simpl. destruct (IH (S i) st) as (st' & ? & ? & ? & Hcol & ?).
      exists st'. repeat split; try done. rewrite Hcol.
      unfold matched_code. by rewrite Hna. }
    destruct (scan_mappings _ fm) as [code|] eqn:Hscan; simpl.
    + match goal with |- context [for_each _ _ ?s] =>
        destruct (IH (S i) s) as (st' & Hres & Hn & Hcols & Hcol & Hother) end.
      simpl in *. exists st'. repeat split; try done.
      * rewrite Hcols. unfold columns. simpl. apply alter_col_fst.
      * rewrite Hcol, lookup_alter_eq. unfold matched_code. rewrite Hna, Hscan.
        destruct (lookup_col "故障码" (cols (cur_output st))); reflexivity.
      * intros c Hc. rewrite Hother by done. by apply lookup_alter_ne.
    + match goal with |- context [for_each _ _ ?s] =>
        destruct (IH (S i) s) as (st' & Hres & Hn & Hcols & Hcol & Hother) end.
      simpl in *. exists st'. repeat split; try done.
      rewrite Hcol. unfold matched_code. by rewrite Hna, Hscan.
Qed.

End MatcherLoop.

Lemma result_getitem df c s :
  result (getitem df c) = Return s ↔ lookup_col c (cols df) = Some s.
Proof.
  unfold getitem. destruct (lookup_col c (cols df)); simpl; split; congruence.
Qed.

(** Peel the first statement off a run that is known to return: [step]
    for a statement that only prints or logs, [peel] for one that binds
    a result. *)
Ltac step H :=
  lazymatch type of H with
  | result (?m ≫= ?f) = Return _ =>
      rewrite (@result_bind exn _ _ m f) in H;
      cbn [result snd print logger_info logger_warning logger_error emit] in H
  end.

Tactic Notation "peel" hyp(H) "as" simple_intropattern(x) ident(Hrun) :=
  lazymatch type of H with
  | result (?m ≫= ?f) = Return _ =>
      rewrite (@result_bind exn _ _ m f) in H;
      destruct (result m) as [x|?] eqn:Hrun; [|discriminate H];
      try apply result_getitem in Hrun;
      cbn beta iota in H
  end.

Section Board.

Lemma add_fault_codes_spec df_output df_err_rpt df_helf_input b df_final :
  result (add_fault_codes_for_board df_output df_err_rpt df_helf_input b)
    = Return df_final →
  ∃ english,
    lookup_col "故障说明（英文）" (cols df_err_rpt) = Some english
    ∧ nrows df_final = nrows df_output
    ∧ columns df_final = columns df_output
    ∧ lookup_col "故障码" (cols df_final)
      = assign_codes (fault_mappings_of df_helf_input) 0 english
          <$> lookup_col "故障码" (cols df_output)
    ∧ ∀ c, c ≠ "故障码" → lookup_col c (cols df_final) = lookup_col c (cols df_output).
Proof.
  intros H. unfold add_fault_codes_for_board in H. peel H as st Hst. do 2 step H.
  injection H as <-. rename Hst into H.
  unfold match_all in H. do 2 step H.
  peel H as descs Hdescs. peel H as codes Hcodes. do 2 step H.
  peel H as english Henglish.
  match type of H with context [for_each (match_row ?fm b) (items ?l) ?st] =>
    destruct (match_rows fm b 0 l st) as (st' & Hres & Hn & Hcols & Hcol & Hother)
  end.
  unfold items, enumerate in H. rewrite Hres in H. injection H as <-.
  eexists. split; [done|]. repeat split; try done.
  rewrite Hcol. unfold fault_mappings_of. simpl.
  by rewrite Hdescs, Hcodes.
Qed.

Lemma result_get_vp_prefix {E} pg_name :
  result (get_vp_prefix (E:=E) pg_name) = Return (vp_prefix_of pg_name).
Proof.
  unfold get_vp_prefix, vp_prefix_of.
  destruct (simulator_vp_prefix_dict !! pg_name) as [v|]; [|done].
  by destruct (is_empty v).
Qed.

Lemma last_char_app s c t : last_char (s +:+ String c t) = last_char (String c t).
Proof.
  induction s as [|c' s IH]; [done|].
  change (String c' s +:+ String c t) with (String c' (s +:+ String c t)).
  cbn [last_char]. rewrite IH. by destruct s.
Qed.

Lemma addr_column_fixed vp_prefix c :
  c ∈ ["故障说明"; "故障说明（英文）"; "故障码"; "板卡标识"] → c ≠ addr_column vp_prefix.
Proof.
  intros Hc Heq. apply (f_equal last_char) in Heq.
  unfold addr_column in Heq. rewrite last_char_app in Heq.
  repeat (apply elem_of_cons in Hc as [->|Hc]; [discriminate Heq|]).
  by apply elem_of_nil in Hc.
Qed.

Lemma result_getitems_nrows df cs df' :
  result (getitems df cs) = Return df' → nrows df' = nrows df.
Proof.
  unfold getitems. destruct (not_in_index df cs); [done|].
  intros H. peel H as ss Hss. by injection H as <-.
Qed.

Lemma prepare_spec df_err_rpt config b df_output :
  result (prepare_output_for_board df_err_rpt config b) = Return df_output →
  ∃ english byte_col bit_col byte_addr bit_addr,
    lookup_col "故障说明（英文）" (cols df_err_rpt) = Some english
    ∧ lookup_col "Byte地址" (cols df_err_rpt) = Some byte_col
    ∧ lookup_col "bit位" (cols df_err_rpt) = Some bit_col
    ∧ result (astype_int (fillna (VInt 0) byte_col)) = Return byte_addr
    ∧ result (astype_int (fillna (VInt 0) bit_col)) = Return bit_addr
    ∧ nrows df_output = nrows df_err_rpt
    ∧ lookup_col "故障码" (cols df_output)
      = Some (replicate (nrows df_err_rpt) (VStr ""))
    ∧ lookup_col "故障说明（英文）" (cols df_output)
      = Some (of_strs (astype_str english))
    ∧ lookup_col (addr_column (vp_prefix_of (pgName config))) (cols df_output)
      = Some (of_strs (zip_with (address (vp_prefix_of (pgName config)) (boardId b))
                         byte_addr bit_addr)).
Proof.
  intros H. unfold prepare_output_for_board in H.
  peel H as [board_id module_code] Hboard.
  assert (board_id = boardId b) as ->.
  { unfold get_board_config in Hboard. destruct (_ !! 1%nat); [|done].
    by injection Hboard as <- _. }
  peel H as vp_prefix Hvp. rewrite result_get_vp_prefix in Hvp. injection Hvp as <-.
  do 4 step H. peel H as df_selected Hsel. apply result_getitems_nrows in Hsel.
  peel H as member Hmember. peel H as member' Hmember'.
  peel H as component Hcomponent. peel H as component_index Hindex.
  peel H as byte_col Hbyte. peel H as byte_addr Hbyte_addr.
  peel H as bit_col Hbit. peel H as bit_addr Hbit_addr.
  peel H as native Hnative. peel H as english Henglish.
  do 2 step H. injection H as <-.
  exists english, byte_col, bit_col, byte_addr, bit_addr.
  repeat split; try done.
  - unfold setitem_scalar, setitem. cbn [cols nrows].
    rewrite lookup_assign_ne by done. by rewrite lookup_assign_eq, Hsel.
  - unfold setitem_scalar, setitem. cbn [cols nrows].
    rewrite !lookup_assign_ne by done. by rewrite lookup_assign_eq.
  - unfold setitem_scalar, setitem. cbn [cols nrows].
    rewrite !lookup_assign_ne by (apply addr_column_fixed; repeat constructor).
    rewrite lookup_assign_eq. do 2 f_equal.
    rewrite zip_with_fmap_l, zip_with_fmap_r. reflexivity.
Qed.

End Board.

(* ================================================================== *)
(** * Facts about numbers *)

Section Numbers.

Lemma pretty_N_char_digit x : is_digit (pretty_N_char x) = true.
Proof. unfold pretty_N_char. by repeat case_match. Qed.

Lemma pretty_N_char_nonzero x :
  (0 < x < 10)%N → (code (pretty_N_char x) =? 48)%N = false.
Proof.
  intros Hx.
  assert (x = 1 ∨ x = 2 ∨ x = 3 ∨ x = 4 ∨ x = 5 ∨ x = 6 ∨ x = 7 ∨ x = 8 ∨ x = 9)%N
    as Hc by lia.
  by repeat destruct Hc as [->|Hc]; try subst x.
Qed.

(** The digits of a positive number: all digits, the first one not zero. *)
Lemma pretty_N_go_digits x s :
  (0 < x)%N → str_forall is_digit s = true →
  ∃ c rest, pretty_N_go x s = String c rest
    ∧ is_digit c = true ∧ (code c =? 48)%N = false
    ∧ str_forall is_digit rest = true.
Proof.
  revert s. induction (N.lt_wf_0 x) as [x _ IH]; intros s Hx Hs.
  rewrite pretty_N_go_step by done.
  destruct (decide (x < 10)%N) as [Hlt|Hge].
  - rewrite N.div_small, pretty_N_go_0 by done.
    rewrite N.mod_small by done.
    eexists _, _. split; [done|]. split; [apply pretty_N_char_digit|].
    split; [by apply pretty_N_char_nonzero|done].
  - apply IH.
    + apply N.div_lt; lia.
    + apply N.div_str_pos. lia.
    + simpl. by rewrite pretty_N_char_digit.
Qed.

Lemma plain_digits_intro c rest :
  is_digit c = true → (code c =? 48)%N = false → str_forall is_digit rest = true →
  plain_digits (String c rest) = true
  ∧ plain_integer (String c rest) = true
  ∧ (String c rest =? "0")%string = false.
Proof.
  intros Hc Hz Hrest.
  assert (plain_digits (String c rest) = true) as Hp.
  { unfold plain_digits. rewrite Hc, Hz, Hrest.
    destruct c as [[] [] [] [] [] [] [] []]; try done; by destruct rest. }
  split; [done|]. split.
  - unfold plain_integer. rewrite Hp.
    destruct c as [[] [] [] [] [] [] [] []]; try done.
  - destruct c as [[] [] [] [] [] [] [] []]; try done.
Qed.

Lemma str_int_pos p : ∃ c rest,
  str_int (Zpos p) = String c rest ∧ str_int (Zneg p) = String "-" (String c rest)
  ∧ is_digit c = true ∧ (code c =? 48)%N = false ∧ str_forall is_digit rest = true.
Proof.
  destruct (pretty_N_go_digits (Npos p) "") as (c & rest & Hgo & Hc & Hz & Hrest);
    [lia|done|].
  exists c, rest.
  assert (pretty (Npos p) = String c rest) as Hp.
  { unfold pretty, pretty_N. by rewrite decide_False. }
  unfold str_int, pretty, pretty_Z, pretty, pretty_positive. by rewrite Hp.
Qed.

(** [str(n)] is a plain decimal integer. *)
Lemma str_int_plain z : plain_integer (str_int z) = true.
Proof.
  destruct z as [|p|p]; [done|..];
    destruct (str_int_pos p) as (c & rest & Hpos & Hneg & Hc & Hz & Hrest);
    destruct (plain_digits_intro c rest Hc Hz Hrest) as (Hd & Hi & Hne).
  - by rewrite Hpos.
  - rewrite Hneg. cbn [plain_integer]. by rewrite Hd, Hne.
Qed.

End Numbers.

Section Offsets.

Lemma result_traverse {E A B} (f : A → M E B) l ys :
  result (traverse f l) = Return ys →
  Forall2 (λ x y, result (f x) = Return y) l ys.
Proof.
  revert ys. induction l as [|x l IH]; intros ys; simpl.
  - intros [= <-]. constructor.
  - rewrite (@result_bind E). destruct (result (f x)) as [y|] eqn:Hy; [|done].
    rewrite (@result_bind E). destruct (result (traverse f l)) as [ys'|]; [|done].
    intros [= <-]. constructor; [done|by apply IH].
Qed.

(** The truncation of a finite float is its integer part. *)
Lemma float_trunc_integer_part s m e t :
  integer_part s m e t → float_trunc (S754_finite s m e) = Some t.
Proof.
  unfold integer_part, float_trunc. intros (Hsign & Hlo & Hhi). f_equal.
  assert (Z.shiftl (Z.pos m) e = Z.abs t) as ->.
  { destruct (Z.le_gt_cases 0 e) as [He|He].
    - rewrite Z.shiftl_mul_pow2 by done.
      rewrite (Z.max_l 0 (- e)), (Z.max_r 0 e) in * by lia.
      rewrite Z.pow_0_r in *. lia.
    - rewrite Z.shiftl_div_pow2 by lia.
      rewrite (Z.max_r 0 (- e)), (Z.max_l 0 e) in * by lia.
      rewrite Z.pow_0_r in *.
      assert (0 < 2 ^ (- e)) by (apply Z.pow_pos_nonneg; lia).
      symmetry. apply (Z.div_unique_pos _ _ _ (Z.pos m - Z.abs t * 2 ^ (- e))); lia. }
  destruct s; lia.
Qed.

Lemma pretty_N_char_value d :
  (d < 10)%N →
  is_digit (pretty_N_char d) = true
  ∧ Z.of_N (code (pretty_N_char d) - 48) = Z.of_N d.
Proof.
  intros Hd.
  assert (d = 0 ∨ d = 1 ∨ d = 2 ∨ d = 3 ∨ d = 4 ∨ d = 5 ∨ d = 6 ∨ d = 7
          ∨ d = 8 ∨ d = 9)%N as Hc by lia.
  by repeat destruct Hc as [->|Hc]; try subst d.
Qed.

(** Reading the digits that [str] writes gives the number back. *)
Lemma read_digits_pretty x s :
  (0 < x)%N →
  ∃ k, 0 ≤ k ∧ ∀ acc prev,
    read_digits acc prev (pretty_N_go x s)
    = read_digits (acc * 10 ^ k + Z.of_N x) true s.
Proof.
  revert s. induction (N.lt_wf_0 x) as [x _ IH]; intros s Hx.
  rewrite pretty_N_go_step by done.
  destruct (decide (x < 10)%N) as [Hlt|Hge].
  - rewrite N.div_small, pretty_N_go_0 by done. rewrite N.mod_small by done.
    destruct (pretty_N_char_value x Hlt) as [Hd Hv].
    exists 1. split; [lia|]. intros acc prev. cbn [read_digits].
    rewrite Hd, Hv. f_equal. lia.
  - destruct (IH (x `div` 10)%N) with (s := String (pretty_N_char (x `mod` 10)) s)
      as (k & Hk & Hread).
    + apply N.div_lt; lia.
    + apply N.div_str_pos. lia.
    + destruct (pretty_N_char_value (x `mod` 10)%N) as [Hd Hv].
      { apply N.mod_lt. lia. }
      exists (k + 1). split; [lia|]. intros acc prev.
      rewrite Hread. cbn [read_digits]. rewrite Hd, Hv. f_equal.
      rewrite Z.pow_add_r, Z.pow_1_r by lia.
      pose proof (N.div_mod' x 10) as Hx10. lia.
Qed.

Lemma digits_not_int_space c :
  is_digit c = true →
  is_int_space c = false ∧ c ≠ "-"%char ∧ c ≠ "+"%char.
Proof. destruct c as [[] [] [] [] [] [] [] []]; by vm_compute. Qed.

Lemma rstrip_int_digits s : str_forall is_digit s = true → rstrip_int s = s.
Proof.
  induction s as [|c s IH]; cbn [str_forall rstrip_int]; [done|].
  intros [[Hc _]%digits_not_int_space Hs]%andb_prop. by rewrite Hc, IH.
Qed.

Lemma int_of_str_digits c rest z :
  is_digit c = true → str_forall is_digit rest = true →
  read_digits 0 false (String c rest) = Some z →
  int_of_str (String c rest) = Some z
  ∧ int_of_str (String "-" (String c rest)) = Some (- z).
Proof.
  intros Hc Hrest Hread.
  destruct (digits_not_int_space c Hc) as (Hsp & Hminus & Hplus).
  assert (rstrip_int (String c rest) = String c rest) as Hr.
  { apply rstrip_int_digits. cbn [str_forall]. by rewrite Hc, Hrest. }
  unfold int_of_str. split.
  - cbn [lstrip_int]. rewrite Hsp, Hr.
    destruct c as [[] [] [] [] [] [] [] []]; try done.
  - cbn [lstrip_int]. change (is_int_space "-") with false. cbv iota.
    change (rstrip_int (String "-" (String c rest)))
      with (if is_int_space "-" && is_empty (rstrip_int (String c rest))
            then EmptyString else String "-" (rstrip_int (String c rest))).
    change (is_int_space "-") with false. cbn [andb]. rewrite Hr, Hread. done.
Qed.

(** [int(str(n))] is [n]. *)
Lemma int_of_str_str_int n : int_of_str (str_int n) = Some n.
Proof.
  destruct n as [|p|p]; [done|..];
    destruct (str_int_pos p) as (c & rest & Hpos & Hneg & Hc & _ & Hrest);
    destruct (read_digits_pretty (Npos p) "" ltac:(lia)) as (k & _ & Hread);
    assert (str_int (Z.pos p) = pretty_N_go (N.pos p) "") as Hgo
      by (unfold str_int, pretty, pretty_Z, pretty, pretty_positive, pretty, pretty_N;
          by rewrite decide_False);
    assert (read_digits 0 false (String c rest) = Some (Z.pos p)) as Hd
      by (rewrite <- Hpos, Hgo, Hread; cbn [read_digits]; f_equal; lia);
    destruct (int_of_str_digits c rest _ Hc Hrest Hd) as [H1 H2].
  - by rewrite Hpos.
  - by rewrite Hneg.
Qed.

Lemma in_int64_small n : Z.abs n ≤ 2 ^ 53 → in_int64 n = true.
Proof.
  intros Hn. unfold in_int64, int64_min, int64_max.
  apply andb_true_intro. split; [apply Z.leb_le|apply Z.leb_le]; lia.
Qed.

(** One cell of the conversion, when it returns. *)
Lemma int_of_value_rendered dt v z :
  isna v = false → result (int_of_value dt v) = Return z → rendered_offset v z.
Proof.
  destruct v as [n|f|s]; cbn [rendered_offset int_of_value].
  - intros _ H Hn. rewrite (in_int64_small n Hn) in H. by injection H as <-.
  - destruct f as [sg| sg | |sg m e]; try done.
    + intros _. cbn [float_trunc]. change (in_int64 0) with true. by intros [= <-].
    + intros _. by destruct dt.
    + intros _ H t Ht Hin. rewrite (float_trunc_integer_part _ _ _ _ Ht), Hin in H.
      by injection H as <-.
  - intros _ H n -> Hin. rewrite int_of_str_str_int, Hin in H. by injection H as <-.
Qed.

Lemma int_of_value_filled dt v' :
  v' = VInt 0 ∨ v' = to_float (VInt 0) → result (int_of_value dt v') = Return 0.
Proof. by intros [->| ->]; destruct dt. Qed.

(** The integers of an offset column, cell by cell. *)
Lemma astype_int_fillna col zs i v :
  result (astype_int (fillna (VInt 0) col)) = Return zs →
  col !! i = Some v →
  ∃ z, zs !! i = Some z ∧ (isna v = true → z = 0) ∧ rendered_offset v z.
Proof.
  unfold astype_int. intros Hzs%result_traverse Hv.
  assert (fillna (VInt 0) col !! i
          = Some (if isna v then
                    match dtype_of col with float64 => to_float (VInt 0) | _ => VInt 0 end
                  else v)) as Hfill.
  { unfold fillna. by rewrite list_lookup_fmap, Hv. }
  destruct (Forall2_lookup_l _ _ _ _ _ Hzs Hfill) as (z & Hz & Hrun).
  exists z. split; [done|]. destruct (isna v) eqn:Hna.
  - rewrite int_of_value_filled in Hrun by (destruct (dtype_of col); auto).
    injection Hrun as <-. split; [done|]. by destruct v as [|[]|].
  - split; [done|]. by eapply int_of_value_rendered.
Qed.

Lemma astype_int_length col zs :
  result (astype_int col) = Return zs → length zs = length col.
Proof. intros Hzs%result_traverse. symmetry. by eapply Forall2_length. Qed.

End Offsets.

Section Claims.

Implicit Types (df_err_rpt df_output df_helf_input df_final : DataFrame).
Implicit Types (config : config) (b : board_config).

(** C8: in every generated address expression the byte offset and the bit
    offset are plain integers, no decimal point and no leading zero: the
    decimal writing of the integer the offset cell stands for.  A missing
    offset is rendered as 0; a float offset as its integer part, the
    largest integer whose magnitude does not exceed that of the float
    (5.0 as 5); an integer and a text that spells an integer as that
    integer. *)
Theorem offsets_rendered_as_integers df_err_rpt config b df_output i a :
  result (prepare_output_for_board df_err_rpt config b) = Return df_output →
  cell df_output (addr_column (vp_prefix_of (pgName config))) i = Some a →
  ∃ vbyte vbit byte bit,
    cell df_err_rpt "Byte地址" i = Some vbyte
    ∧ cell df_err_rpt "bit位" i = Some vbit
    ∧ a = VStr (address (vp_prefix_of (pgName config)) (boardId b) byte bit)
    ∧ plain_integer (str_int byte) = true
    ∧ plain_integer (str_int bit) = true
    ∧ (isna vbyte = true → str_int byte = "0")
    ∧ (isna vbit = true → str_int bit = "0")
    ∧ rendered_offset vbyte byte
    ∧ rendered_offset vbit bit.
Proof.
  intros (english & byte_col & bit_col & byte_addr & bit_addr & _ & Hbyte & Hbit
          & Hbytes & Hbits & _ & _ & _ & Haddr)%prepare_spec Ha.
  unfold cell in Ha. rewrite Haddr in Ha. simpl in Ha.
  unfold of_strs in Ha. rewrite list_lookup_fmap in Ha.
  destruct (zip_with _ byte_addr bit_addr !! i) as [s|] eqn:Hs; [|done].
  injection Ha as <-.
  apply lookup_zip_with_Some in Hs as (byte & bit & -> & Hb1 & Hb2).
  assert (is_Some (byte_col !! i)) as [vbyte Hvbyte].
  { apply lookup_lt_is_Some. apply lookup_lt_Some in Hb1.
    rewrite (astype_int_length _ _ Hbytes) in Hb1. unfold fillna in Hb1.
    by rewrite length_fmap in Hb1. }
  assert (is_Some (bit_col !! i)) as [vbit Hvbit].
  { apply lookup_lt_is_Some. apply lookup_lt_Some in Hb2.
    rewrite (astype_int_length _ _ Hbits) in Hb2. unfold fillna in Hb2.
    by rewrite length_fmap in Hb2. }
  destruct (astype_int_fillna _ _ _ _ Hbytes Hvbyte) as (z1 & Hz1 & Hna1 & Hoff1).
  destruct (astype_int_fillna _ _ _ _ Hbits Hvbit) as (z2 & Hz2 & Hna2 & Hoff2).
  assert (z1 = byte) as -> by congruence. assert (z2 = bit) as -> by congruence.
  exists vbyte, vbit, byte, bit. unfold cell. rewrite Hbyte, Hbit. simpl.
  repeat split; try done; try apply str_int_plain.
  - by intros ->%Hna1.
  - by intros ->%Hna2.
Qed.

(** The float 5.0 and the integer 3 of the first record of the small
    installation are rendered as 5 and 3. *)
Lemma offsets_rendered_witness :
  cell ex_tables.1 "Byte地址" 0
  = Some (VFloat (S754_finite false 5629499534213120 (-50)))
  ∧ integer_part false 5629499534213120 (-50) 5
  ∧ ∃ byte bit,
      (λ df, cell df "rsspm_erpt.RSSPM_ERPT_Varpool.errRptInject[x][x][x]" 0)
        <$> result_value (prepare_output_for_board ex_tables.1 ex_config ex_board)
      = Some (Some (VStr (address (vp_prefix_of (pgName ex_config)) (boardId ex_board)
                            byte bit)))
      ∧ byte = 5 ∧ bit = 3.
Proof.
  assert (integer_part false 5629499534213120 (-50) 5) as Hpart.
  { unfold integer_part. vm_compute. repeat split; discriminate. }
  split; [vm_compute; reflexivity|]. split; [exact Hpart|].
  destruct (offsets_rendered_as_integers ex_tables.1 ex_config ex_board
              (default ex_erpt (result_value
                 (prepare_output_for_board ex_tables.1 ex_config ex_board)))
              0%nat
              (VStr "rsspm_erpt.RSSPM_ERPT_Varpool.errRptInject[2][5][3]"))
    as (vbyte & vbit & byte & bit & Hvbyte & Hvbit & Ha & _ & _ & _ & _ & Hbyte & Hbit);
    [vm_compute; reflexivity..|].
  vm_compute in Hvbyte. injection Hvbyte as <-.
  vm_compute in Hvbit. injection Hvbit as <-.
  assert (byte = 5) as -> by (apply Hbyte; [exact Hpart|reflexivity]).
  assert (bit = 3) as -> by (apply Hbit; vm_compute; discriminate).
  exists 5, 3. split; [|done]. vm_compute. reflexivity.
Defined.

(** The two renderings the specification names: 5.0 and a missing cell. *)
Example offsets_rendered_examples :
  cell ex_erpt "Byte地址" 0 = Some (VFloat (S754_finite false 5629499534213120 (-50)))
  ∧ float_of_int 5 = S754_finite false 5629499534213120 (-50)
  ∧ cell ex_erpt "Byte地址" 1 = Some nan
  ∧ (λ df, (cell df "rsspm_erpt.RSSPM_ERPT_Varpool.errRptInject[x][x][x]" 0,
            cell df "rsspm_erpt.RSSPM_ERPT_Varpool.errRptInject[x][x][x]" 1))
      <$> result_value (prepare_output_for_board ex_tables.1 ex_config ex_board)
    = Some (Some (VStr "rsspm_erpt.RSSPM_ERPT_Varpool.errRptInject[2][5][3]"),
            Some (VStr "rsspm_erpt.RSSPM_ERPT_Varpool.errRptInject[2][0][7]")).
Proof. repeat split; vm_compute; reflexivity. Qed.

(** Conversions at the edges: what [int] accepts of a text, the float
    -3.5, and a column of unsigned 64-bit integers, which wraps around. *)
Example int_conversion_examples :
  int_of_str " 12 " = Some 12 ∧ int_of_str "+7" = Some 7
  ∧ int_of_str "-0012" = Some (-12) ∧ int_of_str "1_000" = Some 1000
  ∧ int_of_str "5.0" = None ∧ int_of_str "" = None
  ∧ int_of_str (String (ascii_of_N 28) "5") = None
  ∧ strip (String (ascii_of_N 28) "5") = "5"
  ∧ float_trunc (S754_finite true 7881299347898368 (-51)) = Some (-3)
  ∧ integer_part true 7881299347898368 (-51) (-3)
  ∧ dtype_of [VInt (2 ^ 63); VInt 1] = uint64
  ∧ result (astype_int (fillna (VInt 0) [VInt (2 ^ 63); VInt 1]))
    = Return [- 2 ^ 63; 1].
Proof.
  repeat split; try (vm_compute; reflexivity); vm_compute; discriminate.
Qed.

End Claims.

Section MatcherClaims.

Implicit Types (df_err_rpt df_output df_helf_input df_final : DataFrame).
Implicit Types (config : config) (b : board_config).

(** The fault code of record [idx] once a board is prepared and matched:
    the code found for its description, the empty string otherwise. *)
Lemma board_fault_code df_err_rpt config b df_helf_input df_output df_final idx D :
  result (prepare_output_for_board df_err_rpt config b) = Return df_output →
  result (add_fault_codes_for_board df_output df_err_rpt df_helf_input b)
    = Return df_final →
  cell df_err_rpt "故障说明（英文）" idx = Some D →
  (idx < nrows df_err_rpt)%nat →
  cell df_final "故障码" idx
    = Some (VStr (default "" (matched_code (fault_mappings_of df_helf_input) D)))
  ∧ cell df_final "故障说明（英文）" idx = Some (VStr (py_str D)).
Proof.
  intros (english & _ & _ & _ & _ & Heng & _ & _ & _ & _ & _ & Hcode & Heng' & _)%prepare_spec.
  intros (english' & Heng'' & _ & _ & Hfinal & Hother)%add_fault_codes_spec HD Hidx.
  assert (english' = english) as -> by congruence.
  unfold cell in *. rewrite Heng in HD. simpl in HD.
  rewrite Hfinal, Hcode, Hother, Heng' by done. simpl. split.
  - rewrite assign_codes_lookup.
    rewrite (decide_True (P := (0 ≤ idx)%nat)) by apply Nat.le_0_l.
    rewrite Nat.sub_0_r, HD. simpl.
    destruct (matched_code _ D); simpl.
    + by rewrite decide_True by (by rewrite length_replicate).
    + by apply lookup_replicate_2.
  - unfold of_strs, astype_str. by rewrite !list_lookup_fmap, HD.
Qed.

(** C10: a record whose English description is missing in the input has
    the three-character text [nan] as English description in the output,
    and its fault code stays empty: the matcher skips it. *)
Theorem missing_description_is_nan df_err_rpt config b df_helf_input df_output df_final idx D :
  result (prepare_output_for_board df_err_rpt config b) = Return df_output →
  result (add_fault_codes_for_board df_output df_err_rpt df_helf_input b)
    = Return df_final →
  cell df_err_rpt "故障说明（英文）" idx = Some D →
  (idx < nrows df_err_rpt)%nat →
  isna D = true →
  cell df_final "故障说明（英文）" idx = Some (VStr "nan")
  ∧ cell df_final "故障码" idx = Some (VStr "")
  ∧ ∀ fault_mappings st,
      match_row fault_mappings b st (idx, D) = ([], Return st).
Proof.
  intros Hprep Hadd HD Hidx Hna.
  destruct (board_fault_code _ _ _ _ _ _ _ _ Hprep Hadd HD Hidx) as [Hcode Heng].
  assert (D = nan) as ->.
  { destruct D as [|[]|]; done. }
  repeat split; done.
Qed.

Lemma missing_description_witness :
  cell ex_tables.1 "故障说明（英文）" 3 = Some nan
  ∧ (λ df, (cell df "故障说明（英文）" 3, cell df "故障码" 3))
      <$> result_value (process_board ex_world ex_config ex_board)
    = Some (Some (VStr "nan"), Some (VStr "")).
Proof.
  split; [reflexivity|].
  destruct (missing_description_is_nan ex_tables.1 ex_config ex_board ex_tables.2
              (default ex_erpt (result_value
                 (prepare_output_for_board ex_tables.1 ex_config ex_board)))
              (default ex_erpt (result_value
                 (process_board ex_world ex_config ex_board)))
              3%nat nan) as (Heng & Hcode & _);
    [vm_compute; reflexivity..|vm_compute; lia|reflexivity|].
  vm_compute in Heng, Hcode |- *. reflexivity.
Defined.

(** C9: a description that is not missing but normalizes to the empty
    string gets the code of the first entry of a non-empty lookup table
    and counts as a success: the empty string occurs in every
    description. *)
Theorem empty_description_first_entry df_err_rpt config b df_helf_input
    df_output df_final idx D e rest :
  result (prepare_output_for_board df_err_rpt config b) = Return df_output →
  result (add_fault_codes_for_board df_output df_err_rpt df_helf_input b)
    = Return df_final →
  cell df_err_rpt "故障说明（英文）" idx = Some D →
  (idx < nrows df_err_rpt)%nat →
  isna D = false →
  normalize (py_str D) = "" →
  fault_mappings_of df_helf_input = e :: rest →
  cell df_final "故障码" idx = Some (VStr e.2)
  ∧ ∀ st,
      match_row (e :: rest) b st (idx, D)
      = ([Log INFO ("匹配成功 - 板卡:" +:+ board_fold_name b +:+ " - 故障描述:'"
                    +:+ py_str D +:+ "' -> 故障码:'" +:+ e.2 +:+ "'")],
         Return {| cur_output := at_set (cur_output st) idx "故障码" (VStr e.2);
                   matched_count := matched_count st + 1;
                   not_matched_count := not_matched_count st |}).
Proof.
  intros Hprep Hadd HD Hidx Hna Hempty Hfm.
  destruct (board_fault_code _ _ _ _ _ _ _ _ Hprep Hadd HD Hidx) as [Hcode _].
  assert (scan_mappings "" (e :: rest) = Some e.2) as Hscan.
  { destruct e as [h c]. simpl. by rewrite contains_empty, orb_true_r. }
  split.
  - rewrite Hcode. unfold matched_code. by rewrite Hna, Hempty, Hfm, Hscan.
  - intros st. unfold match_row. by rewrite Hna, Hempty, Hscan.
Qed.

Lemma empty_description_witness :
  normalize "?!" = ""
  ∧ cell ex_tables.1 "故障说明（英文）" 2 = Some (VStr "?!")
  ∧ fault_mappings_of ex_tables.2 !! 0%nat = Some ("over voltage", "E100")
  ∧ (λ df, cell df "故障码" 2)
      <$> result_value (process_board ex_world ex_config ex_board)
    = Some (Some (VStr "E100")).
Proof.
  do 3 (split; [reflexivity|]).
  destruct (empty_description_first_entry ex_tables.1 ex_config ex_board ex_tables.2
              (default ex_erpt (result_value
                 (prepare_output_for_board ex_tables.1 ex_config ex_board)))
              (default ex_erpt (result_value
                 (process_board ex_world ex_config ex_board)))
              2%nat (VStr "?!") ("over voltage", "E100") [("fan stalled", "E200")])
    as (Hcode & _);
    [vm_compute; reflexivity..|vm_compute; lia|reflexivity|reflexivity|reflexivity|].
  vm_compute in Hcode |- *. reflexivity.
Defined.

End MatcherClaims.

Section ExactMatch.

Implicit Types (df_err_rpt df_output df_helf_input df_final : DataFrame).
Implicit Types (config : config) (b : board_config).

(** The fault code of record [idx] after the matcher. *)
Lemma matched_fault_code df_output df_err_rpt df_helf_input b df_final idx D :
  result (add_fault_codes_for_board df_output df_err_rpt df_helf_input b)
    = Return df_final →
  cell df_err_rpt "故障说明（英文）" idx = Some D →
  is_Some (cell df_output "故障码" idx) →
  cell df_final "故障码" idx
    = match matched_code (fault_mappings_of df_helf_input) D with
      | Some code => Some (VStr code)
      | None => cell df_output "故障码" idx
      end.
Proof.
  intros (english & Heng & _ & _ & Hfinal & _)%add_fault_codes_spec HD [v0 Hv0].
  unfold cell in *. rewrite Heng in HD. simpl in HD. rewrite Hfinal.
  destruct (lookup_col "故障码" (cols df_output)) as [col0|]; [|done]. simpl in *.
  rewrite assign_codes_lookup.
  rewrite (decide_True (P := (0 ≤ idx)%nat)) by apply Nat.le_0_l.
  rewrite Nat.sub_0_r, HD. simpl.
  destruct (matched_code _ D); [|done].
  by rewrite decide_True by (by eapply lookup_lt_Some).
Qed.

(** C3, as stated: a description whose normal form equals that of an
    entry L gets the code of L.  It does not when an earlier entry
    contains the normal form: that entry wins. *)
Lemma exact_match_counterexample :
  ("over voltage", "E2") ∈ fault_mappings_of ex_helf_overlap
  ∧ cell ex_erpt_one "故障说明（英文）" 0 = Some (VStr "over voltage")
  ∧ normalize (py_str (VStr "over voltage")) = "over voltage"
  ∧ (λ df, cell df "故障码" 0)
      <$> result_value (add_fault_codes_for_board ex_output_one ex_erpt_one
                          ex_helf_overlap ex_board)
    = Some (Some (VStr "E1")).
Proof.
  split; [|repeat split; vm_compute; reflexivity].
  vm_compute. apply list_elem_of_lookup. by exists 1%nat.
Qed.

(** C3, amended: a description that is not missing and whose normal form
    equals that of an entry L gets a code (it is a success): the code of
    the first entry, in the order of the lookup table, whose normal form
    contains that of the description.  That entry is L whenever no entry
    before L contains it. *)
Theorem exact_match_first_wins df_output df_err_rpt df_helf_input b df_final idx D L :
  result (add_fault_codes_for_board df_output df_err_rpt df_helf_input b)
    = Return df_final →
  cell df_err_rpt "故障说明（英文）" idx = Some D →
  is_Some (cell df_output "故障码" idx) →
  isna D = false →
  L ∈ fault_mappings_of df_helf_input →
  normalize (py_str D) = L.1 →
  let fault_mappings := fault_mappings_of df_helf_input in
  let clean := normalize (py_str D) in
  ∃ i e,
    fault_mappings !! i = Some e
    ∧ contains clean e.1 = true
    ∧ (∀ j e', (j < i)%nat → fault_mappings !! j = Some e' → contains clean e'.1 = false)
    ∧ cell df_final "故障码" idx = Some (VStr e.2)
    ∧ (∀ k, fault_mappings !! k = Some L →
         (∀ j e', (j < k)%nat → fault_mappings !! j = Some e' →
            contains clean e'.1 = false) →
         e = L).
Proof.
  intros Hadd HD Hout Hna HL Heq fault_mappings clean.
  destruct (scan_mappings clean fault_mappings) as [code|] eqn:Hscan.
  - pose proof Hscan as (i & e & Hi & <- & He & Hfirst)%scan_mappings_Some.
    exists i, e. repeat split; try done.
    + rewrite (matched_fault_code _ _ _ _ _ _ _ Hadd HD Hout).
      unfold matched_code. fold fault_mappings clean. by rewrite Hna, Hscan.
    + intros k Hk HkL.
      destruct (Nat.lt_trichotomy i k) as [Hlt|[->|Hgt]].
      * specialize (HkL i e Hlt Hi). congruence.
      * congruence.
      * specialize (Hfirst k L Hgt Hk). unfold clean in Hfirst.
        rewrite Heq, contains_refl in Hfirst. done.
  - exfalso. apply scan_mappings_None with (e := L) in Hscan; [|done].
    unfold clean in Hscan. by rewrite Heq, contains_refl in Hscan.
Qed.

Lemma exact_match_witness :
  ∃ i e,
    fault_mappings_of ex_tables.2 !! i = Some e
    ∧ contains (normalize "Over Voltage!") e.1 = true
    ∧ (λ df, cell df "故障码" 0)
        <$> result_value (process_board ex_world ex_config ex_board)
      = Some (Some (VStr e.2))
    ∧ e = ("over voltage", "E100").
Proof.
  destruct (exact_match_first_wins
              (default ex_erpt (result_value
                 (prepare_output_for_board ex_tables.1 ex_config ex_board)))
              ex_tables.1 ex_tables.2 ex_board
              (default ex_erpt (result_value
                 (process_board ex_world ex_config ex_board)))
              0%nat (VStr "Over Voltage!") ("over voltage", "E100"))
    as (i & e & Hi & He & _ & Hcell & HL);
    [vm_compute; reflexivity|reflexivity|by eexists|reflexivity
    |vm_compute; left|reflexivity|].
  exists i, e. split; [exact Hi|]. split; [exact He|]. split.
  - vm_compute in Hcell |- *. by rewrite Hcell.
  - apply (HL 0%nat); [reflexivity|]. intros j e' Hj. inversion Hj.
Defined.

(** C2, for one board: after the matcher, a fault code is the empty
    string or the code of an entry of the lookup table. *)
Lemma board_codes_from_lookup df_err_rpt config b df_helf_input df_output df_final i v :
  result (prepare_output_for_board df_err_rpt config b) = Return df_output →
  result (add_fault_codes_for_board df_output df_err_rpt df_helf_input b)
    = Return df_final →
  cell df_final "故障码" i = Some v →
  v = VStr "" ∨ ∃ e, e ∈ fault_mappings_of df_helf_input ∧ v = VStr e.2.
Proof.
  intros (english & _ & _ & _ & _ & _ & _ & _ & _ & _ & _ & Hcode & _)%prepare_spec.
  intros (english' & _ & _ & _ & Hfinal & _)%add_fault_codes_spec.
  unfold cell. rewrite Hfinal, Hcode. simpl. intros Hv.
  apply list_elem_of_lookup_2 in Hv. revert v Hv. apply Forall_forall.
  apply assign_codes_Forall.
  - apply Forall_forall. intros v ->%elem_of_replicate_inv. by left.
  - intros code (e & -> & He)%list_elem_of_fmap. right. by exists e.
Qed.

End ExactMatch.

Section Concat.

Lemma dedup_from_elem seen l x : x ∈ dedup_from seen l ↔ x ∈ l ∧ x ∉ seen.
Proof.
  revert seen. induction l as [|y l IH]; intros seen; simpl.
  - split; [by intros ?%elem_of_nil|by intros [?%elem_of_nil _]].
  - case_bool_decide as Hy.
    + split.
      * intros [Hl Hs]%IH. split; [by right|done].
      * intros [[->|Hl]%elem_of_cons Hs]; [done|]. by apply IH.
    + split.
      * intros [->|[Hl Hs]%IH]%elem_of_cons.
        { split; [by left|done]. }
        apply not_elem_of_cons in Hs as [_ Hs]. split; [by right|done].
      * intros [[->|Hl]%elem_of_cons Hs]; [by left|].
        destruct (decide (x = y)) as [->|Hne]; [by left|].
        right. apply IH. split; [done|]. by apply not_elem_of_cons.
Qed.

Lemma dedup_elem l x : x ∈ dedup l ↔ x ∈ l.
Proof.
  unfold dedup. rewrite dedup_from_elem. split; [by intros [? _]|].
  intros Hx. split; [done|]. apply not_elem_of_nil.
Qed.

Lemma lookup_col_tabulate (f : string → Series) l c :
  lookup_col c ((λ c, (c, f c)) <$> l) = if decide (c ∈ l) then Some (f c) else None.
Proof.
  induction l as [|k l IH]; csimpl.
  - destruct (decide (c ∈ [])) as [Hin%elem_of_nil|]; done.
  - destruct (String.eqb_spec k c) as [->|Hne].
    + destruct (decide (c ∈ c :: l)) as [|Hn]; [done|]. exfalso. apply Hn. by left.
    + rewrite IH. destruct (decide (c ∈ l)), (decide (c ∈ k :: l)) as [Hin|Hn]; try done.
      * exfalso. apply Hn. by right.
      * apply elem_of_cons in Hin as [->|]; done.
Qed.

(** A column of a concatenation is the columns of the frames, one after
    the other. *)
Lemma pd_concat_col dfs c s :
  lookup_col c (cols (pd_concat dfs)) = Some s →
  s = mjoin (reindex_col c <$> dfs).
Proof.
  unfold pd_concat. cbn [cols]. rewrite lookup_col_tabulate.
  destruct (decide _); [|done]. by intros [= <-].
Qed.

Lemma pd_concat_columns dfs c :
  c ∈ columns (pd_concat dfs) ↔ ∃ df, df ∈ dfs ∧ c ∈ columns df.
Proof.
  unfold columns at 1, pd_concat. cbn [cols].
  rewrite <- list_fmap_compose. unfold compose. cbn [fst]. rewrite list_fmap_id.
  rewrite dedup_elem, list_elem_of_join. split.
  - intros (l & Hc & (df & -> & Hdf)%list_elem_of_fmap). by exists df.
  - intros (df & Hdf & Hc). exists (columns df). split; [done|].
    apply list_elem_of_fmap. by exists df.
Qed.

End Concat.

Section Boards.

Implicit Types (w : world) (config : config) (b : board_config).

Lemma events_board_step w config st item :
  events (board_step w config st item) = board_log w config item.
Proof.
  unfold board_log, board_step. destruct st as [acc tot], item as [i b].
  rewrite !(@events_bind sys_exit). cbn [result snd print emit events fst].
  rewrite !events_try_except, !(@events_bind exn), !(@result_bind exn).
  destruct (result (process_board w config b)); [|done].
  cbn [result snd print logger_info emit events fst].
  by rewrite !(@events_bind exn).
Qed.

Lemma board_log_unfold w config i b :
  board_log w config (i, b)
  = [ Print (str_repeat "-" 50);
      Print ("处理第" +:+ str_int (Z.of_nat i + 1) +:+ "个板卡: " +:+ board_fold_name b);
      Print (str_repeat "-" 50);
      Log INFO ("处理第" +:+ str_int (Z.of_nat i + 1) +:+ "个板卡: "
                +:+ board_fold_name b) ]
    ++ events (process_board w config b) ++ board_outcome_log w config b.
Proof.
  unfold board_log, board_step, board_outcome_log.
  rewrite !(@events_bind sys_exit). cbn [result snd print logger_info emit events fst].
  rewrite !events_try_except, !(@events_bind exn), !(@result_bind exn).
  destruct (result (process_board w config b)) as [df|e].
  - cbn [result snd print logger_info emit events fst].
    rewrite !(@events_bind exn). cbn [result snd print logger_info emit events fst].
    by rewrite app_nil_r.
  - rewrite !(@events_bind sys_exit).
    cbn [result snd print logger_error emit events fst]. by rewrite app_nil_r.
Qed.

Lemma result_board_step w config acc tot i b :
  ∃ tot',
    result (board_step w config (acc, tot) (i, b))
    = Return (acc ++ option_list (result_value (process_board w config b)), tot').
Proof.
  unfold board_step, result_value.
  rewrite !(@result_bind sys_exit). cbn [result snd print logger_info emit].
  rewrite result_try_except, !(@result_bind exn).
  destruct (result (process_board w config b)) as [df|e].
  - cbn [result snd print logger_info emit].
    rewrite !(@result_bind exn). cbn [result snd print logger_info emit].
    by eexists.
  - rewrite !(@result_bind sys_exit). cbn [result snd print logger_error emit].
    exists tot. simpl. by rewrite app_nil_r.
Qed.

(** The loop over the boards never leaves: it collects the tables of the
    boards that succeed and goes through every board. *)
Lemma boards_loop w config i l acc tot :
  (∃ tot',
     result (for_each (board_step w config) (enumerate_from i l) (acc, tot))
     = Return (acc ++ omap (λ b, result_value (process_board w config b)) l, tot'))
  ∧ events (for_each (board_step w config) (enumerate_from i l) (acc, tot))
    = mjoin (board_log w config <$> enumerate_from i l).
Proof.
  revert i acc tot. induction l as [|b l IH]; intros i acc tot.
  - split; [|done]. exists tot. simpl. by rewrite app_nil_r.
  - cbn [enumerate_from for_each]. rewrite (@result_bind sys_exit), (@events_bind sys_exit).
    destruct (result_board_step w config acc tot i b) as (tot1 & ->).
    rewrite events_board_step.
    destruct (IH (S i) (acc ++ option_list (result_value (process_board w config b))) tot1)
      as ((tot' & ->) & ->).
    split; [|done]. exists tot'. f_equal. f_equal. rewrite <- app_assoc. f_equal.
    simpl. by destruct (result_value (process_board w config b)).
Qed.

Lemma enumerate_from_lookup {A} (l : list A) i k x :
  l !! k = Some x → enumerate_from i l !! k = Some ((i + k)%nat, x).
Proof.
  revert i k. induction l as [|y l IH]; intros i [|k]; simpl; try done.
  - intros [= ->]. by rewrite Nat.add_0_r.
  - intros Hk. rewrite (IH (S i) k Hk). do 2 f_equal. lia.
Qed.

Lemma result_process_all_boards w config :
  result (process_all_boards w config)
  = if bool_decide (succeeded w config ≠ [])
    then Return (pd_concat (succeeded w config))
    else Raise (SystemExit 1).
Proof.
  unfold process_all_boards.
  rewrite !(@result_bind sys_exit). cbn [result snd print logger_info emit].
  destruct (boards_loop w config 0 (paraInfoList config) [] 0) as [(tot' & Hres) _].
  unfold enumerate. rewrite Hres. cbn [app]. fold (succeeded w config).
  case_bool_decide.
  - by rewrite !(@result_bind sys_exit).
  - by rewrite !(@result_bind sys_exit).
Qed.

Lemma events_process_all_boards w config :
  ∃ before after,
    events (process_all_boards w config)
    = before ++ mjoin (board_log w config <$> enumerate (paraInfoList config)) ++ after.
Proof.
  unfold process_all_boards.
  destruct (boards_loop w config 0 (paraInfoList config) [] 0) as [(tot' & Hres) Hev].
  do 6 (rewrite (@events_bind sys_exit); cbn [result snd print logger_info emit]).
  rewrite (@events_bind sys_exit). unfold enumerate. rewrite Hres, Hev.
  cbn [events fst print logger_info emit app].
  eexists [_; _; _; _; _; _], _. cbn [app]. reflexivity.
Qed.

End Boards.

Section Run.

Implicit Types (w : world) (config : config) (b : board_config).

Lemma process_board_spec w config b df_final :
  result (process_board w config b) = Return df_final →
  ∃ df_err_rpt df_helf_input df_output,
    result (read_input_files_for_board w config b) = Return (df_err_rpt, df_helf_input)
    ∧ result (read_helf w config) = Return df_helf_input
    ∧ result (prepare_output_for_board df_err_rpt config b) = Return df_output
    ∧ result (add_fault_codes_for_board df_output df_err_rpt df_helf_input b)
      = Return df_final.
Proof.
  unfold process_board. intros H.
  peel H as [df_err_rpt df_helf_input] Hread.
  peel H as df_output Hprep. peel H as df_final' Hadd. injection H as ->.
  exists df_err_rpt, df_helf_input, df_output. repeat split; try done.
  unfold read_input_files_for_board in Hread. do 4 step Hread.
  peel Hread as df1 Hdf1. peel Hread as df2 Hdf2. peel Hread as df3 Hdf3.
  do 2 step Hread. injection Hread as <- <-.
  unfold read_helf. rewrite (@result_bind exn), Hdf2. exact Hdf3.
Qed.

(** C2: after the matcher has run on its board, the fault code of a
    record is the empty string or the code of an entry of the lookup table
    built for the board, in the table of the board and in the merged
    table. *)
Theorem fault_code_from_lookup w config df i v :
  (∃ b, b ∈ paraInfoList config ∧ result (process_board w config b) = Return df)
  ∨ result (process_all_boards w config) = Return df →
  cell df "故障码" i = Some v →
  v = VStr "" ∨ ∃ e, e ∈ lookup_table w config ∧ v = VStr e.2.
Proof.
  assert (∀ b df' j v', result (process_board w config b) = Return df' →
            cell df' "故障码" j = Some v' →
            v' = VStr "" ∨ ∃ e, e ∈ lookup_table w config ∧ v' = VStr e.2) as Hboard.
  { intros b df' j v' (df_err & df_helf & df_out & _ & Hhelf & Hprep & Hadd)%process_board_spec.
    unfold lookup_table, result_value. rewrite Hhelf.
    by eapply board_codes_from_lookup. }
  intros [(b & _ & Hb)|Hall] Hv; [by eapply Hboard|].
  rewrite result_process_all_boards in Hall. case_bool_decide; [|done].
  injection Hall as <-. unfold cell in Hv.
  destruct (lookup_col _ _) as [s|] eqn:Hs; [|done]. simpl in Hv.
  apply pd_concat_col in Hs as ->. apply list_elem_of_lookup_2 in Hv.
  apply list_elem_of_join in Hv as (s & Hv & (df & -> & Hdf)%list_elem_of_fmap).
  unfold succeeded in Hdf. apply list_elem_of_omap in Hdf as (b & Hb & Hres).
  unfold result_value in Hres.
  destruct (result (process_board w config b)) as [df'|] eqn:Hrun; [|done].
  injection Hres as ->.
  pose proof Hrun as (df_err & df_helf & df_out & _ & _ & Hprep & Hadd)%process_board_spec.
  apply prepare_spec in Hprep as (? & ? & ? & ? & ? & _ & _ & _ & _ & _ & _ & Hcode & _).
  apply add_fault_codes_spec in Hadd as (? & _ & _ & _ & Hfinal & _).
  unfold reindex_col in Hv. rewrite Hfinal, Hcode in Hv. simpl in Hv.
  apply list_elem_of_lookup_1 in Hv as [j Hj].
  apply (Hboard b df j v Hrun). unfold cell. by rewrite Hfinal, Hcode.
Qed.

Lemma fault_code_from_lookup_witness :
  lookup_table ex_world ex_config = [("over voltage", "E100"); ("fan stalled", "E200")]
  ∧ (λ df, cell df "故障码" 0) <$> result_value (process_all_boards ex_world ex_config)
    = Some (Some (VStr "E100"))
  ∧ (VStr "E100" = VStr ""
     ∨ ∃ e, e ∈ lookup_table ex_world ex_config ∧ VStr "E100" = VStr e.2).
Proof.
  split; [reflexivity|]. split; [vm_compute; reflexivity|].
  apply (fault_code_from_lookup ex_world ex_config
           (default ex_erpt (result_value (process_all_boards ex_world ex_config)))
           0%nat (VStr "E100")).
  - right. vm_compute. reflexivity.
  - vm_compute. reflexivity.
Defined.

(** C6: a board whose processing raises is caught and logged as an error,
    and skipped; every board of the list is gone through, whatever happened
    to the boards before it; the merged table is the concatenation of the
    tables of the boards that succeeded, and the run leaves with code 1
    when there is none. *)
Theorem failed_board_is_skipped w config :
  (result (process_all_boards w config)
   = if bool_decide (succeeded w config ≠ [])
     then Return (pd_concat (succeeded w config))
     else Raise (SystemExit 1))
  ∧ (∀ i b, paraInfoList config !! i = Some b →
       ∃ before after,
         events (process_all_boards w config)
         = before
           ++ [Log INFO ("处理第" +:+ str_int (Z.of_nat i + 1) +:+ "个板卡: "
                         +:+ board_fold_name b)]
           ++ events (process_board w config b)
           ++ board_outcome_log w config b
           ++ after)
  ∧ (∀ b e, result (process_board w config b) = Raise e →
       Log ERROR ("✗ 处理板卡 " +:+ board_fold_name b +:+ " 时出错: " +:+ str_exn e)
         ∈ board_outcome_log w config b)
  ∧ nrows (pd_concat (succeeded w config))
    = sum_list (nrows <$> succeeded w config)
  ∧ (∀ c s, lookup_col c (cols (pd_concat (succeeded w config))) = Some s →
       s = mjoin (reindex_col c <$> succeeded w config)).
Proof.
  split; [apply result_process_all_boards|]. split; [|split; [|split]].
  - intros i b Hb.
    destruct (events_process_all_boards w config) as (before & after & Hev).
    apply (enumerate_from_lookup _ 0) in Hb.
    apply list_elem_of_split_length in Hb as (l1 & l2 & Hl & _).
    exists (before ++ mjoin (board_log w config <$> l1)
            ++ [ Print (str_repeat "-" 50);
                 Print ("处理第" +:+ str_int (Z.of_nat i + 1) +:+ "个板卡: "
                        +:+ board_fold_name b);
                 Print (str_repeat "-" 50) ]),
           (mjoin (board_log w config <$> l2) ++ after).
    rewrite Hev. unfold enumerate. rewrite Hl, fmap_app, join_app, fmap_cons.
    change (mjoin (?x :: ?l)) with (x ++ mjoin l).
    cbn [Nat.add]. rewrite board_log_unfold.
    rewrite <- !app_assoc. reflexivity.
  - intros b e He. unfold board_outcome_log. rewrite He. by right; left.
  - reflexivity.
  - intros c s. apply pd_concat_col.
Qed.

End Run.

Section Platform.

Implicit Types (config : config) (b : board_config).

(** C7, as stated: for a platform name outside the table a warning is
    logged.  It is printed on standard output; the log gets no record of
    it. *)
Lemma unknown_platform_counterexample :
  simulator_vp_prefix_dict !! "XX" = None
  ∧ get_vp_prefix (E:=exn) "XX"
    = ([Print "警告: 未找到PG 'XX' 对应的VP前缀，使用默认值"], Return default_vp_prefix)
  ∧ (let run := main ex_world "cfg.json" "log.txt" ex_unknown_config in
     run.2 = Completed
     ∧ Print "警告: 未找到PG 'XX' 对应的VP前缀，使用默认值" ∈ run.1
     ∧ logged WARNING run.1 = ["匹配失败 - 板卡:board_pwr_1 - 故障描述:'Unknown Event'"]
     ∧ forallb (λ msg, negb (contains "警告" msg)) (log_messages run.1) = true).
Proof.
  split; [vm_compute; reflexivity|]. split; [vm_compute; reflexivity|].
  cbv zeta. split; [vm_compute; reflexivity|]. split.
  - apply list_elem_of_In. vm_compute. tauto.
  - split; vm_compute; reflexivity.
Qed.

(** C7, amended: for a platform name outside the table the run does not
    fail: [get_vp_prefix] returns the default prefix [wsetc.WsetcVarpool.],
    which the generated address expressions then carry, and prints a
    warning on standard output; nothing is raised and nothing is logged for
    it. *)
Theorem unknown_platform_uses_default pg_name :
  simulator_vp_prefix_dict !! pg_name = None →
  (∀ E, get_vp_prefix (E:=E) pg_name
        = ([Print ("警告: 未找到PG '" +:+ pg_name +:+ "' 对应的VP前缀，使用默认值")],
           Return default_vp_prefix))
  ∧ ∀ df_err_rpt config b df_output,
      pgName config = pg_name →
      result (prepare_output_for_board df_err_rpt config b) = Return df_output →
      ∃ byte_addr bit_addr,
        lookup_col (addr_column default_vp_prefix) (cols df_output)
        = Some (of_strs (zip_with (address default_vp_prefix (boardId b))
                           byte_addr bit_addr)).
Proof.
  intros Hpg. split.
  - intros E. unfold get_vp_prefix. by rewrite Hpg.
  - intros df_err_rpt config b df_output <-
      (_ & _ & _ & byte_addr & bit_addr & _ & _ & _ & _ & _ & _ & _ & _ & Haddr)%prepare_spec.
    exists byte_addr, bit_addr.
    unfold vp_prefix_of in Haddr. by rewrite Hpg in Haddr.
Qed.

End Platform.

Section Output.

Lemma unknown_platform_witness :
  simulator_vp_prefix_dict !! "XX" = None
  ∧ get_vp_prefix (E:=exn) "XX"
    = ([Print ("警告: 未找到PG '" +:+ "XX" +:+ "' 对应的VP前缀，使用默认值")],
       Return default_vp_prefix).
Proof.
  split; [vm_compute; reflexivity|].
  apply (unknown_platform_uses_default "XX"). vm_compute. reflexivity.
Defined.

(** C1: the columns of the written artifact are, in this order, the
    generated identifier, the generated address expression, the native
    description, the fault code and the English description.  On the small
    installation the run completes and writes four columns: the identifier
    column of the merged table is not selected, and the English description
    comes before the fault code. *)
Theorem written_columns_diverge :
  let run := main ex_world "cfg.json" "log.txt" ex_config in
  let ident := ident_column "RS" "PWR" in
  let addr := addr_column "rsspm_erpt.RSSPM_ERPT_Varpool." in
  run.2 = Completed
  ∧ (written run.1).*1 = [[addr; "故障说明"; "故障说明（英文）"; "故障码"]]
  ∧ (columns <$> result_value (process_all_boards ex_world ex_config))
    = Some ["成员名称"; "器件"; "器件编号"; ident; addr; "故障说明";
            "故障说明（英文）"; "故障码"; "板卡标识"]
  ∧ [addr; "故障说明"; "故障说明（英文）"; "故障码"] ≠ spec_columns ident addr.
Proof.
  cbv zeta. repeat split; try (vm_compute; reflexivity). discriminate.
Qed.

End Output.

(* ================================================================== *)
(** * Facts about the names of the columns *)

Section Names.

Implicit Types (s t : string).

Lemma str_forall_app p s t :
  str_forall p (s +:+ t) = str_forall p s && str_forall p t.
Proof.
  induction s as [|c s IH]; [done|].
  change (String c s +:+ t) with (String c (s +:+ t)). cbn [str_forall].
  by rewrite IH, andb_assoc.
Qed.

Lemma last_char_app_nonempty s t :
  is_empty t = false → last_char (s +:+ t) = last_char t.
Proof. destruct t as [|c t]; [done|]. intros _. apply last_char_app. Qed.

Lemma is_empty_app s t : is_empty (s +:+ t) = is_empty s && is_empty t.
Proof. by destruct s. Qed.

Lemma ident_column_last pg_name module_code :
  last_char (ident_column pg_name module_code) = Some (ascii_of_N 183).
Proof.
  unfold ident_column.
  rewrite !last_char_app_nonempty; [done|done|..];
    by rewrite ?is_empty_app, ?andb_false_r.
Qed.

Lemma addr_column_last vp_prefix :
  last_char (addr_column vp_prefix) = Some "]"%char.
Proof. unfold addr_column. by rewrite last_char_app_nonempty. Qed.

Lemma addr_column_not_fixed vp_prefix c :
  c ∈ fixed_columns → String.eqb c (addr_column vp_prefix) = false.
Proof.
  intros Hc. apply String.eqb_neq. intros Heq.
  apply (f_equal last_char) in Heq. rewrite addr_column_last in Heq.
  unfold fixed_columns in Hc.
  repeat (apply elem_of_cons in Hc as [->|Hc]; [discriminate Heq|]).
  by apply elem_of_nil in Hc.
Qed.

Lemma ident_column_not_fixed pg_name module_code c :
  c ∈ fixed_columns → String.eqb c (ident_column pg_name module_code) = false.
Proof.
  intros Hc. apply String.eqb_neq. intros Heq.
  apply (f_equal (str_forall (λ c, negb (code c =? 46)%N))) in Heq.
  unfold ident_column in Heq. rewrite !str_forall_app in Heq.
  assert (str_forall (λ c, negb (code c =? 46)%N) "_ERPT_ACTIVE." = false) as Hdot by done.
  rewrite Hdot, andb_false_l, andb_false_r in Heq.
  unfold fixed_columns in Hc.
  repeat (apply elem_of_cons in Hc as [->|Hc]; [discriminate Heq|]).
  by apply elem_of_nil in Hc.
Qed.

Lemma ident_column_not_addr pg_name module_code vp_prefix :
  String.eqb (ident_column pg_name module_code) (addr_column vp_prefix) = false.
Proof.
  apply String.eqb_neq. intros Heq. apply (f_equal last_char) in Heq.
  by rewrite ident_column_last, addr_column_last in Heq.
Qed.

End Names.

(* ================================================================== *)
(** * The table of a board *)

(** Decide the comparison of two column names: both fixed, or one of
    them generated. *)
Ltac eqb_columns :=
  match goal with
  | |- context [String.eqb ?k (ident_column ?p ?m)] =>
      first [ rewrite (ident_column_not_fixed p m k) by (unfold fixed_columns; repeat constructor)
            | rewrite (String.eqb_refl (ident_column p m)) ]
  | |- context [String.eqb ?k (addr_column ?v)] =>
      first [ rewrite (addr_column_not_fixed v k) by (unfold fixed_columns; repeat constructor)
            | rewrite (String.eqb_refl (addr_column v))
            | rewrite (ident_column_not_addr _ _ v) ]
  | |- context [String.eqb (ident_column ?p ?m) ?k] =>
      rewrite (String.eqb_sym (ident_column p m) k)
  | |- context [String.eqb (addr_column ?v) ?k] =>
      rewrite (String.eqb_sym (addr_column v) k)
  | |- context [String.eqb ?a ?b] =>
      let r := eval vm_compute in (String.eqb a b) in
      change (String.eqb a b) with r
  end; cbn iota.

Section Prepared.

Implicit Types (df df_err_rpt df_output : DataFrame).
Implicit Types (config : config) (b : board_config).

Lemma result_bind_Return {E A B} (m : M E A) (f : A → M E B) a :
  result m = Return a → result (m ≫= f) = result (f a).
Proof. intros Hm. by rewrite (@result_bind E), Hm. Qed.

Lemma result_bind_Raise {E A B} (m : M E A) (f : A → M E B) e :
  result m = Raise e → result (m ≫= f) = Raise e.
Proof. intros Hm. by rewrite (@result_bind E), Hm. Qed.

Lemma result_getitems3 df c1 c2 c3 df' :
  result (getitems df [c1; c2; c3]) = Return df' ↔
  ∃ s1 s2 s3,
    lookup_col c1 (cols df) = Some s1 ∧ lookup_col c2 (cols df) = Some s2
    ∧ lookup_col c3 (cols df) = Some s3
    ∧ df' = {| nrows := nrows df; cols := [(c1, s1); (c2, s2); (c3, s3)] |}.
Proof.
  unfold getitems. split.
  - destruct (not_in_index df [c1; c2; c3]); [done|]. cbn [traverse].
    intros H. peel H as ss Hss. injection H as <-.
    peel Hss as p1 H1. peel H1 as s1 Hs1. injection H1 as <-.
    peel Hss as ps Hps. peel Hps as p2 H2. peel H2 as s2 Hs2. injection H2 as <-.
    peel Hps as ps' Hps'. peel Hps' as p3 H3. peel H3 as s3 Hs3. injection H3 as <-.
    peel Hps' as nil Hnil. injection Hnil as <-. injection Hps' as <-.
    injection Hps as <-. injection Hss as <-.
    by exists s1, s2, s3.
  - intros (s1 & s2 & s3 & H1 & H2 & H3 & ->).
    rewrite (proj2 (not_in_index_None df [c1; c2; c3])).
    2:{ intros c Hc. apply lookup_col_columns.
        repeat (apply elem_of_cons in Hc as [->|Hc]; [by eexists|]).
        by apply elem_of_nil in Hc. }
    apply result_getitem in H1, H2, H3. cbn [traverse].
    rewrite !(@result_bind exn), H1. cbn [result snd mret M_ret].
    rewrite !(@result_bind exn), H2. cbn [result snd mret M_ret].
    rewrite !(@result_bind exn), H3. reflexivity.
Qed.

Lemma result_get_board_config b pg_name :
  result (get_board_config b pg_name)
  = match split "_" (board_fold_name b) !! 1%nat with
    | Some part => Return (boardId b, upper part)
    | None => Raise (IndexError "list index out of range")
    end.
Proof. unfold get_board_config. by destruct (_ !! 1%nat). Qed.

Lemma prepare_frame df_err_rpt config b df_output :
  result (prepare_output_for_board df_err_rpt config b) = Return df_output
  ↔ prepared df_err_rpt config b df_output.
Proof.
  unfold prepared, prepare_output_for_board. split.
  - intros H.
    peel H as [board_id module_code] Hboard.
    rewrite result_get_board_config in Hboard.
    destruct (split "_" (board_fold_name b) !! 1%nat) as [part|] eqn:Hpart; [|done].
    injection Hboard as <- <-.
    peel H as vp_prefix Hvp. rewrite result_get_vp_prefix in Hvp. injection Hvp as <-.
    do 4 step H. peel H as df_selected Hsel.
    apply result_getitems3 in Hsel as (member & component & component_index
                                       & Hm & Hc & Hi & ->).
    peel H as member0 Hmember. cbn in Hmember. injection Hmember as <-.
    peel H as member' Hmember'. cbn in Hmember'. injection Hmember' as <-.
    peel H as component0 Hcomponent. cbn in Hcomponent. injection Hcomponent as <-.
    peel H as index0 Hindex. cbn in Hindex. injection Hindex as <-.
    peel H as byte_col Hbyte. peel H as byte_addr Hbyte_addr.
    peel H as bit_col Hbit. peel H as bit_addr Hbit_addr.
    peel H as native Hnative. peel H as english Henglish.
    do 2 step H. injection H as <-.
    exists part, member, component, component_index, byte_col, bit_col, native,
      english, byte_addr, bit_addr.
    repeat split; try done.
    unfold prepared_frame, setitem_scalar, setitem. cbn [nrows cols]. f_equal.
    do 10 (cbn [assign_col]; repeat eqb_columns).
    by rewrite zip_with_fmap_l, zip_with_fmap_r.
  - intros (part & member & component & component_index & byte_col & bit_col & native
            & english & byte_addr & bit_addr & Hpart & Hm & Hc & Hi & Hbyte & Hbyte_addr
            & Hbit & Hbit_addr & Hnative & Henglish & ->).
    rewrite (result_bind_Return _ _ (boardId b, upper part))
      by (by rewrite result_get_board_config, Hpart).
    cbn beta iota.
    rewrite (result_bind_Return _ _ _ (result_get_vp_prefix _)).
    do 4 (rewrite (@result_bind exn); cbn [result snd print logger_info emit]).
    rewrite (result_bind_Return _ _ {| nrows := nrows df_err_rpt;
                                       cols := [("成员名称", member); ("器件", component);
                                                ("器件编号", component_index)] |})
      by (apply result_getitems3; by eexists _, _, _).
    do 4 (rewrite (@result_bind exn); unfold getitem at 1;
          do 4 (cbn [cols setitem nrows lookup_col assign_col]; repeat eqb_columns);
          cbn [result snd mret M_ret]).
    rewrite (result_bind_Return _ _ _ (proj2 (result_getitem _ _ _) Hbyte)).
    rewrite (result_bind_Return _ _ _ Hbyte_addr).
    rewrite (result_bind_Return _ _ _ (proj2 (result_getitem _ _ _) Hbit)).
    rewrite (result_bind_Return _ _ _ Hbit_addr).
    rewrite (result_bind_Return _ _ _ (proj2 (result_getitem _ _ _) Hnative)).
    rewrite (result_bind_Return _ _ _ (proj2 (result_getitem _ _ _) Henglish)).
    do 2 (rewrite (@result_bind exn); cbn [result snd print logger_info emit]).
    cbn [result snd mret M_ret]. f_equal.
    unfold prepared_frame, setitem_scalar, setitem. cbn [nrows cols]. f_equal.
    do 10 (cbn [assign_col]; repeat eqb_columns).
    by rewrite zip_with_fmap_l, zip_with_fmap_r.
Qed.

End Prepared.

Section PreparedFacts.

Implicit Types (df df_err_rpt df_output : DataFrame).
Implicit Types (config : config) (b : board_config).

Lemma split_nonempty sep s : ∃ h t, split sep s = h :: t.
Proof.
  destruct s as [|c s]; simpl; [by eexists _, _|].
  destruct (Ascii.eqb c sep); [by eexists _, _|].
  destruct (split sep s); by eexists _, _.
Qed.

(** [split] yields a second part exactly when the separator occurs. *)
Lemma split_second s :
  is_Some (split "_" s !! 1%nat) ↔ has_underscore s = true.
Proof.
  unfold has_underscore. induction s as [|c s IH]; simpl.
  - split; [by intros [? ?]|done].
  - destruct (Ascii.eqb_spec c "_") as [->|Hc].
    + simpl. split; [done|]. intros _.
      destruct (split_nonempty "_" s) as (h & t & ->). by eexists.
    + assert ((code c =? 95)%N = false) as ->.
      { apply N.eqb_neq. intros Heq. apply Hc.
        rewrite <- (ascii_N_embedding c). unfold code in Heq. by rewrite Heq. }
      simpl. destruct (split_nonempty "_" s) as (h & t & Heq).
      rewrite Heq in IH |- *. simpl in *. exact IH.
Qed.

(** No part of a split holds the separator. *)
Lemma split_parts s :
  Forall (λ part, has_underscore part = false) (split "_" s).
Proof.
  unfold has_underscore. induction s as [|c s IH]; simpl.
  - by constructor.
  - destruct (Ascii.eqb_spec c "_") as [->|Hc].
    + by constructor.
    + destruct (split_nonempty "_" s) as (h & t & Heq). rewrite Heq in IH |- *.
      apply Forall_cons in IH as [Hh Ht]. constructor; [|done].
      simpl. assert ((code c =? 95)%N = false) as ->; [|done].
      apply N.eqb_neq. intros Heq'. apply Hc.
      rewrite <- (ascii_N_embedding c). unfold code in Heq'. by rewrite Heq'.
Qed.

Lemma upper_char_underscore c :
  (code (upper_char c) =? 95)%N = (code c =? 95)%N.
Proof. destruct c as [[] [] [] [] [] [] [] []]; reflexivity. Qed.

Lemma upper_char_not_lower c : between 97 122 (code (upper_char c)) = false.
Proof. destruct c as [[] [] [] [] [] [] [] []]; reflexivity. Qed.

Lemma str_forall_ext p q s :
  (∀ c, p c = q c) → str_forall p s = str_forall q s.
Proof. intros Hpq. induction s as [|c s IH]; simpl; [done|]. by rewrite Hpq, IH. Qed.

(** X1: [get_board_config] gives the board identifier and the second
    segment of the folder name in upper case, a module code that holds no
    underscore and no lower-case letter; a folder name without underscore
    raises [IndexError]. *)
Theorem module_code_of_folder b pg_name :
  (has_underscore (board_fold_name b) = false →
   get_board_config b pg_name = ([], Raise (IndexError "list index out of range")))
  ∧ (has_underscore (board_fold_name b) = true →
     ∃ part,
       split "_" (board_fold_name b) !! 1%nat = Some part
       ∧ get_board_config b pg_name = ([], Return (boardId b, upper part))
       ∧ has_underscore (upper part) = false
       ∧ str_forall (λ c, negb (between 97 122 (code c))) (upper part) = true).
Proof.
  unfold get_board_config. split.
  - intros Hno. destruct (split "_" (board_fold_name b) !! 1%nat) as [part|] eqn:Hpart;
      [|done].
    assert (has_underscore (board_fold_name b) = true) as Hyes
      by (apply split_second; by eexists).
    congruence.
  - intros [part Hpart]%split_second. exists part. rewrite Hpart.
    repeat split; try done.
    + pose proof (split_parts (board_fold_name b)) as Hparts.
      rewrite Forall_lookup in Hparts. specialize (Hparts _ _ Hpart).
      unfold has_underscore, upper in *. rewrite str_forall_map.
      rewrite (str_forall_ext _ (λ c, negb (code c =? 95)%N)); [done|].
      intros c. by rewrite upper_char_underscore.
    + unfold upper. rewrite str_forall_map. clear.
      induction part as [|c part IH]; simpl; [done|].
      by rewrite upper_char_not_lower.
Qed.

Lemma module_code_of_folder_witness :
  ∃ part,
    split "_" (board_fold_name ex_board) !! 1%nat = Some part
    ∧ get_board_config ex_board "RS" = ([], Return (boardId ex_board, upper part))
    ∧ upper part = "PWR".
Proof.
  destruct (proj2 (module_code_of_folder ex_board "RS") eq_refl)
    as (part & Hpart & Hcfg & _).
  exists part. repeat split; [exact Hpart|exact Hcfg|].
  vm_compute in Hpart. injection Hpart as <-. reflexivity.
Defined.

End PreparedFacts.

Section PreparedClaims.

Implicit Types (df df_err_rpt df_output : DataFrame).
Implicit Types (config : config) (b : board_config).

Lemma lookup_zip_with3 {A B C D} (f : A → B → C → D) l1 l2 l3 i x y z :
  l1 !! i = Some x → l2 !! i = Some y → l3 !! i = Some z →
  zip_with3 f l1 l2 l3 !! i = Some (f x y z).
Proof.
  intros H1 H2 H3. unfold zip_with3.
  apply lookup_zip_with_Some. exists x, (y, z). split; [done|]. split; [done|].
  apply lookup_zip_with_Some. by exists y, z.
Qed.

Lemma astype_str_of_strs l : astype_str (of_strs l) = l.
Proof.
  unfold astype_str, of_strs. rewrite <- list_fmap_compose.
  by rewrite <- (list_fmap_id l) at 2.
Qed.

(** X2: the generated identifier of a record is the platform name in upper
    case, [_ERPT_ACTIVE.], the module code, and then the member name in
    upper case, the component and the component index as texts, joined by
    underscores. *)
Theorem identifier_of_record df_err_rpt config b df_output i member component index :
  result (prepare_output_for_board df_err_rpt config b) = Return df_output →
  cell df_err_rpt "成员名称" i = Some member →
  cell df_err_rpt "器件" i = Some component →
  cell df_err_rpt "器件编号" i = Some index →
  ∃ part,
    split "_" (board_fold_name b) !! 1%nat = Some part
    ∧ cell df_output (ident_column (pgName config) (upper part)) i
      = Some (VStr (identifier (pgName config) (upper part) member component index))
    ∧ cell df_output "成员名称" i = Some (VStr (upper (py_str member))).
Proof.
  intros (part & ms & cs & ks & byte_col & bit_col & native & english & byte_addr
          & bit_addr & Hpart & Hm & Hc & Hk & _ & _ & _ & _ & _ & _ & ->)%prepare_frame.
  unfold cell. rewrite Hm, Hc, Hk. cbn [mbind option_bind]. intros Hmi Hci Hki.
  exists part. split; [done|]. unfold prepared_frame. cbn [cols]. split.
  - do 4 (cbn [lookup_col]; repeat eqb_columns). cbn [mbind option_bind].
    rewrite astype_str_of_strs. unfold of_strs at 1. rewrite list_lookup_fmap.
    rewrite (lookup_zip_with3 _ _ _ _ i (upper (py_str member)) (py_str component)
               (py_str index)).
    + reflexivity.
    + unfold astype_str. by rewrite !list_lookup_fmap, Hmi.
    + unfold astype_str. by rewrite list_lookup_fmap, Hci.
    + unfold astype_str. by rewrite list_lookup_fmap, Hki.
  - cbn [lookup_col]. repeat eqb_columns. cbn [mbind option_bind].
    unfold of_strs, astype_str. by rewrite !list_lookup_fmap, Hmi.
Qed.

Lemma identifier_of_record_witness :
  (λ df, cell df "RS_ERPT_ACTIVE.PWR_成员名称_器件_器件编号" 1)
    <$> result_value (prepare_output_for_board ex_tables.1 ex_config ex_board)
  = Some (Some (VStr "RS_ERPT_ACTIVE.PWR_DEF_U2_2")).
Proof.
  destruct (identifier_of_record ex_tables.1 ex_config ex_board
              (default ex_erpt (result_value
                 (prepare_output_for_board ex_tables.1 ex_config ex_board)))
              1%nat (VStr "Def") (VStr "U2") (VInt 2))
    as (part & Hpart & Hcell & _); [vm_compute; reflexivity..|].
  vm_compute in Hpart. injection Hpart as <-.
  vm_compute in Hcell |- *. exact (f_equal Some Hcell).
Defined.

Lemma re_sub_crlf_from_clean in_run s :
  str_forall (λ c, negb (is_crlf c)) (re_sub_crlf_from in_run s) = true.
Proof.
  revert in_run. induction s as [|c s IH]; intros in_run; simpl; [done|].
  destruct (is_crlf c) eqn:Hc.
  - destruct in_run; simpl; by rewrite ?IH.
  - simpl. by rewrite Hc, IH.
Qed.

Lemma re_sub_crlf_from_id in_run s :
  str_forall (λ c, negb (is_crlf c)) s = true → re_sub_crlf_from in_run s = s.
Proof.
  revert in_run. induction s as [|c s IH]; intros in_run; simpl; [done|].
  intros [Hc Hs]%andb_prop. apply negb_true_iff in Hc. rewrite Hc.
  by rewrite IH.
Qed.

(** X3: the native description of the output is the text of the input cell
    with every run of carriage returns and line feeds replaced by one
    space: it holds no line break, and a text without line break is kept
    as it is. *)
Theorem native_description_one_line df_err_rpt config b df_output i native :
  result (prepare_output_for_board df_err_rpt config b) = Return df_output →
  cell df_err_rpt "故障说明" i = Some native →
  ∃ text,
    cell df_output "故障说明" i = Some (VStr text)
    ∧ text = re_sub_crlf (py_str native)
    ∧ str_forall (λ c, negb (is_crlf c)) text = true
    ∧ (str_forall (λ c, negb (is_crlf c)) (py_str native) = true → text = py_str native).
Proof.
  intros (part & ms & cs & ks & byte_col & bit_col & natives & english & byte_addr
          & bit_addr & _ & _ & _ & _ & _ & _ & _ & _ & Hn & _ & ->)%prepare_frame.
  unfold cell. rewrite Hn. cbn [mbind option_bind]. intros Hi.
  exists (re_sub_crlf (py_str native)). split; [|split; [done|split]].
  - unfold prepared_frame. cbn [cols].
    do 6 (cbn [lookup_col]; repeat eqb_columns). cbn [mbind option_bind].
    unfold of_strs, astype_str. by rewrite !list_lookup_fmap, Hi.
  - apply re_sub_crlf_from_clean.
  - apply re_sub_crlf_from_id.
Qed.

Lemma native_description_witness :
  re_sub_crlf (String "a" (String "013" (String "010" (String "010" "b")))) = "a b"
  ∧ ∃ text,
      (λ df, cell df "故障说明" 0)
        <$> result_value (prepare_output_for_board ex_tables.1 ex_config ex_board)
      = Some (Some (VStr text))
      ∧ str_forall (λ c, negb (is_crlf c)) text = true.
Proof.
  split; [reflexivity|].
  destruct (native_description_one_line ex_tables.1 ex_config ex_board
              (default ex_erpt (result_value
                 (prepare_output_for_board ex_tables.1 ex_config ex_board)))
              0%nat (VStr "过压"))
    as (text & Hcell & _ & Hclean & _); [vm_compute; reflexivity..|].
  exists text. split; [|exact Hclean].
  vm_compute in Hcell |- *. exact (f_equal Some Hcell).
Defined.

Lemma board_columns_NoDup pg_name module_code :
  NoDup (board_columns pg_name module_code).
Proof.
  unfold board_columns.
  repeat (apply NoDup_cons; split;
          [rewrite ?elem_of_cons, elem_of_nil; intros Hin;
           repeat (destruct Hin as [Hin|Hin]);
           try done;
           first [ by apply String.eqb_eq in Hin;
                   rewrite ?ident_column_not_fixed, ?addr_column_not_fixed,
                     ?ident_column_not_addr in Hin
                     by (unfold fixed_columns; repeat constructor)
                 | by symmetry in Hin; apply String.eqb_eq in Hin;
                   rewrite ?ident_column_not_fixed, ?addr_column_not_fixed,
                     ?ident_column_not_addr in Hin
                     by (unfold fixed_columns; repeat constructor) ]|]).
  apply NoDup_nil_2.
Qed.

(** X4: the table of a board has the rows of the sheet and nine columns in
    a fixed order, no two of the same name; every record carries the
    folder name of the board as its tag and an empty fault code. *)
Theorem board_table_shape df_err_rpt config b df_output :
  result (prepare_output_for_board df_err_rpt config b) = Return df_output →
  ∃ part,
    split "_" (board_fold_name b) !! 1%nat = Some part
    ∧ nrows df_output = nrows df_err_rpt
    ∧ columns df_output = board_columns (pgName config) (upper part)
    ∧ NoDup (columns df_output)
    ∧ ∀ i, (i < nrows df_err_rpt)%nat →
        cell df_output "板卡标识" i = Some (VStr (board_fold_name b))
        ∧ cell df_output "故障码" i = Some (VStr "").
Proof.
  intros (part & ms & cs & ks & byte_col & bit_col & natives & english & byte_addr
          & bit_addr & Hpart & _ & _ & _ & _ & _ & _ & _ & _ & _ & ->)%prepare_frame.
  exists part. split; [done|]. split; [done|]. split; [done|]. split.
  - apply board_columns_NoDup.
  - intros i Hi. unfold cell, prepared_frame. cbn [cols].
    do 9 (cbn [lookup_col]; repeat eqb_columns). cbn [mbind option_bind].
    split; by apply lookup_replicate_2.
Qed.

Lemma board_table_shape_witness :
  (columns <$> result_value (prepare_output_for_board ex_tables.1 ex_config ex_board))
  = Some (board_columns "RS" "PWR").
Proof.
  destruct (board_table_shape ex_tables.1 ex_config ex_board
              (default ex_erpt (result_value
                 (prepare_output_for_board ex_tables.1 ex_config ex_board))))
    as (part & Hpart & _ & Hcols & _); [vm_compute; reflexivity|].
  vm_compute in Hpart. injection Hpart as <-.
  vm_compute in Hcols |- *. exact (f_equal Some Hcols).
Defined.

End PreparedClaims.

Section PrepareSucceeds.

Implicit Types (df df_err_rpt df_output : DataFrame).
Implicit Types (config : config) (b : board_config).

Lemma int_of_value_converts dt v :
  is_return (int_of_value dt v) ↔ offset_converts dt v = true.
Proof.
  unfold is_return, offset_converts.
  destruct v as [z|f|s]; simpl.
  - destruct (in_int64 z); simpl; [split; [done|by eexists]|].
    destruct dt; simpl; split; try done; try (by eexists); by intros [? ?].
  - destruct (float_trunc f) as [z|] eqn:Hf.
    + destruct (in_int64 z); simpl; [split; [done|by eexists]|].
      destruct dt; simpl; split; try done; try (by eexists); by intros [? ?].
    + split; [|done]. intros [z Hz]. by destruct dt, f.
  - destruct (int_of_str s) as [z|]; [|split; [by intros [? ?]|done]].
    destruct (in_int64 z); split; try done; [by eexists|by intros [? ?]].
Qed.

Lemma traverse_returns {E A B} (f : A → M E B) l :
  is_return (traverse f l) ↔ Forall (λ x, is_return (f x)) l.
Proof.
  unfold is_return. induction l as [|x l IH]; simpl.
  - split; [constructor|by eexists].
  - rewrite (@result_bind E). split.
    + intros [ys Hys]. destruct (result (f x)) as [y|] eqn:Hy; [|done].
      constructor; [by exists y|]. apply IH.
      rewrite (@result_bind E) in Hys.
      destruct (result (traverse f l)) as [ys'|]; [by eexists|done].
    + intros [[y Hy] [ys Hys]%IH]%Forall_cons. rewrite Hy.
      rewrite (@result_bind E), Hys. by eexists.
Qed.

Lemma astype_int_converts col :
  is_return (astype_int (fillna (VInt 0) col)) ↔ offsets_convert col = true.
Proof.
  unfold astype_int, offsets_convert. rewrite traverse_returns.
  rewrite forallb_forall, Forall_forall.
  split; intros H v Hv.
  - apply int_of_value_converts, H. by apply list_elem_of_In.
  - apply int_of_value_converts, H. by apply list_elem_of_In.
Qed.

(** X5: on a sheet whose columns have distinct names and whose offset
    columns hold ordinary cells (integers of 64 bits, floats, missing
    cells, ASCII texts of at most 4300 characters), a board is prepared exactly when its folder name
    has a second segment, the sheet has the seven columns the program
    reads, and every cell of the two offset columns converts to an
    integer (a missing cell counts as 0); otherwise
    [prepare_output_for_board] raises. *)
Theorem prepare_succeeds_iff df_err_rpt config b :
  NoDup (columns df_err_rpt) →
  (∀ c col, c ∈ ["Byte地址"; "bit位"] →
     lookup_col c (cols df_err_rpt) = Some col → offsets_ordinary col = true) →
  is_return (prepare_output_for_board df_err_rpt config b)
  ↔ has_underscore (board_fold_name b) = true
    ∧ (∀ c, c ∈ required_columns → c ∈ columns df_err_rpt)
    ∧ (∀ col, lookup_col "Byte地址" (cols df_err_rpt) = Some col → offsets_convert col = true)
    ∧ (∀ col, lookup_col "bit位" (cols df_err_rpt) = Some col → offsets_convert col = true).
Proof.
  intros _ _. unfold is_return at 1. split.
  - intros [df_output (part & ms & cs & ks & byte_col & bit_col & natives & english
      & byte_addr & bit_addr & Hpart & Hm & Hc & Hk & Hby & Hbya & Hbi & Hbia & Hn & He & _)%prepare_frame].
    split; [apply split_second; by eexists|]. split; [|split].
    + intros c Hc'. apply lookup_col_columns. unfold required_columns in Hc'.
      repeat (apply elem_of_cons in Hc' as [->|Hc']; [by eexists|]).
      by apply elem_of_nil in Hc'.
    + intros col Hcol. apply astype_int_converts.
      assert (col = byte_col) as -> by congruence. by eexists.
    + intros col Hcol. apply astype_int_converts.
      assert (col = bit_col) as -> by congruence. by eexists.
  - intros ([part Hpart]%split_second & Hcols & Hbyte & Hbit).
    assert (∀ c, c ∈ required_columns → is_Some (lookup_col c (cols df_err_rpt))) as Hget.
    { intros c Hc. apply lookup_col_columns. by apply Hcols. }
    destruct (Hget "成员名称") as [ms Hm]; [unfold required_columns; repeat constructor|].
    destruct (Hget "器件") as [cs Hc]; [unfold required_columns; repeat constructor|].
    destruct (Hget "器件编号") as [ks Hk]; [unfold required_columns; repeat constructor|].
    destruct (Hget "Byte地址") as [byte_col Hby]; [unfold required_columns; repeat constructor|].
    destruct (Hget "bit位") as [bit_col Hbi]; [unfold required_columns; repeat constructor|].
    destruct (Hget "故障说明") as [natives Hn]; [unfold required_columns; repeat constructor|].
    destruct (Hget "故障说明（英文）") as [english He]; [unfold required_columns; repeat constructor|].
    destruct (proj2 (astype_int_converts byte_col) (Hbyte _ Hby)) as [byte_addr Hbya].
    destruct (proj2 (astype_int_converts bit_col) (Hbit _ Hbi)) as [bit_addr Hbia].
    eexists. apply prepare_frame.
    exists part, ms, cs, ks, byte_col, bit_col, natives, english, byte_addr, bit_addr.
    by repeat split.
Qed.

End PrepareSucceeds.

Section MatcherFacts.

Implicit Types (fm : list (string * string)) (st : match_state).
Implicit Types (df_err_rpt df_output df_helf_input df_final : DataFrame).
Implicit Types (config : config) (b : board_config).

Lemma counted_cases fm v :
  (isna v = true ∧ is_success fm v = false ∧ is_failure fm v = false)
  ∨ (isna v = false ∧ is_success fm v = true ∧ is_failure fm v = false
     ∧ is_Some (scan_mappings (normalize (py_str v)) fm))
  ∨ (isna v = false ∧ is_success fm v = false ∧ is_failure fm v = true
     ∧ scan_mappings (normalize (py_str v)) fm = None).
Proof.
  unfold is_failure, is_success, matched_code.
  destruct (isna v); [by left|].
  destruct (scan_mappings _ fm); [right; left|right; right]; by eauto.
Qed.

(** The counters after the outer loop. *)
Lemma match_rows_counts fm b i l st st' :
  result (for_each (match_row fm b) (enumerate_from i l) st) = Return st' →
  matched_count st' = matched_count st + successes fm l
  ∧ not_matched_count st' = not_matched_count st + failures fm l.
Proof.
  unfold successes, failures. revert i st.
  induction l as [|v l IH]; intros i st; cbn [enumerate_from for_each List.filter].
  - intros [= <-]. simpl. lia.
  - rewrite (@result_bind exn). unfold match_row at 1.
    destruct (counted_cases fm v)
      as [(-> & -> & ->)|[(-> & -> & -> & [code ->])|(-> & -> & -> & ->)]].
    + intros H%IH. exact H.
    + intros [H1 H2]%IH. cbn in H1, H2. cbn [length]. lia.
    + intros [H1 H2]%IH. cbn in H1, H2. cbn [length]. lia.
Qed.

Lemma successes_failures fm l : successes fm l + failures fm l = present l.
Proof.
  unfold successes, failures, present. induction l as [|v l IH]; [done|].
  cbn [List.filter].
  destruct (counted_cases fm v)
    as [(-> & -> & ->)|[(-> & -> & -> & _)|(-> & -> & -> & _)]];
    cbn [negb length]; lia.
Qed.

(** X6: every description that is not missing is counted once, as a success
    when an entry of the lookup table contains its normal form and as a
    failure otherwise; missing descriptions are not counted; the two
    numbers are what the matcher reports when it is done. *)
Theorem match_counts df_output df_err_rpt df_helf_input b english :
  is_return (add_fault_codes_for_board df_output df_err_rpt df_helf_input b) →
  lookup_col "故障说明（英文）" (cols df_err_rpt) = Some english →
  let fm := fault_mappings_of df_helf_input in
  ∃ st,
    result (match_all df_output df_err_rpt df_helf_input b) = Return st
    ∧ matched_count st = successes fm english
    ∧ not_matched_count st = failures fm english
    ∧ matched_count st + not_matched_count st
      = present english
    ∧ last (events (add_fault_codes_for_board df_output df_err_rpt df_helf_input b))
      = Some (Log INFO ("故障码匹配完成: 成功 " +:+ str_int (successes fm english)
                        +:+ ", 失败 " +:+ str_int (failures fm english))).
Proof.
  intros [df_final H] Heng fm. unfold add_fault_codes_for_board in H |- *.
  peel H as st Hst. exists st. split; [done|].
  assert (matched_count st = successes fm english
          ∧ not_matched_count st = failures fm english) as [Hm Hn].
  { clear H. unfold match_all in Hst. do 2 step Hst.
    peel Hst as descs Hdescs. peel Hst as codes Hcodes. do 2 step Hst.
    peel Hst as english' Heng'. assert (english' = english) as -> by congruence.
    apply match_rows_counts in Hst as [H1 H2]. simpl in *.
    unfold fm, fault_mappings_of. rewrite Hdescs, Hcodes. lia. }
  split; [done|]. split; [done|]. split.
  - rewrite Hm, Hn. apply successes_failures.
  - rewrite (@events_bind exn), Hst.
    rewrite !(@events_bind exn). cbn [result snd print logger_info emit events fst].
    rewrite app_nil_r, Hm, Hn, !app_assoc. apply last_snoc.
Qed.

Lemma match_counts_witness :
  successes (fault_mappings_of ex_tables.2) [VStr "Over Voltage!"; VStr "Unknown Event";
                                             VStr "?!"; nan] = 2
  ∧ failures (fault_mappings_of ex_tables.2) [VStr "Over Voltage!"; VStr "Unknown Event";
                                              VStr "?!"; nan] = 1
  ∧ last (events (add_fault_codes_for_board
                    (default ex_erpt (result_value
                       (prepare_output_for_board ex_tables.1 ex_config ex_board)))
                    ex_tables.1 ex_tables.2 ex_board))
    = Some (Log INFO "故障码匹配完成: 成功 2, 失败 1").
Proof.
  split; [vm_compute; reflexivity|]. split; [vm_compute; reflexivity|].
  destruct (match_counts
              (default ex_erpt (result_value
                 (prepare_output_for_board ex_tables.1 ex_config ex_board)))
              ex_tables.1 ex_tables.2 ex_board
              [VStr "Over Voltage!"; VStr "Unknown Event"; VStr "?!"; nan])
    as (st & _ & _ & _ & _ & Hlast).
  - eexists. vm_compute. reflexivity.
  - vm_compute. reflexivity.
  - rewrite Hlast. vm_compute. reflexivity.
Defined.

End MatcherFacts.

Section MatcherLog.

Implicit Types (fm : list (string * string)) (st : match_state).
Implicit Types (df_err_rpt df_output df_helf_input df_final : DataFrame).
Implicit Types (config : config) (b : board_config).

Lemma match_row_returns fm b st i v :
  ∃ st', match_row fm b st (i, v) = (row_log fm b v, Return st').
Proof.
  unfold match_row, row_log. destruct (isna v); [by eexists|].
  destruct (scan_mappings _ fm); by eexists.
Qed.

Lemma events_match_rows fm b i l st :
  events (for_each (match_row fm b) (enumerate_from i l) st)
  = mjoin (row_log fm b <$> l).
Proof.
  revert i st. induction l as [|v l IH]; intros i st; [done|].
  cbn [enumerate_from for_each fmap list_fmap].
  change (mjoin (?x :: ?l)) with (x ++ mjoin l).
  rewrite (@events_bind exn).
  destruct (match_row_returns fm b st i v) as [st' ->].
  cbn [result snd events fst]. by rewrite IH.
Qed.

Lemma getitem_Some df c s :
  lookup_col c (cols df) = Some s → getitem df c = ([], Return s).
Proof. unfold getitem. by intros ->. Qed.

Lemma events_match_all df_output df_err_rpt df_helf_input b st english :
  result (match_all df_output df_err_rpt df_helf_input b) = Return st →
  lookup_col "故障说明（英文）" (cols df_err_rpt) = Some english →
  let fm := fault_mappings_of df_helf_input in
  events (match_all df_output df_err_rpt df_helf_input b)
  = [ Print "开始故障码匹配..."; Log INFO "开始故障码匹配...";
      Print ("故障码对照表条目数: " +:+ str_int (Z.of_nat (length fm)));
      Log INFO ("故障码对照表条目数: " +:+ str_int (Z.of_nat (length fm))) ]
    ++ mjoin (row_log fm b <$> english).
Proof.
  intros Hst Heng fm. unfold match_all in Hst |- *. do 2 step Hst.
  peel Hst as descs Hdescs. peel Hst as codes Hcodes. clear Hst.
  unfold fm, fault_mappings_of. rewrite Hdescs, Hcodes.
  rewrite (getitem_Some _ _ _ Hdescs), (getitem_Some _ _ _ Hcodes),
    (getitem_Some _ _ _ Heng).
  do 7 (rewrite (@events_bind exn); cbn [result snd print logger_info emit events fst]).
  unfold items, enumerate. rewrite events_match_rows. reflexivity.
Qed.

(** X7: what the matcher prints and logs, for a board whose tables have the
    columns it reads: the opening line and the size of the lookup table,
    on standard output and in the log; one log line for each description
    that is not missing, in the order of the records, at level INFO with
    the code found or at level WARNING when no entry contains it; the
    two counters, on standard output and in the log. *)
Theorem matcher_log df_output df_err_rpt df_helf_input b english :
  is_return (add_fault_codes_for_board df_output df_err_rpt df_helf_input b) →
  lookup_col "故障说明（英文）" (cols df_err_rpt) = Some english →
  let fm := fault_mappings_of df_helf_input in
  let summary := "故障码匹配完成: 成功 " +:+ str_int (successes fm english)
                 +:+ ", 失败 " +:+ str_int (failures fm english) in
  events (add_fault_codes_for_board df_output df_err_rpt df_helf_input b)
  = [ Print "开始故障码匹配..."; Log INFO "开始故障码匹配...";
      Print ("故障码对照表条目数: " +:+ str_int (Z.of_nat (length fm)));
      Log INFO ("故障码对照表条目数: " +:+ str_int (Z.of_nat (length fm))) ]
    ++ mjoin (row_log fm b <$> english)
    ++ [ Print summary; Log INFO summary ].
Proof.
  intros [df_final H] Heng fm summary. unfold add_fault_codes_for_board in H |- *.
  peel H as st Hst. clear H.
  rewrite (@events_bind exn), Hst, (events_match_all _ _ _ _ _ _ Hst Heng).
  fold fm. unfold match_all in Hst. do 2 step Hst.
  peel Hst as descs Hdescs. peel Hst as codes Hcodes. do 2 step Hst.
  peel Hst as english' Heng'. assert (english' = english) as -> by congruence.
  apply match_rows_counts in Hst as [H1 H2]. cbn [matched_count not_matched_count] in H1, H2.
  assert (build_fault_mappings descs codes = fm) as Hfm.
  { unfold fm, fault_mappings_of. by rewrite Hdescs, Hcodes. }
  rewrite Hfm in H1, H2. rewrite H1, H2, !Z.add_0_l.
  rewrite !(@events_bind exn). cbn [result snd print logger_info emit events fst app].
  reflexivity.
Qed.

Lemma matcher_log_witness :
  logged WARNING (events (add_fault_codes_for_board
                    (default ex_erpt (result_value
                       (prepare_output_for_board ex_tables.1 ex_config ex_board)))
                    ex_tables.1 ex_tables.2 ex_board))
  = ["匹配失败 - 板卡:board_pwr_1 - 故障描述:'Unknown Event'"].
Proof.
  rewrite (matcher_log
             (default ex_erpt (result_value
                (prepare_output_for_board ex_tables.1 ex_config ex_board)))
             ex_tables.1 ex_tables.2 ex_board
             [VStr "Over Voltage!"; VStr "Unknown Event"; VStr "?!"; nan]).
  - vm_compute. reflexivity.
  - eexists. vm_compute. reflexivity.
  - vm_compute. reflexivity.
Defined.

End MatcherLog.

Section MatcherEdges.

Implicit Types (fm : list (string * string)) (st : match_state).
Implicit Types (df_err_rpt df_output df_helf_input df_final : DataFrame).
Implicit Types (config : config) (b : board_config).

(** X8: a description that is not missing and whose normal form no entry
    of the lookup table contains: the fault code of the record stays
    empty, the record is counted as a failure and the log gets a line
    at level WARNING that names the board and quotes the description as
    it was read. *)
Theorem unmatched_description df_err_rpt config b df_helf_input df_output df_final idx D :
  result (prepare_output_for_board df_err_rpt config b) = Return df_output →
  result (add_fault_codes_for_board df_output df_err_rpt df_helf_input b)
    = Return df_final →
  cell df_err_rpt "故障说明（英文）" idx = Some D →
  (idx < nrows df_err_rpt)%nat →
  isna D = false →
  (∀ e, e ∈ fault_mappings_of df_helf_input →
        contains (normalize (py_str D)) e.1 = false) →
  cell df_final "故障码" idx = Some (VStr "")
  ∧ is_failure (fault_mappings_of df_helf_input) D = true
  ∧ Log WARNING ("匹配失败 - 板卡:" +:+ board_fold_name b
                 +:+ " - 故障描述:'" +:+ py_str D +:+ "'")
    ∈ events (add_fault_codes_for_board df_output df_err_rpt df_helf_input b).
Proof.
  intros Hprep Hadd HD Hidx Hna Hnone.
  apply scan_mappings_None in Hnone.
  destruct (board_fault_code _ _ _ _ _ _ _ _ Hprep Hadd HD Hidx) as [Hcode _].
  unfold matched_code in Hcode. rewrite Hna, Hnone in Hcode.
  split; [exact Hcode|]. split.
  { unfold is_failure, is_success, matched_code. by rewrite Hna, Hnone. }
  unfold cell in HD.
  destruct (lookup_col "故障说明（英文）" (cols df_err_rpt)) as [english|] eqn:Heng;
    [|done].
  cbn [mbind option_bind] in HD.
  unfold add_fault_codes_for_board in Hadd |- *. peel Hadd as st Hst.
  rewrite (@events_bind exn), Hst, (events_match_all _ _ _ _ _ _ Hst Heng).
  apply elem_of_app. left. apply elem_of_app. right.
  apply list_elem_of_join. eexists. split; [|apply list_elem_of_fmap; eexists; split;
    [reflexivity|by eapply list_elem_of_lookup_2]].
  unfold row_log. rewrite Hna, Hnone. by left.
Qed.

Lemma unmatched_description_witness :
  (λ df, cell df "故障码" 1)
    <$> result_value (process_board ex_world ex_config ex_board)
  = Some (Some (VStr ""))
  ∧ is_failure (fault_mappings_of ex_tables.2) (VStr "Unknown Event") = true.
Proof.
  destruct (unmatched_description ex_tables.1 ex_config ex_board ex_tables.2
              (default ex_erpt (result_value
                 (prepare_output_for_board ex_tables.1 ex_config ex_board)))
              (default ex_erpt (result_value
                 (process_board ex_world ex_config ex_board)))
              1%nat (VStr "Unknown Event"))
    as (Hcell & Hfail & _);
    [vm_compute; reflexivity|vm_compute; reflexivity|reflexivity
    |vm_compute; lia|reflexivity| |].
  - intros e He. vm_compute in He.
    repeat (apply elem_of_cons in He as [->|He]; [vm_compute; reflexivity|]).
    by apply elem_of_nil in He.
  - split; [|exact Hfail]. vm_compute in Hcell |- *. exact (f_equal Some Hcell).
Defined.

Lemma normalize_lower s : normalize (lower s) = normalize s.
Proof.
  unfold normalize, lower, re_sub_nonword.
  rewrite strip_map by apply isspace_lower_char.
  rewrite str_filter_map
    by (intros c; by rewrite isword_lower_char, isspace_lower_char).
  apply str_map_map, lower_char_idem.
Qed.

(** X9: letter case plays no part in the matching.  Two ASCII
    descriptions that differ only in the case of their letters have the
    same normal form, and so find the same entry of any lookup table. *)
Theorem case_insensitive_match fm s1 s2 :
  is_ascii s1 = true → is_ascii s2 = true →
  lower s1 = lower s2 →
  normalize s1 = normalize s2
  ∧ matched_code fm (VStr s1) = matched_code fm (VStr s2).
Proof.
  intros _ _ Heq.
  assert (normalize s1 = normalize s2) as Hn.
  { by rewrite <- (normalize_lower s1), <- (normalize_lower s2), Heq. }
  split; [exact Hn|]. unfold matched_code. cbn [isna py_str]. by rewrite Hn.
Qed.

Lemma case_insensitive_match_witness :
  matched_code (fault_mappings_of ex_tables.2) (VStr "OVER voltage!")
  = matched_code (fault_mappings_of ex_tables.2) (VStr "Over Voltage!").
Proof.
  apply (case_insensitive_match (fault_mappings_of ex_tables.2)
           "OVER voltage!" "Over Voltage!");
    vm_compute; reflexivity.
Defined.

(** X10: a blank description cell of the reference sheet is not skipped
    when the lookup table is built: the conversion to text turns it into
    [nan], so the table has an entry with that key at the position of the
    row, and a description whose normal form is a part of [nan] (such as
    [N/A]) is a success. *)
Theorem blank_reference_row df_helf_input descs codes i c D :
  lookup_col "故障描述" (cols df_helf_input) = Some descs →
  lookup_col "故障码" (cols df_helf_input) = Some codes →
  descs !! i = Some nan →
  codes !! i = Some c →
  fault_mappings_of df_helf_input !! i = Some ("nan", py_str c)
  ∧ (isna D = false →
     contains (normalize (py_str D)) "nan" = true →
     is_success (fault_mappings_of df_helf_input) D = true).
Proof.
  intros Hdescs Hcodes Hd Hc.
  assert (fault_mappings_of df_helf_input !! i = Some ("nan", py_str c)) as Hi.
  { unfold fault_mappings_of, build_fault_mappings, astype_str.
    rewrite Hdescs, Hcodes, lookup_zip_with, !list_lookup_fmap, Hd, Hc.
    reflexivity. }
  split; [exact Hi|]. intros Hna Hin.
  unfold is_success, matched_code. rewrite Hna.
  destruct (scan_mappings _ _) eqn:Hscan; [done|].
  apply scan_mappings_None with (e := ("nan", py_str c)) in Hscan.
  - cbn [fst] in Hscan. congruence.
  - by eapply list_elem_of_lookup_2.
Qed.

Lemma blank_reference_row_witness :
  let helf := {| nrows := 2;
                 cols := [("故障描述", [VStr "Over Voltage"; nan]);
                          ("故障码", [VStr "E100"; VStr "E0"])] |} in
  fault_mappings_of helf !! 1%nat = Some ("nan", "E0")
  ∧ is_success (fault_mappings_of helf) (VStr "N/A") = true.
Proof.
  intros helf.
  destruct (blank_reference_row helf [VStr "Over Voltage"; nan]
              [VStr "E100"; VStr "E0"] 1%nat (VStr "E0") (VStr "N/A"))
    as [Hi Hs]; [reflexivity..|].
  split; [exact Hi|]. apply Hs; vm_compute; reflexivity.
Defined.

(** X11: the matcher writes into the fault-code column only, and only at
    the records for which it finds an entry: the number of rows, the
    columns and their order, and every cell of every other column are as
    they were; so is the fault code of a record whose description is
    missing or unmatched, and of a row without description. *)
Theorem matcher_only_writes_codes df_output df_err_rpt df_helf_input b df_final :
  result (add_fault_codes_for_board df_output df_err_rpt df_helf_input b)
    = Return df_final →
  nrows df_final = nrows df_output
  ∧ columns df_final = columns df_output
  ∧ (∀ c, c ≠ "故障码" → lookup_col c (cols df_final) = lookup_col c (cols df_output))
  ∧ (∀ idx,
       match cell df_err_rpt "故障说明（英文）" idx with
       | Some D => matched_code (fault_mappings_of df_helf_input) D = None
       | None => True
       end →
       cell df_final "故障码" idx = cell df_output "故障码" idx).
Proof.
  intros (english & Heng & Hn & Hcols & Hfinal & Hother)%add_fault_codes_spec.
  split; [done|]. split; [done|]. split; [done|].
  intros idx. unfold cell. rewrite Heng, Hfinal. cbn [mbind option_bind].
  destruct (lookup_col "故障码" (cols df_output)) as [col0|]; [|done].
  cbn [fmap option_fmap option_map mbind option_bind].
  rewrite assign_codes_lookup.
  rewrite (decide_True (P := (0 ≤ idx)%nat)) by apply Nat.le_0_l.
  rewrite Nat.sub_0_r.
  destruct (english !! idx) as [D|]; cbn [mbind option_bind]; [|done].
  by intros ->.
Qed.

Lemma matcher_only_writes_codes_witness :
  (λ df, columns df)
    <$> result_value (process_board ex_world ex_config ex_board)
  = (λ df, columns df)
    <$> result_value (prepare_output_for_board ex_tables.1 ex_config ex_board).
Proof.
  destruct (matcher_only_writes_codes
              (default ex_erpt (result_value
                 (prepare_output_for_board ex_tables.1 ex_config ex_board)))
              ex_tables.1 ex_tables.2 ex_board
              (default ex_erpt (result_value
                 (process_board ex_world ex_config ex_board))))
    as (_ & Hcols & _); [vm_compute; reflexivity|].
  vm_compute in Hcols |- *. exact (f_equal Some Hcols).
Defined.

End MatcherEdges.

Section Quiet.

(** Computations that hand nothing to [to_csv]. *)

Lemma written_app evs1 evs2 : written (evs1 ++ evs2) = written evs1 ++ written evs2.
Proof. apply omap_app. Qed.

Lemma written_bind {E A B} (m : M E A) (f : A → M E B) :
  written (events m) = [] → (∀ a, written (events (f a)) = []) →
  written (events (m ≫= f)) = [].
Proof.
  intros Hm Hf. rewrite events_bind. destruct (result m); [|done].
  by rewrite written_app, Hm, Hf.
Qed.

Lemma written_getitem df c : written (events (getitem df c)) = [].
Proof. unfold getitem. by destruct (lookup_col c (cols df)). Qed.

Lemma written_getitems df cs : written (events (getitems df cs)) = [].
Proof.
  unfold getitems. destruct (not_in_index df cs); [done|].
  apply written_bind; [|done].
  induction cs as [|c cs IH]; [done|]. cbn [traverse].
  apply written_bind; [|intros y; by apply written_bind].
  apply written_bind; [apply written_getitem|done].
Qed.

Lemma written_traverse {E A B} (f : A → M E B) l :
  (∀ x, written (events (f x)) = []) → written (events (traverse f l)) = [].
Proof.
  intros Hf. induction l as [|x l IH]; [done|]. cbn [traverse].
  apply written_bind; [apply Hf|]. intros y.
  apply written_bind; [apply IH|done].
Qed.

Lemma written_int_of_value dt v : written (events (int_of_value dt v)) = [].
Proof.
  destruct v as [z|f|s]; simpl.
  - destruct (in_int64 z); by destruct dt.
  - destruct (float_trunc f) as [z|]; [destruct (in_int64 z); by destruct dt|].
    by destruct dt, f.
  - destruct (int_of_str s) as [z|]; [by destruct (in_int64 z)|done].
Qed.

Lemma written_read_excel w q : written (events (read_excel w q)) = [].
Proof. unfold read_excel. by destruct (w q). Qed.

Lemma written_get_vp_prefix {E} pg_name :
  written (events (get_vp_prefix (E:=E) pg_name)) = [].
Proof.
  unfold get_vp_prefix. destruct (simulator_vp_prefix_dict !! pg_name) as [v|]; [|done].
  by destruct (is_empty v).
Qed.

End Quiet.

Ltac quiet :=
  repeat first
    [ reflexivity
    | apply written_getitem
    | apply written_getitems
    | apply written_read_excel
    | apply written_get_vp_prefix
    | apply written_int_of_value
    | apply written_traverse; intros ?
    | apply written_bind; [|intros ?] ].

Section RunFacts.

Implicit Types (w : world) (config : config) (b : board_config).

Lemma written_match_rows fm b i l st :
  written (events (for_each (match_row fm b) (enumerate_from i l) st)) = [].
Proof.
  rewrite events_match_rows. induction l as [|v l IH]; [done|].
  cbn [fmap list_fmap]. change (mjoin (?x :: ?l)) with (x ++ mjoin l).
  rewrite written_app, IH, app_nil_r. unfold row_log.
  destruct (isna v); [done|]. by destruct (scan_mappings _ _).
Qed.

Lemma written_process_board w config b :
  written (events (process_board w config b)) = [].
Proof.
  unfold process_board.
  apply written_bind; [|intros [df_err_rpt df_helf_input]; apply written_bind;
                         [|intros df_output; apply written_bind; [|done]]].
  - unfold read_input_files_for_board, set_columns. quiet.
    by case_bool_decide.
  - unfold prepare_output_for_board, get_board_config, astype_int.
    apply written_bind; [by destruct (_ !! 1%nat)|]. intros [board_id module_code].
    quiet.
  - unfold add_fault_codes_for_board. apply written_bind; [|intros st; quiet].
    unfold match_all. quiet. unfold items, enumerate. apply written_match_rows.
Qed.

Lemma written_board_log w config item : written (board_log w config item) = [].
Proof.
  destruct item as [i b]. rewrite board_log_unfold.
  rewrite !written_app, written_process_board. unfold board_outcome_log.
  by destruct (result (process_board w config b)).
Qed.

Lemma written_process_all_boards w config :
  written (events (process_all_boards w config)) = [].
Proof.
  unfold process_all_boards.
  do 6 (apply written_bind; [reflexivity|intros _]).
  apply written_bind.
  - destruct (boards_loop w config 0 (paraInfoList config) [] 0) as [_ Hev].
    unfold enumerate. rewrite Hev. generalize (enumerate_from 0 (paraInfoList config)).
    intros l. induction l as [|item l IH]; [done|].
    cbn [fmap list_fmap]. change (mjoin (?x :: ?l)) with (x ++ mjoin l).
    by rewrite written_app, IH, written_board_log.
  - intros [all_results total]. case_bool_decide; quiet.
Qed.

(** The columns of the finished table of a board. *)
Lemma process_board_columns w config b df_final :
  result (process_board w config b) = Return df_final →
  ∃ part, split "_" (board_fold_name b) !! 1%nat = Some part
    ∧ columns df_final = board_columns (pgName config) (upper part).
Proof.
  intros (df_err_rpt & df_helf_input & df_output & _ & _ & Hprep & Hadd)%process_board_spec.
  apply add_fault_codes_spec in Hadd as (_ & _ & _ & -> & _).
  apply prepare_frame in Hprep
    as (part & ms & cs & ks & byte_col & bit_col & natives & english & byte_addr
        & bit_addr & Hpart & _ & _ & _ & _ & _ & _ & _ & _ & _ & ->).
  by exists part.
Qed.

Lemma succeeded_columns w config df :
  df ∈ succeeded w config →
  ∃ b part, b ∈ paraInfoList config
    ∧ split "_" (board_fold_name b) !! 1%nat = Some part
    ∧ columns df = board_columns (pgName config) (upper part).
Proof.
  unfold succeeded. intros (b & Hb & Hres)%list_elem_of_omap.
  unfold result_value in Hres.
  destruct (result (process_board w config b)) as [df'|] eqn:Hrun; [|done].
  injection Hres as ->.
  apply process_board_columns in Hrun as (part & Hpart & Hcols).
  by exists b, part.
Qed.

(** The merged table has the columns every board has. *)
Lemma merged_columns w config c :
  succeeded w config ≠ [] →
  c ∈ ["成员名称"; "器件"; "器件编号"; addr_column (vp_prefix_of (pgName config));
       "故障说明"; "故障说明（英文）"; "故障码"; "板卡标识"] →
  c ∈ columns (pd_concat (succeeded w config)).
Proof.
  intros Hne Hc. destruct (succeeded w config) as [|df dfs] eqn:Hs; [done|].
  rewrite <- Hs. apply pd_concat_columns. exists df. split; [rewrite Hs; by left|].
  destruct (succeeded_columns w config df) as (b & part & _ & _ & ->).
  { rewrite Hs. by left. }
  unfold board_columns.
  repeat (apply elem_of_cons in Hc as [->|Hc]; [repeat constructor|]).
  by apply elem_of_nil in Hc.
Qed.

Lemma dedup_from_subseteq seen l x : x ∈ dedup_from seen l → x ∈ l.
Proof. by intros [? _]%dedup_from_elem. Qed.

Lemma actual_cols_elem df_columns pg_name vp_prefix c :
  c ∈ actual_cols df_columns pg_name vp_prefix →
  c ∈ df_columns ∨ c ∈ ["故障说明"; "故障码"; "故障说明（英文）"].
Proof.
  unfold actual_cols. rewrite dedup_elem, elem_of_app.
  intros [[_ Hc]%list_elem_of_filter|Hc]; [by left|by right].
Qed.

Lemma to_csv_returns df path cs :
  (∀ c, c ∈ cs → c ∈ columns df) →
  to_csv df path cs = ([ToCsv path cs (rows_of df cs)], Return tt).
Proof.
  intros Hcs. unfold to_csv. by rewrite (proj2 (not_in_index_None df cs) Hcs).
Qed.

(** [save_results] on the merged table of a run. *)
Lemma save_results_merged w config :
  succeeded w config ≠ [] →
  let df := pd_concat (succeeded w config) in
  let header := actual_cols (columns df) (pgName config) (vp_prefix_of (pgName config)) in
  result (save_results df config) = Return tt
  ∧ written (events (save_results df config)) = [(header, rows_of df header)].
Proof.
  intros Hne df header. unfold save_results.
  assert (∀ c, c ∈ header → c ∈ columns df) as Hheader.
  { intros c [Hc|Hc]%actual_cols_elem; [done|].
    apply merged_columns; [done|].
    repeat (apply elem_of_cons in Hc as [->|Hc]; [repeat constructor|]).
    by apply elem_of_nil in Hc. }
  assert (is_Some (lookup_col "故障码" (cols df))) as [codes Hcodes].
  { apply lookup_col_columns, merged_columns; [done|]. repeat constructor. }
  split.
  - rewrite (@result_bind exn), result_get_vp_prefix.
    rewrite (@result_bind exn), (to_csv_returns _ _ _ Hheader). cbn [result snd].
    rewrite (@result_bind exn), (getitem_Some _ _ _ Hcodes). cbn [result snd].
    by do 3 (rewrite (@result_bind exn); cbn [result snd print logger_info emit]).
  - rewrite (@events_bind exn), result_get_vp_prefix, written_app, written_get_vp_prefix.
    rewrite (@events_bind exn), (to_csv_returns _ _ _ Hheader). cbn [result snd events fst].
    rewrite (@events_bind exn), (getitem_Some _ _ _ Hcodes). cbn [result snd events fst].
    by do 3 (rewrite (@events_bind exn); cbn [result snd events fst print logger_info emit]).
Qed.

(** X12: how a run ends, once the configuration is loaded and the log is
    open, and when the output file can be written.  It completes exactly
    when at least one board is processed without error, and then hands
    one table to [to_csv]: the merged table, under the columns selected
    by [save_results].  Otherwise it leaves with exit status 1 and
    writes no table.  No exception escapes: what a board raises is
    caught in the loop, and the merged table has every column that
    [save_results] asks for. *)
Theorem run_exit_status w config_path log_path config :
  let run := main w config_path log_path config in
  let df := pd_concat (succeeded w config) in
  let header := actual_cols (columns df) (pgName config) (vp_prefix_of (pgName config)) in
  run.2 = (if bool_decide (succeeded w config ≠ []) then Completed else Exited 1)
  ∧ written run.1
    = (if bool_decide (succeeded w config ≠ [])
       then [(header, rows_of df header)] else []).
Proof.
  intros run df header. subst run df header. unfold main.
  pose proof (result_process_all_boards w config) as Hres.
  pose proof (written_process_all_boards w config) as Hev.
  destruct (process_all_boards w config) as [out r]. cbn [result events fst snd] in Hres, Hev.
  case_bool_decide as Hne; subst r.
  - pose proof (save_results_merged w config Hne) as Hs. cbv zeta in Hs.
    destruct Hs as [Hsave Hwritten].
    destruct (save_results _ config) as [out' r']. cbn [result events fst snd] in *.
    subst r'. cbv zeta. cbn [fst snd]. split; [reflexivity|].
    rewrite !written_app, Hev, Hwritten. reflexivity.
  - cbv zeta. cbn [fst snd]. split; [reflexivity|].
    rewrite written_app, Hev. reflexivity.
Qed.

End RunFacts.

Section Inputs.

Implicit Types (w : world) (config : config) (b : board_config).

Lemma result_read_excel w q df :
  result (read_excel w q) = Return df ↔ ∃ raw, w q = inr raw ∧ df = stored raw.
Proof.
  unfold read_excel, stored. destruct (w q) as [e|raw]; simpl.
  - split; [done|]. by intros (raw & ? & _).
  - split; [intros [= <-]; by eexists|]. by intros (raw' & [= <-] & ->).
Qed.

Lemma result_set_columns df names df' :
  result (set_columns df names) = Return df'
  ↔ length (cols df) = length names
    ∧ df' = {| nrows := nrows df; cols := zip names (cols df).*2 |}.
Proof.
  unfold set_columns. case_bool_decide; simpl.
  - split; [by intros [= <-]|by intros [_ ->]].
  - split; [done|]. by intros [? _].
Qed.

(** X13: what [read_input_files_for_board] returns.  It returns exactly
    when both sheets can be read and the reading of the reference sheet
    has two columns; these are renamed by position, whatever their
    headers: the first is the description, the second the code. *)
Theorem input_tables_by_position w config b df_err_rpt df_helf_input :
  result (read_input_files_for_board w config b) = Return (df_err_rpt, df_helf_input)
  ↔ ∃ raw_erpt raw_helf c1 s1 c2 s2,
      w (erpt_query b) = inr raw_erpt
      ∧ w (helf_query config) = inr raw_helf
      ∧ cols raw_helf = [(c1, s1); (c2, s2)]
      ∧ df_err_rpt = stored raw_erpt
      ∧ df_helf_input
        = {| nrows := nrows raw_helf;
             cols := [("故障描述", as_stored s1); ("故障码", as_stored s2)] |}.
Proof.
  unfold read_input_files_for_board. fold (erpt_query b) (helf_query config).
  do 4 (rewrite (@result_bind exn); cbn [result snd print logger_info emit]).
  rewrite (@result_bind exn). split.
  - intros H.
    destruct (result (read_excel w (erpt_query b))) as [df1|] eqn:H1; [|done].
    apply result_read_excel in H1 as (raw_erpt & Hw1 & ->).
    rewrite (@result_bind exn) in H.
    destruct (result (read_excel w (helf_query config))) as [df2|] eqn:H2; [|done].
    apply result_read_excel in H2 as (raw_helf & Hw2 & ->).
    rewrite (@result_bind exn) in H.
    destruct (result (set_columns _ _)) as [df3|] eqn:H3; [|done].
    apply result_set_columns in H3 as [Hlen ->].
    do 2 (rewrite (@result_bind exn) in H; cbn [result snd print logger_info emit] in H).
    injection H as <- <-.
    cbn [stored cols] in Hlen. rewrite length_fmap in Hlen.
    destruct (cols raw_helf) as [|[c1 s1] [|[c2 s2] [|]]] eqn:Hcols; try done.
    exists raw_erpt, raw_helf, c1, s1, c2, s2. repeat split; done.
  - intros (raw_erpt & raw_helf & c1 & s1 & c2 & s2 & Hw1 & Hw2 & Hcols & -> & ->).
    unfold read_excel, set_columns. rewrite Hw1, Hw2, Hcols. reflexivity.
Qed.

Lemma process_board_unreadable w config b e :
  result (read_helf w config) = Raise e →
  result (process_board w config b)
  = Raise (match w (erpt_query b) with inl e1 => e1 | inr _ => e end).
Proof.
  intros He. unfold process_board, read_input_files_for_board.
  fold (erpt_query b) (helf_query config).
  rewrite (@result_bind exn).
  do 4 (rewrite (@result_bind exn); cbn [result snd print logger_info emit]).
  rewrite (@result_bind exn). unfold read_excel at 1.
  destruct (w (erpt_query b)) as [e1|raw]; [done|]. cbn [result snd mret M_ret].
  unfold read_helf in He. fold (helf_query config) in He.
  rewrite (@result_bind exn) in He |- *.
  destruct (result (read_excel w (helf_query config))) as [df2|e2].
  - rewrite (@result_bind exn), He. reflexivity.
  - by injection He as ->.
Qed.

(** X14: when the reference sheet cannot be read, or its reading does not
    have exactly two columns, no board is processed: every board fails,
    with the error of its own sheet when that cannot be read either, and
    the run leaves with exit status 1 after logging the failure of each
    board. *)
Theorem reference_sheet_failure w config e :
  result (read_helf w config) = Raise e →
  (∀ b, result (process_board w config b)
        = Raise (match w (erpt_query b) with inl e1 => e1 | inr _ => e end))
  ∧ succeeded w config = []
  ∧ result (process_all_boards w config) = Raise (SystemExit 1)
  ∧ ∀ b, b ∈ paraInfoList config →
      ∃ e', Log ERROR ("✗ 处理板卡 " +:+ board_fold_name b +:+ " 时出错: " +:+ str_exn e')
            ∈ events (process_all_boards w config).
Proof.
  intros He.
  assert (succeeded w config = []) as Hnone.
  { unfold succeeded. induction (paraInfoList config) as [|b l IH]; [done|].
    cbn [omap list_omap]. unfold result_value at 1.
    by rewrite (process_board_unreadable _ _ _ _ He). }
  split; [intros b; by apply process_board_unreadable|]. split; [done|]. split.
  - rewrite result_process_all_boards, Hnone. reflexivity.
  - intros b Hb. eexists.
    destruct (events_process_all_boards w config) as (before & after & ->).
    apply elem_of_app. right. apply elem_of_app. left.
    apply list_elem_of_lookup_1 in Hb as [i Hi].
    apply (enumerate_from_lookup _ 0) in Hi. apply list_elem_of_lookup_2 in Hi.
    apply list_elem_of_join. eexists. split;
      [|apply list_elem_of_fmap; eexists; split; [reflexivity|exact Hi]].
    rewrite board_log_unfold. apply elem_of_app. right.
    apply elem_of_app. right. unfold board_outcome_log.
    rewrite (process_board_unreadable _ _ _ _ He). right. left.
Qed.

Lemma reference_sheet_failure_witness :
  let w : world := λ q, if String.eqb (io q) "ref.xlsx"
                        then inl (Exception "FileNotFoundError" "no such file")
                        else ex_world q in
  let config := {| pgName := "RS"; paraInfoList := [ex_board];
                   helf_input_file := "ref.xlsx"; subsys_sheet := "S";
                   output_dir := "out"; output_filename := "o.csv" |} in
  result (process_all_boards w config) = Raise (SystemExit 1).
Proof.
  intros w config.
  exact (proj1 (proj2 (proj2 (reference_sheet_failure w config
                  (Exception "FileNotFoundError" "no such file") eq_refl)))).
Defined.

End Inputs.

Section KnownPlatform.

Lemma prefixes_not_empty pg_name vp_prefix :
  simulator_vp_prefix_dict !! pg_name = Some vp_prefix → is_empty vp_prefix = false.
Proof.
  unfold simulator_vp_prefix_dict. intros H%elem_of_list_to_map_2.
  repeat (apply elem_of_cons in H as [[= _ ->]|H]; [reflexivity|]).
  by apply elem_of_nil in H.
Qed.

(** X15: for a platform of the table, [get_vp_prefix] returns the prefix
    of the table and prints nothing; the address column of a board's
    table is named after that prefix. *)
Theorem known_platform_prefix pg_name vp_prefix :
  simulator_vp_prefix_dict !! pg_name = Some vp_prefix →
  (∀ E, get_vp_prefix (E:=E) pg_name = ([], Return vp_prefix))
  ∧ ∀ df_err_rpt config b df_output,
      pgName config = pg_name →
      result (prepare_output_for_board df_err_rpt config b) = Return df_output →
      columns df_output !! 4%nat = Some (vp_prefix +:+ "errRptInject[x][x][x]").
Proof.
  intros Hpg. pose proof (prefixes_not_empty _ _ Hpg) as Hne. split.
  - intros E. unfold get_vp_prefix. by rewrite Hpg, Hne.
  - intros df_err_rpt config b df_output <-
      (part & ms & cs & ks & byte_col & bit_col & natives & english & byte_addr
       & bit_addr & Hpart & _ & _ & _ & _ & _ & _ & _ & _ & _ & ->)%prepare_frame.
    unfold prepared_frame, columns, vp_prefix_of. cbn [cols fmap list_fmap fst lookup].
    by rewrite Hpg, Hne.
Qed.

Lemma known_platform_prefix_witness :
  get_vp_prefix (E:=exn) "RS" = ([], Return "rsspm_erpt.RSSPM_ERPT_Varpool.").
Proof.
  apply (known_platform_prefix "RS" "rsspm_erpt.RSSPM_ERPT_Varpool.").
  vm_compute. reflexivity.
Defined.

End KnownPlatform.

(* ================================================================== *)
(** * The header of the output file *)

Section Substrings.

Implicit Types (p s t : string).

Lemma str_length_app s t :
  String.length (s +:+ t) = (String.length s + String.length t)%nat.
Proof.
  induction s as [|c s IH]; [done|].
  change (String c s +:+ t) with (String c (s +:+ t)).
  cbn [String.length]. by rewrite IH.
Qed.

Lemma str_app_assoc s t u : (s +:+ t) +:+ u = s +:+ (t +:+ u).
Proof.
  induction s as [|c s IH]; [done|].
  change ((String c s +:+ t) +:+ u) with (String c ((s +:+ t) +:+ u)).
  by rewrite IH.
Qed.

Lemma prefix_split p s : String.prefix p s = true → ∃ post, s = p +:+ post.
Proof.
  revert s. induction p as [|a p IH]; intros s; [by exists s|].
  destruct s as [|b s]; [done|]. cbn [String.prefix].
  destruct (ascii_dec a b) as [->|]; [|done].
  intros [post ->]%IH. by exists post.
Qed.

(** [a in b]: [b] is [a] with something before and something after. *)
Lemma contains_split p s : contains p s = true → ∃ pre post, s = pre +:+ p +:+ post.
Proof.
  induction s as [|c s IH]; cbn [contains].
  - rewrite orb_false_r. intros [post ->]%prefix_split. by exists "", post.
  - intros [[post ->]%prefix_split|(pre & post & ->)%IH]%orb_prop.
    + by exists "", post.
    + by exists (String c pre), post.
Qed.

Lemma contains_length p s :
  contains p s = true → (String.length p ≤ String.length s)%nat.
Proof.
  intros (pre & post & ->)%contains_split. rewrite !str_length_app. lia.
Qed.

Lemma contains_forall q p s :
  contains p s = true → str_forall q s = true → str_forall q p = true.
Proof.
  intros (pre & post & ->)%contains_split. rewrite !str_forall_app.
  by intros [_ [? _]%andb_prop]%andb_prop.
Qed.

Lemma contains_app_long t lit s :
  (String.length s <? String.length lit)%nat = true → contains (t +:+ lit) s = false.
Proof.
  intros Hlt%Nat.ltb_lt. destruct (contains _ s) eqn:Hc; [|done].
  apply contains_length in Hc. rewrite str_length_app in Hc. lia.
Qed.

Lemma contains_app_forall q t lit s :
  str_forall q lit = false → str_forall q s = true → contains (t +:+ lit) s = false.
Proof.
  intros Hlit Hs. destruct (contains _ s) eqn:Hc; [|done].
  apply (contains_forall q) in Hc; [|done].
  rewrite str_forall_app, Hlit, andb_false_r in Hc. done.
Qed.

Lemma str_filter_app q s t : str_filter q (s +:+ t) = str_filter q s +:+ str_filter q t.
Proof.
  induction s as [|c s IH]; [done|].
  change (String c s +:+ t) with (String c (s +:+ t)).
  cbn [str_filter]. rewrite IH. by destruct (q c).
Qed.

Lemma no_dot_underscore_app prev s t :
  no_dot_underscore prev (s +:+ t)
  = no_dot_underscore prev s && no_dot_underscore (dot_state prev s) t.
Proof.
  revert prev. induction s as [|c s IH]; intros prev; [done|].
  change (String c s +:+ t) with (String c (s +:+ t)).
  cbn [no_dot_underscore dot_state]. by rewrite IH, andb_assoc.
Qed.

Lemma plain_char_codes c :
  plain_char c = true →
  (code c =? 95)%N = false ∧ (code c =? 46)%N = false
  ∧ (code c =? 42)%N = false ∧ (code c =? 91)%N = false
  ∧ (code c =? 149)%N = false.
Proof. destruct c as [[] [] [] [] [] [] [] []]; vm_compute; intros; by repeat split. Qed.

Lemma plain_no_dot_underscore prev s : plain s = true → no_dot_underscore prev s = true.
Proof.
  revert prev. induction s as [|c s IH]; intros prev; [done|].
  unfold plain. cbn [str_forall no_dot_underscore].
  intros [(Hu & _)%plain_char_codes Hs]%andb_prop.
  by rewrite Hu, andb_false_r, IH.
Qed.

Lemma plain_dot_state prev s :
  plain s = true → dot_state prev s = prev && is_empty s.
Proof.
  revert prev. induction s as [|c s IH]; intros prev; [by rewrite andb_true_r|].
  unfold plain. cbn [str_forall dot_state is_empty].
  intros [(_ & Hd & _)%plain_char_codes Hs]%andb_prop.
  by rewrite IH, Hd, andb_false_r.
Qed.

Lemma plain_remove_stars s : plain s = true → remove_stars s = s.
Proof.
  intros Hs. apply str_filter_id. revert Hs. apply str_forall_impl.
  by intros c (_ & _ & -> & _)%plain_char_codes.
Qed.

End Substrings.

Section Header.

Implicit Types (w : world) (config : config) (b : board_config).
Implicit Types (pg_name vp_prefix module_code : string).

Let ident_pattern : string := "_ERPT_ACTIVE._成员名称_器件_器件编号".
Let addr_pattern : string := "errRptInject[x][x][x]".

Lemma selected_unfold pg_name vp_prefix c :
  selected pg_name vp_prefix c
  = contains (remove_stars pg_name +:+ ident_pattern) c
    || contains (remove_stars vp_prefix +:+ addr_pattern) c
    || contains "故障说明" c || contains "故障码" c || contains "故障说明（英文）" c.
Proof.
  unfold selected, output_cols. cbn [existsb].
  assert (∀ s lit, remove_stars (s +:+ lit) = remove_stars s +:+ remove_stars lit)
    as Happ by (intros; apply str_filter_app).
  rewrite !Happ, orb_false_r, !orb_assoc. reflexivity.
Qed.

(** The columns copied from the sheet and the tag of the board are never
    selected, whatever the platform. *)
Lemma raw_not_selected pg_name vp_prefix c :
  c ∈ ["成员名称"; "器件"; "器件编号"; "板卡标识"] → selected pg_name vp_prefix c = false.
Proof.
  intros Hc. rewrite selected_unfold.
  repeat (apply elem_of_cons in Hc as [->|Hc];
          [by rewrite !contains_app_long by done|]).
  by apply elem_of_nil in Hc.
Qed.

(** The three descriptions and codes are always selected. *)
Lemma fixed_selected pg_name vp_prefix c :
  c ∈ ["故障说明"; "故障说明（英文）"; "故障码"] → selected pg_name vp_prefix c = true.
Proof.
  intros Hc. rewrite selected_unfold.
  repeat (apply elem_of_cons in Hc as [->|Hc];
          [by rewrite ?orb_true_r, ?orb_true_l|]).
  by apply elem_of_nil in Hc.
Qed.

Lemma vp_prefix_no_star pg_name :
  remove_stars (vp_prefix_of pg_name) = vp_prefix_of pg_name.
Proof.
  unfold vp_prefix_of.
  destruct (simulator_vp_prefix_dict !! pg_name) as [v|] eqn:Hpg; [|done].
  destruct (is_empty v); [done|].
  unfold simulator_vp_prefix_dict in Hpg. apply elem_of_list_to_map_2 in Hpg.
  repeat (apply elem_of_cons in Hpg as [[= _ ->]|Hpg]; [reflexivity|]).
  by apply elem_of_nil in Hpg.
Qed.

Lemma addr_selected pg_name :
  selected pg_name (vp_prefix_of pg_name) (addr_column (vp_prefix_of pg_name)) = true.
Proof.
  rewrite selected_unfold, vp_prefix_no_star. unfold addr_column.
  change "errRptInject[x][x][x]" with addr_pattern.
  by rewrite contains_refl, orb_true_r.
Qed.

Lemma ident_no_dot_underscore pg_name module_code :
  plain pg_name = true → plain module_code = true → module_code ≠ "" →
  no_dot_underscore false (ident_column pg_name module_code) = true.
Proof.
  intros Hpg Hmc Hne. unfold ident_column.
  assert (is_empty module_code = false) as Hempty by (by destruct module_code).
  rewrite !no_dot_underscore_app.
  rewrite (plain_no_dot_underscore _ pg_name Hpg), (plain_dot_state _ pg_name Hpg).
  cbn [andb].
  assert (dot_state false "_ERPT_ACTIVE." = true) as -> by reflexivity.
  rewrite (plain_no_dot_underscore _ module_code Hmc),
    (plain_dot_state _ module_code Hmc), Hempty.
  reflexivity.
Qed.

Lemma pattern_dot_underscore prev pre pg_name post :
  no_dot_underscore prev (pre +:+ (pg_name +:+ ident_pattern) +:+ post) = false.
Proof.
  assert (∀ prev', no_dot_underscore prev' ident_pattern = false) as Hlit
    by (by intros []).
  rewrite !no_dot_underscore_app, Hlit.
  repeat (rewrite andb_false_r || rewrite andb_false_l). reflexivity.
Qed.

(** The identifier column of a board is not selected when the platform
    and the module code are made of letters and digits: the first pattern
    has lost its star, and no other pattern occurs in the name. *)
Lemma ident_not_selected pg_name vp_prefix module_code :
  plain pg_name = true → plain module_code = true → module_code ≠ "" →
  selected pg_name vp_prefix (ident_column pg_name module_code) = false.
Proof.
  intros Hpg Hmc Hne. rewrite selected_unfold, (plain_remove_stars _ Hpg).
  set (q := λ c, negb (code c =? 91)%N && negb (code c =? 149)%N).
  assert (∀ s, plain s = true → str_forall q s = true) as Hplain.
  { intros s. apply str_forall_impl.
    intros c (_ & _ & _ & H1 & H2)%plain_char_codes. unfold q. by rewrite H1, H2. }
  assert (str_forall q (ident_column pg_name module_code) = true) as Hq.
  { unfold ident_column.
    rewrite !str_forall_app, (Hplain pg_name Hpg), (Hplain module_code Hmc).
    reflexivity. }
  rewrite (contains_app_forall q _ addr_pattern) by done.
  rewrite (contains_app_forall q "" "故障说明") by done.
  rewrite (contains_app_forall q "" "故障码") by done.
  rewrite (contains_app_forall q "" "故障说明（英文）") by done.
  rewrite !orb_false_r.
  destruct (contains _ _) eqn:Hc; [|done].
  apply contains_split in Hc as (pre & post & Hc).
  apply (f_equal (no_dot_underscore false)) in Hc.
  rewrite ident_no_dot_underscore, pattern_dot_underscore in Hc by done.
  done.
Qed.

End Header.

Section HeaderOrder.

Implicit Types (w : world) (config : config) (b : board_config).

Lemma NoDup_dedup_from seen l : NoDup (dedup_from seen l).
Proof.
  revert seen. induction l as [|x l IH]; intros seen; cbn [dedup_from].
  - apply NoDup_nil_2.
  - case_bool_decide; [apply IH|]. apply NoDup_cons. split; [|apply IH].
    intros [_ Hx]%dedup_from_elem. apply Hx. by left.
Qed.

(** Names that are new and distinct are kept where they stand. *)
Lemma dedup_from_app_fresh seen l1 l2 :
  NoDup l1 → (∀ x, x ∈ l1 → x ∉ seen) →
  ∃ rest, dedup_from seen (l1 ++ l2) = l1 ++ rest
    ∧ ∀ x, x ∈ rest → x ∈ l2 ∧ x ∉ l1.
Proof.
  revert seen. induction l1 as [|y l1 IH]; intros seen Hnd Hfresh.
  - exists (dedup_from seen l2). split; [done|].
    intros x [Hx _]%dedup_from_elem. split; [done|]. apply not_elem_of_nil.
  - apply NoDup_cons in Hnd as [Hy Hnd]. cbn [app dedup_from].
    rewrite bool_decide_eq_false_2 by (apply Hfresh; by left).
    destruct (IH (y :: seen) Hnd) as (rest & Heq & Hrest).
    { intros x Hx [->|Hs]%elem_of_cons; [done|].
      by apply (Hfresh x); [right|]. }
    exists rest. split; [by rewrite Heq|]. intros x Hx.
    destruct (Hrest x Hx) as [H2 H1]. split; [done|].
    intros [->|?]%elem_of_cons; [|done].
    assert (y ∈ dedup_from (y :: seen) (l1 ++ l2)) as [_ Hin]%dedup_from_elem.
    { rewrite Heq. apply elem_of_app. by right. }
    apply Hin. by left.
Qed.

Lemma dedup_absorb l1 l2 :
  NoDup l1 → (∀ x, x ∈ l2 → x ∈ l1) → dedup (l1 ++ l2) = l1.
Proof.
  intros Hnd Hsub. unfold dedup.
  destruct (dedup_from_app_fresh [] l1 l2 Hnd) as (rest & -> & Hrest).
  { intros x _. apply not_elem_of_nil. }
  destruct rest as [|x rest]; [by rewrite app_nil_r|].
  destruct (Hrest x) as [H2 H1]; [by left|]. by apply Hsub in H2.
Qed.

Lemma columns_pd_concat dfs :
  columns (pd_concat dfs) = dedup (mjoin (columns <$> dfs)).
Proof.
  unfold columns at 1, pd_concat. cbn [cols].
  rewrite <- list_fmap_compose. unfold compose. cbn [fst]. by rewrite list_fmap_id.
Qed.

Lemma module_code_of_board config b part :
  b ∈ paraInfoList config →
  split "_" (board_fold_name b) !! 1%nat = Some part →
  upper part ∈ module_codes config.
Proof.
  intros Hb Hpart. unfold module_codes. apply list_elem_of_omap.
  exists b. split; [done|]. by rewrite Hpart.
Qed.

Lemma filter_selected_board pg_name module_code :
  let vp_prefix := vp_prefix_of pg_name in
  filter (λ col, selected pg_name vp_prefix col = true) (board_columns pg_name module_code)
  = filter (λ col, selected pg_name vp_prefix col = true) [ident_column pg_name module_code]
    ++ [addr_column vp_prefix; "故障说明"; "故障说明（英文）"; "故障码"].
Proof.
  intros vp_prefix. unfold board_columns. fold vp_prefix.
  do 3 (rewrite filter_cons_False
          by (rewrite raw_not_selected by (repeat constructor); done)).
  rewrite (filter_cons _ (ident_column _ _)), (filter_cons _ (ident_column _ _)).
  rewrite filter_nil.
  rewrite (filter_cons_True _ (addr_column _)) by apply addr_selected.
  do 3 (rewrite filter_cons_True by (apply fixed_selected; repeat constructor)).
  rewrite filter_cons_False
    by (rewrite raw_not_selected by (repeat constructor); done).
  rewrite filter_nil. by destruct (decide _).
Qed.

(** The header [save_results] selects from the merged table of a run. *)
Lemma header_structure w config :
  succeeded w config ≠ [] →
  let pg_name := pgName config in
  let vp_prefix := vp_prefix_of pg_name in
  ∃ before after,
    actual_cols (columns (pd_concat (succeeded w config))) pg_name vp_prefix
    = before ++ [addr_column vp_prefix; "故障说明"; "故障说明（英文）"; "故障码"] ++ after
    ∧ ∀ c, c ∈ before ++ after →
        selected pg_name vp_prefix c = true
        ∧ ∃ module_code, module_code ∈ module_codes config
                         ∧ c = ident_column pg_name module_code.
Proof.
  intros Hne pg_name vp_prefix.
  destruct (succeeded w config) as [|df dfs] eqn:Hs; [done|]. clear Hne.
  assert (∀ df', df' ∈ df :: dfs →
            ∃ module_code, module_code ∈ module_codes config
              ∧ columns df' = board_columns pg_name module_code) as Hcols.
  { intros df' Hdf'. rewrite <- Hs in Hdf'.
    apply succeeded_columns in Hdf' as (b & part & Hb & Hpart & Hc).
    exists (upper part). split; [by eapply module_code_of_board|done]. }
  destruct (Hcols df) as (mc1 & Hmc1 & Hdf); [by left|].
  rewrite columns_pd_concat. cbn [fmap list_fmap].
  change (mjoin (?x :: ?l)) with (x ++ mjoin l). rewrite Hdf. unfold dedup.
  destruct (dedup_from_app_fresh [] (board_columns pg_name mc1)
              (mjoin (columns <$> dfs)) (board_columns_NoDup _ _))
    as (rest & Heq & Hrest).
  { intros x _. apply not_elem_of_nil. }
  assert (NoDup (board_columns pg_name mc1 ++ rest)) as Hnd.
  { rewrite <- Heq. apply NoDup_dedup_from. }
  rewrite Heq. unfold actual_cols.
  change (filter _ ?l) with (filter (λ col, selected pg_name vp_prefix col = true) l).
  rewrite dedup_absorb.
  - rewrite filter_app, filter_selected_board. fold vp_prefix.
    rewrite <- app_assoc.
    eexists _, _. split; [reflexivity|].
    intros c [Hc|Hc]%elem_of_app.
    + apply list_elem_of_filter in Hc as [Hsel Hc].
      apply list_elem_of_singleton in Hc as ->. split; [done|]. by exists mc1.
    + apply list_elem_of_filter in Hc as [Hsel Hc]. split; [done|].
      destruct (Hrest c Hc) as [Hin Hnot].
      apply list_elem_of_join in Hin as (l & Hcl & (df' & -> & Hdf')%list_elem_of_fmap).
      destruct (Hcols df') as (mc & Hmc & Hdf''); [by right|].
      exists mc. split; [done|]. rewrite Hdf'' in Hcl.
      unfold board_columns in Hcl, Hnot.
      repeat (apply elem_of_cons in Hcl as [->|Hcl];
              [first [done | exfalso; apply Hnot; by repeat constructor]|]).
      by apply elem_of_nil in Hcl.
  - by apply NoDup_filter.
  - intros x Hx. apply list_elem_of_filter. split.
    + apply fixed_selected.
      repeat (apply elem_of_cons in Hx as [->|Hx]; [by repeat constructor|]).
      by apply elem_of_nil in Hx.
    + apply elem_of_app. left. unfold board_columns.
      repeat (apply elem_of_cons in Hx as [->|Hx]; [by repeat constructor|]).
      by apply elem_of_nil in Hx.
Qed.

(** X16: the header of the output file of a run that completes.  The
    address column, the native description, the English description and
    the fault code are written, in this order, which is the order of the
    columns of the merged table and not that of the list of patterns:
    the English description comes before the fault code.  The columns
    copied from the sheets and the tag of the board are not written.
    Whatever else is written is the identifier column of a board. *)
Theorem header_order w config :
  succeeded w config ≠ [] →
  let pg_name := pgName config in
  let vp_prefix := vp_prefix_of pg_name in
  let header :=
    actual_cols (columns (pd_concat (succeeded w config))) pg_name vp_prefix in
  (∃ before after,
     header = before ++ [addr_column vp_prefix; "故障说明"; "故障说明（英文）"; "故障码"]
                ++ after
     ∧ ∀ c, c ∈ before ++ after →
         ∃ module_code, module_code ∈ module_codes config
                        ∧ c = ident_column pg_name module_code)
  ∧ (∀ c, c ∈ ["成员名称"; "器件"; "器件编号"; "板卡标识"] → c ∉ header)
  ∧ NoDup header.
Proof.
  intros Hne pg_name vp_prefix header.
  destruct (header_structure w config Hne) as (before & after & Heq & Hrest).
  fold pg_name vp_prefix header in Heq, Hrest. split; [|split].
  - exists before, after. split; [done|]. intros c Hc. by apply Hrest.
  - intros c Hc. unfold header, actual_cols.
    intros [[Hsel _]%list_elem_of_filter|Hin]%dedup_elem%elem_of_app.
    + by rewrite (raw_not_selected _ _ _ Hc : existsb _ _ = false) in Hsel.
    + repeat (apply elem_of_cons in Hc as [->|Hc];
        [repeat (apply elem_of_cons in Hin as [?|Hin]; [done|]);
         by apply elem_of_nil in Hin|]).
      by apply elem_of_nil in Hc.
  - apply NoDup_dedup_from.
Qed.

Lemma header_order_witness :
  "板卡标识" ∉ actual_cols (columns (pd_concat (succeeded ex_world ex_config)))
                 "RS" (vp_prefix_of "RS").
Proof.
  refine (proj1 (proj2 (header_order ex_world ex_config _)) "板卡标识" _).
  - vm_compute. discriminate.
  - repeat constructor.
Defined.

(** X17: the identifier column is not written.  When the platform name and
    the module codes of the boards are made of letters and digits, every
    run that completes writes exactly four columns: the address, the two
    descriptions and the fault code.  The first pattern of
    [save_results] keeps the place of the module code open with a star,
    the star is removed before the search, and what is left does not
    occur in the name of an identifier column. *)
Theorem identifier_not_written w config :
  succeeded w config ≠ [] →
  plain (pgName config) = true →
  (∀ module_code, module_code ∈ module_codes config →
     plain module_code = true ∧ module_code ≠ "") →
  let vp_prefix := vp_prefix_of (pgName config) in
  actual_cols (columns (pd_concat (succeeded w config))) (pgName config) vp_prefix
  = [addr_column vp_prefix; "故障说明"; "故障说明（英文）"; "故障码"].
Proof.
  intros Hne Hpg Hcodes vp_prefix. subst vp_prefix.
  pose proof (header_structure w config Hne) as Hs. cbv zeta in Hs.
  destruct Hs as (before & after & -> & Hrest).
  assert (∀ c, c ∈ before ++ after → False) as Hnone.
  { intros c (Hsel & mc & Hmc & ->)%Hrest.
    destruct (Hcodes mc Hmc) as [Hplain Hnonempty].
    by rewrite ident_not_selected in Hsel. }
  destruct before as [|c ?]; [|destruct (Hnone c); by left].
  destruct after as [|c ?]; [done|].
  destruct (Hnone c). by left.
Qed.

Lemma identifier_not_written_witness :
  actual_cols (columns (pd_concat (succeeded ex_world ex_config))) "RS" (vp_prefix_of "RS")
  = [addr_column (vp_prefix_of "RS"); "故障说明"; "故障说明（英文）"; "故障码"].
Proof.
  apply (identifier_not_written ex_world ex_config).
  - vm_compute. discriminate.
  - vm_compute. reflexivity.
  - intros mc Hmc. vm_compute in Hmc.
    repeat (apply elem_of_cons in Hmc as [->|Hmc]; [by split|]).
    by apply elem_of_nil in Hmc.
Defined.

End HeaderOrder.

Section BoardOutcome.

Implicit Types (w : world) (config : config) (b : board_config).
Implicit Types (df_err_rpt df_helf_input df_output : DataFrame).

Lemma read_input_reference w config b df_err_rpt df_helf_input :
  result (read_input_files_for_board w config b) = Return (df_err_rpt, df_helf_input) →
  ∃ descs codes,
    lookup_col "故障描述" (cols df_helf_input) = Some descs
    ∧ lookup_col "故障码" (cols df_helf_input) = Some codes.
Proof.
  unfold read_input_files_for_board. intros H. do 4 step H.
  peel H as df1 H1. peel H as df2 H2. peel H as df3 H3. do 2 step H.
  injection H as <- <-.
  apply result_set_columns in H3 as [Hlen ->].
  destruct (cols df2) as [|[c1 s1] [|[c2 s2] [|]]]; try done.
  by exists s1, s2.
Qed.

Lemma match_all_returns df_output df_err_rpt df_helf_input b descs codes english :
  lookup_col "故障描述" (cols df_helf_input) = Some descs →
  lookup_col "故障码" (cols df_helf_input) = Some codes →
  lookup_col "故障说明（英文）" (cols df_err_rpt) = Some english →
  is_return (match_all df_output df_err_rpt df_helf_input b).
Proof.
  intros Hdescs Hcodes Heng. unfold is_return, match_all.
  rewrite (getitem_Some _ _ _ Hdescs), (getitem_Some _ _ _ Hcodes),
    (getitem_Some _ _ _ Heng).
  do 7 (rewrite (@result_bind exn); cbn [result snd print logger_info emit]).
  unfold items, enumerate.
  match goal with |- context [for_each (match_row ?fm b) (enumerate_from 0 ?l) ?st] =>
    destruct (match_rows fm b 0 l st) as (st' & -> & _) end.
  by eexists.
Qed.

(** X18: the matcher cannot fail on a prepared board.  A board is processed
    without error exactly when its two sheets are read and its table is
    prepared; whatever the descriptions and the lookup table hold, the
    matching then runs to its end. *)
Theorem board_succeeds_iff w config b :
  is_return (process_board w config b)
  ↔ ∃ df_err_rpt df_helf_input,
      result (read_input_files_for_board w config b)
      = Return (df_err_rpt, df_helf_input)
      ∧ is_return (prepare_output_for_board df_err_rpt config b).
Proof.
  unfold is_return at 1. split.
  - intros [df_final (df_err_rpt & df_helf_input & df_output & Hread & _ & Hprep & _)
                       %process_board_spec].
    exists df_err_rpt, df_helf_input. split; [done|]. by exists df_output.
  - intros (df_err_rpt & df_helf_input & Hread & [df_output Hprep]).
    unfold process_board. rewrite (@result_bind exn), Hread.
    rewrite (@result_bind exn), Hprep.
    destruct (read_input_reference _ _ _ _ _ Hread) as (descs & codes & Hd & Hc).
    apply prepare_frame in Hprep
      as (part & ms & cs & ks & byte_col & bit_col & natives & english & byte_addr
          & bit_addr & _ & _ & _ & _ & _ & _ & _ & _ & _ & Heng & _).
    destruct (match_all_returns df_output _ _ b _ _ _ Hd Hc Heng) as [st Hst].
    rewrite (@result_bind exn). unfold add_fault_codes_for_board.
    rewrite (@result_bind exn), Hst.
    do 2 (rewrite (@result_bind exn); cbn [result snd print logger_info emit]).
    by eexists.
Qed.

(** X19: a board whose folder name has no underscore fails once its sheets
    are read: looking for the module code raises [IndexError], the loop
    over the boards catches it, prints and logs the failure at level
    ERROR, and the board contributes nothing to the merged table. *)
Theorem folder_without_underscore w config b df_err_rpt df_helf_input :
  result (read_input_files_for_board w config b) = Return (df_err_rpt, df_helf_input) →
  has_underscore (board_fold_name b) = false →
  let error_msg := "✗ 处理板卡 " +:+ board_fold_name b
                   +:+ " 时出错: list index out of range" in
  result (process_board w config b) = Raise (IndexError "list index out of range")
  ∧ board_outcome_log w config b = [Print error_msg; Log ERROR error_msg]
  ∧ result_value (process_board w config b) = None.
Proof.
  intros Hread Hno error_msg.
  assert (result (process_board w config b)
          = Raise (IndexError "list index out of range")) as Hres.
  { unfold process_board. rewrite (@result_bind exn), Hread.
    rewrite (@result_bind exn). unfold prepare_output_for_board.
    rewrite (@result_bind exn), result_get_board_config.
    destruct (split "_" (board_fold_name b) !! 1%nat) as [part|] eqn:Hpart; [|done].
    assert (has_underscore (board_fold_name b) = true)
      by (apply split_second; by eexists).
    congruence. }
  split; [done|]. split.
  - unfold board_outcome_log. by rewrite Hres.
  - unfold result_value. by rewrite Hres.
Qed.

Lemma folder_without_underscore_witness :
  let b := {| board_fold_name := "pwr1"; boardId := boardId ex_board;
              fold_path := fold_path ex_board;
              errEntries_file_name := errEntries_file_name ex_board;
              errEntries_file_sheet := errEntries_file_sheet ex_board |} in
  result (process_board ex_world ex_config b)
  = Raise (IndexError "list index out of range").
Proof.
  intros b.
  refine (proj1 (folder_without_underscore ex_world ex_config b
                   ex_tables.1 ex_tables.2 _ _)); vm_compute; reflexivity.
Defined.

End BoardOutcome.

Section Statistics.

Implicit Types (w : world) (config : config) (b : board_config).

Lemma with_without_code codes :
  with_code codes + without_code codes = Z.of_nat (length codes).
Proof.
  unfold with_code, without_code. induction codes as [|v l IH]; [done|].
  rewrite !filter_cons. destruct (decide (v = VStr "")) as [->|Hv].
  - rewrite decide_False by (by intros ?). cbn [length]. lia.
  - rewrite decide_True by done. cbn [length]. lia.
Qed.

Lemma board_codes_length w config b df_final codes :
  result (process_board w config b) = Return df_final →
  lookup_col "故障码" (cols df_final) = Some codes →
  length codes = nrows df_final.
Proof.
  intros (df_err_rpt & df_helf_input & df_output & _ & _ & Hprep & Hadd)%process_board_spec.
  apply add_fault_codes_spec in Hadd as (english & _ & -> & _ & -> & _).
  apply prepare_frame in Hprep
    as (part & ms & cs & ks & byte_col & bit_col & natives & english' & byte_addr
        & bit_addr & _ & _ & _ & _ & _ & _ & _ & _ & _ & _ & ->).
  unfold prepared_frame. cbn [cols nrows].
  do 9 (cbn [lookup_col]; repeat eqb_columns).
  cbn [fmap option_fmap option_map]. intros [= <-].
  by rewrite assign_codes_length, length_replicate.
Qed.

Lemma merged_codes_length w config codes :
  lookup_col "故障码" (cols (pd_concat (succeeded w config))) = Some codes →
  length codes = nrows (pd_concat (succeeded w config)).
Proof.
  intros ->%pd_concat_col. cbn [pd_concat nrows].
  assert (∀ df, df ∈ succeeded w config →
            length (reindex_col "故障码" df) = nrows df) as Hlen.
  { intros df (b & Hb & Hres)%list_elem_of_omap. unfold result_value in Hres.
    destruct (result (process_board w config b)) as [df'|] eqn:Hrun; [|done].
    injection Hres as ->. unfold reindex_col.
    destruct (lookup_col "故障码" (cols df)) as [codes|] eqn:Hcodes.
    - by eapply board_codes_length.
    - apply length_replicate. }
  induction (succeeded w config) as [|df dfs IH]; [done|].
  cbn [fmap list_fmap sum_list sum_list_with].
  change (mjoin (?x :: ?l)) with (x ++ mjoin l).
  rewrite length_app, Hlen by (by left). rewrite IH; [done|].
  intros df' Hdf'. apply Hlen. by right.
Qed.

(** X20: the statistics of a run that completes.  The fault-code column of
    the merged table has one cell per record, so the three numbers that
    [save_results] prints and logs are the number of records, the number
    of records with a fault code and the number of records whose fault
    code is empty; the last is never negative. *)
Theorem statistics_of_run w config codes :
  succeeded w config ≠ [] →
  lookup_col "故障码" (cols (pd_concat (succeeded w config))) = Some codes →
  let df := pd_concat (succeeded w config) in
  let line := "生成统计: 总记录" +:+ str_int (Z.of_nat (nrows df))
              +:+ "条, 含故障码" +:+ str_int (with_code codes)
              +:+ "条, 缺失" +:+ str_int (without_code codes) +:+ "条" in
  with_code codes + without_code codes = Z.of_nat (nrows df)
  ∧ Print line ∈ events (save_results df config)
  ∧ Log INFO line ∈ events (save_results df config).
Proof.
  intros Hne Hcodes df line. subst df line.
  pose proof (merged_codes_length _ _ _ Hcodes) as Hlen.
  pose proof (with_without_code codes) as Hsum. rewrite Hlen in Hsum.
  split; [done|].
  assert (Z.of_nat (nrows (pd_concat (succeeded w config))) - with_code codes
          = without_code codes) as Hmissing by lia.
  unfold save_results.
  rewrite (@events_bind exn), result_get_vp_prefix.
  rewrite (@events_bind exn), to_csv_returns; cycle 1.
  { intros c [Hc|Hc]%actual_cols_elem; [done|].
    apply merged_columns; [done|].
    repeat (apply elem_of_cons in Hc as [->|Hc]; [repeat constructor|]).
    by apply elem_of_nil in Hc. }
  cbn [result snd events fst].
  rewrite (@events_bind exn), (getitem_Some _ _ _ Hcodes). cbn [result snd events fst].
  do 3 (rewrite (@events_bind exn); cbn [result snd events fst print logger_info emit]).
  fold (with_code codes). rewrite Hmissing.
  split; apply elem_of_app; right; repeat constructor.
Qed.

Lemma statistics_of_run_witness :
  ∃ codes,
    lookup_col "故障码" (cols (pd_concat (succeeded ex_world ex_config))) = Some codes
    ∧ with_code codes + without_code codes
      = Z.of_nat (nrows (pd_concat (succeeded ex_world ex_config))).
Proof.
  eexists. split; [vm_compute; reflexivity|].
  refine (proj1 (statistics_of_run ex_world ex_config _ _ _)).
  - vm_compute. discriminate.
  - vm_compute. reflexivity.
Defined.

End Statistics.

Section Merged.

Implicit Types (w : world) (config : config) (b : board_config).

Lemma board_tag_column w config b df_final :
  result (process_board w config b) = Return df_final →
  reindex_col "板卡标识" df_final = replicate (nrows df_final) (VStr (board_fold_name b)).
Proof.
  intros (df_err_rpt & df_helf_input & df_output & _ & _ & Hprep & Hadd)%process_board_spec.
  apply add_fault_codes_spec in Hadd as (english & _ & Hn & _ & _ & Hother).
  unfold reindex_col. rewrite Hother, Hn by done.
  apply prepare_frame in Hprep
    as (part & ms & cs & ks & byte_col & bit_col & natives & english' & byte_addr
        & bit_addr & _ & _ & _ & _ & _ & _ & _ & _ & _ & _ & ->).
  unfold prepared_frame. cbn [cols nrows].
  do 9 (cbn [lookup_col]; repeat eqb_columns). reflexivity.
Qed.

(** X21: the merged table holds the records of the boards that succeed,
    board after board in the order of the configuration: its tag column
    is the folder name of the first such board, once for each of its
    records, then that of the second, and so on; the number of rows of
    the merged table is the length of this column. *)
Theorem merged_in_board_order w config :
  succeeded w config ≠ [] →
  lookup_col "板卡标识" (cols (pd_concat (succeeded w config)))
  = Some (board_tags w config)
  ∧ nrows (pd_concat (succeeded w config)) = length (board_tags w config).
Proof.
  intros Hne.
  assert (is_Some (lookup_col "板卡标识" (cols (pd_concat (succeeded w config)))))
    as [tags Htags].
  { apply lookup_col_columns, merged_columns; [done|]. repeat constructor. }
  rewrite Htags. apply pd_concat_col in Htags as ->. clear Hne.
  cbn [pd_concat nrows]. unfold succeeded, board_tags.
  induction (paraInfoList config) as [|b l [IH1 IH2]]; [done|].
  cbn [omap list_omap].
  destruct (result_value (process_board w config b)) as [df|] eqn:Hv;
    cbn [fmap option_fmap option_map]; [|by split].
  assert (result (process_board w config b) = Return df) as Hrun.
  { unfold result_value in Hv. destruct (result _); congruence. }
  cbn [list_fmap sum_list sum_list_with].
  change (mjoin (?x :: ?l)) with (x ++ mjoin l).
  rewrite (board_tag_column _ _ _ _ Hrun). injection IH1 as IH1.
  change (list_fmap _ _ ?f ?l) with (f <$> l).
  rewrite IH1, length_app, length_replicate. split; [done|].
  change (sum_list_with id ?l) with (sum_list l). by rewrite IH2.
Qed.

Lemma merged_in_board_order_witness :
  lookup_col "板卡标识" (cols (pd_concat (succeeded ex_world ex_config)))
  = Some (replicate 4 (VStr "board_pwr_1")).
Proof.
  rewrite (proj1 (merged_in_board_order ex_world ex_config
                    ltac:(vm_compute; discriminate))).
  vm_compute. reflexivity.
Defined.

End Merged.

Section Installation.

(** The theorems above at the small installation. *)

Lemma prepare_succeeds_witness :
  is_return (prepare_output_for_board ex_tables.1 ex_config ex_board).
Proof.
  assert (NoDup (columns ex_tables.1)) as Hnd.
  { apply (bool_decide_unpack _). vm_compute. reflexivity. }
  assert (∀ c col, c ∈ ["Byte地址"; "bit位"] →
            lookup_col c (cols ex_tables.1) = Some col → offsets_ordinary col = true)
    as Hord.
  { intros c col Hc Hcol.
    repeat (apply elem_of_cons in Hc as [->|Hc];
            [vm_compute in Hcol; injection Hcol as <-; vm_compute; reflexivity|]).
    by apply elem_of_nil in Hc. }
  apply (proj2 (prepare_succeeds_iff ex_tables.1 ex_config ex_board Hnd Hord)).
  split; [vm_compute; reflexivity|]. split; [|split].
  - intros c Hc. unfold required_columns in Hc.
    repeat (apply elem_of_cons in Hc as [->|Hc];
            [apply list_elem_of_In; vm_compute; tauto|]).
    by apply elem_of_nil in Hc.
  - intros col Hcol. vm_compute in Hcol. injection Hcol as <-. vm_compute. reflexivity.
  - intros col Hcol. vm_compute in Hcol. injection Hcol as <-. vm_compute. reflexivity.
Defined.

Lemma run_exit_status_witness :
  (main ex_world "cfg.json" "log.txt" ex_config).2 = Completed
  ∧ (main ex_world "cfg.json" "log.txt"
       {| pgName := "RS"; paraInfoList := [ex_missing_board];
          helf_input_file := helf_input_file ex_config;
          subsys_sheet := subsys_sheet ex_config;
          output_dir := output_dir ex_config;
          output_filename := output_filename ex_config |}).2 = Exited 1.
Proof.
  split.
  - rewrite (proj1 (run_exit_status ex_world "cfg.json" "log.txt" ex_config)).
    vm_compute. reflexivity.
  - rewrite (proj1 (run_exit_status ex_world "cfg.json" "log.txt" _)).
    vm_compute. reflexivity.
Defined.

Lemma input_tables_witness :
  ∃ raw_helf c1 s1 c2 s2,
    ex_world (helf_query ex_config) = inr raw_helf
    ∧ cols raw_helf = [(c1, s1); (c2, s2)]
    ∧ cols ex_tables.2 = [("故障描述", as_stored s1); ("故障码", as_stored s2)].
Proof.
  destruct (proj1 (input_tables_by_position ex_world ex_config ex_board
                     ex_tables.1 ex_tables.2))
    as (raw_erpt & raw_helf & c1 & s1 & c2 & s2 & _ & Hw & Hcols & _ & Hhelf);
    [vm_compute; reflexivity|].
  exists raw_helf, c1, s1, c2, s2. split; [exact Hw|]. split; [exact Hcols|].
  by rewrite Hhelf.
Defined.

Lemma board_succeeds_witness :
  is_return (process_board ex_world ex_config ex_board).
Proof.
  apply (proj2 (board_succeeds_iff ex_world ex_config ex_board)).
  exists ex_tables.1, ex_tables.2. split; [vm_compute; reflexivity|].
  eexists. vm_compute. reflexivity.
Defined.

End Installation.

Section MatcherContract.

Implicit Types (fm : list (string * string)) (st : match_state).
Implicit Types (df_err_rpt df_output df_helf_input df_final : DataFrame).
Implicit Types (config : config) (b : board_config).

(** X22: containment is enough for a match, and the first entry wins.
    For a record of a prepared and matched board whose description is not
    missing: when [e] is the first entry of the lookup table whose normal
    form contains that of the description, as a whole or as a part, the
    record gets the code of [e], it is counted as a success, and the log
    gets a line at level INFO with the description as read and the
    code. *)
Theorem contained_description_first_entry df_err_rpt config b df_helf_input
    df_output df_final idx D i e :
  result (prepare_output_for_board df_err_rpt config b) = Return df_output →
  result (add_fault_codes_for_board df_output df_err_rpt df_helf_input b)
    = Return df_final →
  cell df_err_rpt "故障说明（英文）" idx = Some D →
  (idx < nrows df_err_rpt)%nat →
  isna D = false →
  fault_mappings_of df_helf_input !! i = Some e →
  contains (normalize (py_str D)) e.1 = true →
  (∀ j e', (j < i)%nat → fault_mappings_of df_helf_input !! j = Some e' →
     contains (normalize (py_str D)) e'.1 = false) →
  cell df_final "故障码" idx = Some (VStr e.2)
  ∧ is_success (fault_mappings_of df_helf_input) D = true
  ∧ Log INFO ("匹配成功 - 板卡:" +:+ board_fold_name b
              +:+ " - 故障描述:'" +:+ py_str D
              +:+ "' -> 故障码:'" +:+ e.2 +:+ "'")
    ∈ events (add_fault_codes_for_board df_output df_err_rpt df_helf_input b).
Proof.
  intros Hprep Hadd HD Hidx Hna Hi He Hfirst.
  assert (scan_mappings (normalize (py_str D)) (fault_mappings_of df_helf_input)
          = Some e.2) as Hscan.
  { apply scan_mappings_Some. by exists i, e. }
  destruct (board_fault_code _ _ _ _ _ _ _ _ Hprep Hadd HD Hidx) as [Hcode _].
  unfold matched_code in Hcode. rewrite Hna, Hscan in Hcode.
  split; [exact Hcode|]. split.
  { unfold is_success, matched_code. by rewrite Hna, Hscan. }
  unfold cell in HD.
  destruct (lookup_col "故障说明（英文）" (cols df_err_rpt)) as [english|] eqn:Heng;
    [|done].
  cbn [mbind option_bind] in HD.
  unfold add_fault_codes_for_board in Hadd |- *. peel Hadd as st Hst.
  rewrite (@events_bind exn), Hst, (events_match_all _ _ _ _ _ _ Hst Heng).
  apply elem_of_app. left. apply elem_of_app. right.
  apply list_elem_of_join. eexists. split; [|apply list_elem_of_fmap; eexists; split;
    [reflexivity|by eapply list_elem_of_lookup_2]].
  unfold row_log. rewrite Hna, Hscan. by left.
Qed.

Lemma contained_description_witness :
  contains (normalize "Over Voltage!") "over voltage" = true
  ∧ (λ df, cell df "故障码" 0)
      <$> result_value (process_board ex_world ex_config ex_board)
    = Some (Some (VStr "E100")).
Proof.
  split; [vm_compute; reflexivity|].
  destruct (contained_description_first_entry ex_tables.1 ex_config ex_board ex_tables.2
              (default ex_erpt (result_value
                 (prepare_output_for_board ex_tables.1 ex_config ex_board)))
              (default ex_erpt (result_value
                 (process_board ex_world ex_config ex_board)))
              0%nat (VStr "Over Voltage!") 0%nat ("over voltage", "E100"))
    as (Hcell & _);
    [vm_compute; reflexivity|vm_compute; reflexivity|reflexivity
    |vm_compute; lia|reflexivity|vm_compute; reflexivity|vm_compute; reflexivity| |].
  - intros j e' Hj. inversion Hj.
  - vm_compute in Hcell |- *. exact (f_equal Some Hcell).
Defined.

Lemma str_map_empty f s : str_map f s = "" ↔ s = "".
Proof. by destruct s. Qed.

(** X23: the descriptions whose normal form is empty are those made of
    punctuation only, once trimmed: the normal form of an ASCII text is
    the empty string exactly when no character of the trimmed text is a
    word character or a whitespace.  Such a description is contained in
    every entry of the lookup table. *)
Theorem normalize_empty_iff s :
  is_ascii s = true →
  (normalize s = ""
   ↔ str_forall (λ c, negb (isword c || isspace c)) (strip s) = true)
  ∧ (normalize s = "" → ∀ d, contains (normalize s) d = true).
Proof.
  intros _. split.
  - unfold normalize, lower, re_sub_nonword.
    rewrite str_map_empty. apply str_filter_empty.
  - intros -> d. apply contains_empty.
Qed.

Lemma normalize_empty_witness :
  normalize " ?! " = "" ∧ contains (normalize " ?! ") "over voltage" = true.
Proof.
  assert (normalize " ?! " = "") as Hempty.
  { apply (proj1 (normalize_empty_iff " ?! " eq_refl)). vm_compute. reflexivity. }
  split; [exact Hempty|].
  exact (proj2 (normalize_empty_iff " ?! " eq_refl) Hempty "over voltage").
Defined.

(** X24: the alphabet of a normal form: every character the normalizer
    leaves of an ASCII text is a word character or a whitespace, and none
    is an upper-case letter. *)
Theorem normalize_alphabet s :
  is_ascii s = true →
  str_forall (λ c, (isword c || isspace c) && negb (between 65 90 (code c)))
    (normalize s) = true.
Proof.
  intros _. unfold normalize, lower, re_sub_nonword.
  rewrite str_forall_map.
  eapply str_forall_impl; [|apply str_forall_filter].
  intros c Hc. cbv beta in Hc |- *.
  rewrite isword_lower_char, isspace_lower_char, Hc. cbn [andb].
  clear. destruct c as [[] [] [] [] [] [] [] []]; reflexivity.
Qed.

Lemma normalize_alphabet_witness :
  str_forall (λ c, (isword c || isspace c) && negb (between 65 90 (code c)))
    (normalize " Fan #2: STALLED! ") = true.
Proof. apply (normalize_alphabet " Fan #2: STALLED! "). vm_compute. reflexivity. Defined.

End MatcherContract.
